(** * Multimodal chat server: session store, routing and generation turns

    A shallow embedding of [src/server/app.py].  The module-level state
    of the server ([SESSIONS] and the objects it refers to) and every
    effect of a request (calls to the OpenAI client, the clock, [uuid4],
    file writes) are threaded through a state-and-exception monad.  The
    outside world is a [Backend]: a family of functions that decide,
    from the trace of calls issued so far, what each call answers.

    - A [SessionState] is an object on a heap and [SESSIONS] maps ids to
      references, so that the session a handler mutates is the one the
      store holds.
    - Times are binary64 floats, as in Python; the poller only adds and
      compares them.
    - The loop of the poller runs as long as the clock and the backend
      let it; the model follows it for a number of rounds ([fuel]) and
      says [OutOfFuel] beyond. *)

From Stdlib Require Import ZArith NArith Lia List Bool Ascii String PrimFloat.
From Stdlib.Strings Require Import Byte.
From stdpp Require Import base option list gmap strings.

Local Open Scope string_scope.
Local Open Scope list_scope.

(** ** Python strings

    A [str] is modelled by the string of its code points; the embedding
    covers code points below 256. *)

Definition nl : string := String "010"%char EmptyString.

(** [str.isspace] on one code point (below 256). *)
Definition isspace (c : ascii) : bool :=
  let n := nat_of_ascii c in
  ((9 <=? n)%nat && (n <=? 13)%nat)
  || ((28 <=? n)%nat && (n <=? 32)%nat)
  || (n =? 133)%nat || (n =? 160)%nat.

Fixpoint lstrip (s : string) : string :=
  match s with
  | EmptyString => EmptyString
  | String c r => if isspace c then lstrip r else s
  end.

Fixpoint rstrip (s : string) : string :=
  match s with
  | EmptyString => EmptyString
  | String c r =>
      match rstrip r with
      | EmptyString => if isspace c then EmptyString else String c EmptyString
      | r' => String c r'
      end
  end.

(** [s.strip()] *)
Definition strip (s : string) : string := rstrip (lstrip s).

Fixpoint all_space (s : string) : bool :=
  match s with
  | EmptyString => true
  | String c r => isspace c && all_space r
  end.

(** [sep.join(l)] *)
Fixpoint join (sep : string) (l : list string) : string :=
  match l with
  | [] => ""
  | [x] => x
  | x :: r => x +:+ sep +:+ join sep r
  end.

(** Truthiness of a [str]: the empty string is false. *)
Definition nonempty (s : string) : bool :=
  match s with EmptyString => false | String _ _ => true end.

(** Truthiness of an [Optional[str]]: [None] and the empty string are false. *)
Definition truthy (o : option string) : bool :=
  match o with Some s => nonempty s | None => false end.

(** [o or d] for an [Optional[str]] [o]. *)
Definition or_else (o : option string) (d : string) : string :=
  match o with
  | Some s => if nonempty s then s else d
  | None => d
  end.

(** [l[i:]] with Python's treatment of a negative or too large start. *)
Definition slice_from {A} (i : Z) (l : list A) : list A :=
  let len := Z.of_nat (length l) in
  let start := if (i <? 0)%Z then Z.max 0 (len + i) else Z.min i len in
  drop (Z.to_nat start) l.

(** ** [uuid.uuid4]: a 128-bit integer, printed in hexadecimal *)

Definition hex_digit (n : N) : ascii :=
  match String.get (N.to_nat n) "0123456789abcdef" with
  | Some c => c
  | None => "0"%char
  end.

Fixpoint hex_of (k : nat) (n : N) : string :=
  match k with
  | O => EmptyString
  | S k' => String (hex_digit (N.land (N.shiftr n (4 * N.of_nat k')) 15)) (hex_of k' n)
  end.

(** [uuid.hex] *)
Definition uuid_hex (u : N) : string := hex_of 32 u.

(** [str(uuid)] *)
Definition uuid_str (u : N) : string :=
  let h := uuid_hex u in
  substring 0 8 h +:+ "-" +:+ substring 8 4 h +:+ "-" +:+ substring 12 4 h
  +:+ "-" +:+ substring 16 4 h +:+ "-" +:+ substring 20 12 h.

(** [os.path.join(a, b)] for a relative [b]. *)
Fixpoint ends_with_slash (s : string) : bool :=
  match s with
  | EmptyString => false
  | String c EmptyString => Ascii.eqb c "/"%char
  | String _ r => ends_with_slash r
  end.

Definition path_join (a b : string) : string :=
  if nonempty a then (if ends_with_slash a then a +:+ b else a +:+ "/" +:+ b) else b.

(** ** Config *)

Record Config := {
  ROUTER_MODEL : string;
  TEXT_MODEL : string;
  STT_MODEL : string;
  VIDEO_MODEL : string;
  VIDEO_SECONDS : string;
  VIDEO_SIZE : string;
  VIDEO_POLL_SECONDS : float;
  VIDEO_TIMEOUT_SECONDS : float;
  OUTPUT_DIR : string
}.

(** The values used when the environment sets none of the variables
    ([OUTPUT_DIR] stands for the directory next to the module). *)
Definition default_config : Config := {|
  ROUTER_MODEL := "gpt-4o-mini";
  TEXT_MODEL := "gpt-5.2";
  STT_MODEL := "gpt-4o-mini-transcribe";
  VIDEO_MODEL := "sora-2";
  VIDEO_SECONDS := "4";
  VIDEO_SIZE := "720x1280";
  VIDEO_POLL_SECONDS := 2%float;
  VIDEO_TIMEOUT_SECONDS := 180%float;
  OUTPUT_DIR := "server/outputs"
|}.

(** ** Models *)

Inductive Intent := Text | Image | Video.

Definition Intent_eqb (a b : Intent) : bool :=
  match a, b with
  | Text, Text | Image, Image | Video, Video => true
  | _, _ => false
  end.

(** [o == i] for an [Optional[Intent]] [o]. *)
Definition is_intent (o : option Intent) (i : Intent) : bool :=
  match o with Some x => Intent_eqb x i | None => false end.

(** [Literal["4", "8", "12"]] *)
Inductive Seconds := Sec4 | Sec8 | Sec12.

Definition seconds_str (s : Seconds) : string :=
  match s with Sec4 => "4" | Sec8 => "8" | Sec12 => "12" end.

(** [Literal["720x1280", "1280x720", "1024x1792", "1792x1024"]] *)
Inductive Size := S720x1280 | S1280x720 | S1024x1792 | S1792x1024.

Definition size_str (s : Size) : string :=
  match s with
  | S720x1280 => "720x1280"
  | S1280x720 => "1280x720"
  | S1024x1792 => "1024x1792"
  | S1792x1024 => "1792x1024"
  end.

Record RouteDecision := {
  intent : Intent;
  prompt : string;
  seconds : option Seconds;
  size : option Size;
  style : option string
}.

Record ChatRequest := {
  session_id : option string;
  text : string
}.

Record ChatResponse := {
  r_session_id : string;
  r_intent : Intent;
  r_content_type : Intent;
  r_text : option string;
  r_asset_url : option string;
  r_debug : list (string * option string)
}.

(** One entry of [messages]: [{"role": ..., "content": ...}]. *)
Record Message := {
  role : string;
  content : string
}.

Record SessionState := {
  messages : list Message;
  last_intent : option Intent;
  last_image_response_id : option string;
  last_video_id : option string;
  last_video_completed : bool
}.

(** [SessionState()] *)
Definition new_SessionState : SessionState := {|
  messages := [];
  last_intent := None;
  last_image_response_id := None;
  last_video_id := None;
  last_video_completed := false
|}.

#[export] Instance SessionState_inhabited : Inhabited SessionState :=
  populate new_SessionState.

(** Field updates of a [SessionState] object. *)
Definition append_message (m : Message) (s : SessionState) : SessionState :=
  {| messages := messages s ++ [m];
     last_intent := last_intent s;
     last_image_response_id := last_image_response_id s;
     last_video_id := last_video_id s;
     last_video_completed := last_video_completed s |}.

Definition set_last_intent (i : Intent) (s : SessionState) : SessionState :=
  {| messages := messages s;
     last_intent := Some i;
     last_image_response_id := last_image_response_id s;
     last_video_id := last_video_id s;
     last_video_completed := last_video_completed s |}.

Definition set_last_image_response_id (r : string) (s : SessionState) : SessionState :=
  {| messages := messages s;
     last_intent := last_intent s;
     last_image_response_id := Some r;
     last_video_id := last_video_id s;
     last_video_completed := last_video_completed s |}.

Definition set_last_video_id (v : string) (s : SessionState) : SessionState :=
  {| messages := messages s;
     last_intent := last_intent s;
     last_image_response_id := last_image_response_id s;
     last_video_id := Some v;
     last_video_completed := last_video_completed s |}.

Definition set_last_video_completed (b : bool) (s : SessionState) : SessionState :=
  {| messages := messages s;
     last_intent := last_intent s;
     last_image_response_id := last_image_response_id s;
     last_video_id := last_video_id s;
     last_video_completed := b |}.

(** ** The outside world *)

(** The [input] argument of [client.responses.create]: the message list
    (text turns) or a single prompt (image turns). *)
Inductive Input :=
  | InputMessages (l : list Message)
  | InputText (s : string).

(** The calls the server issues, with their arguments. *)
Inductive Call :=
  | ResponsesParse (model : string) (input : list Message)
  | ResponsesCreate (model : string) (input : Input) (tools : list string)
      (previous_response_id : option string)
  | VideosCreate (prompt model seconds size : string)
  | VideosRemix (video_id prompt : string)
  | VideosRetrieve (video_id : string)
  | VideosDownloadContent (video_id : string)
  | TimeTime
  | TimeSleep (secs : float)
  | Uuid4
  | WriteFile (path : string) (data : list byte).

(** An item of [resp.output]: a typed object or a plain dict, each of
    which may or may not carry [type] and [result]. *)
Inductive OutputItem :=
  | ItemObject (attr_type attr_result : option string)
  | ItemDict (key_type key_result : option string).

Record Response := {
  resp_id : string;
  output_text : option string;
  output : list OutputItem
}.

Record VideoJob := {
  job_id : string;
  status : option string
}.

(** What can be raised: an [HTTPException]; any other exception of
    class [Exception], with its [str(e)]; or one that is no
    [Exception] at all ([KeyboardInterrupt], [SystemExit], ...), with
    its class name. *)
Inductive exn :=
  | HTTPException (status_code : Z) (detail : string)
  | Exception (msg : string)
  | BaseException (name : string).

(** What a call to a library or to the backend raises: an exception of
    class [Exception], with its [str(e)], or one that is no [Exception],
    with its class name.  [HTTPException] is raised by the server's own
    code only. *)
Inductive failure :=
  | Failure (msg : string)
  | Interrupt (name : string).

Definition exn_of (f : failure) : exn :=
  match f with
  | Failure msg => Exception msg
  | Interrupt name => BaseException name
  end.

(** The answer to a call: what it raises, or its value. *)
Definition reply (A : Type) : Type := failure + A.

(** Every answer may depend on the whole trace of calls so far, the
    current call at its head. *)
Record Backend := {
  parse_reply : list Call -> reply (option RouteDecision);
  create_reply : list Call -> reply Response;
  video_reply : list Call -> reply VideoJob;
  download_reply : list Call -> reply (list byte);
  clock : list Call -> float;
  sleep_reply : list Call -> reply unit;
  uuid4_reply : list Call -> N;
  write_reply : list Call -> reply unit;
  b64decode : string -> reply (list byte)
}.

(** ** Server state and the monad of a request *)

(** [SESSIONS] maps a session id to a reference; [heap] holds the
    [SessionState] objects, a reference being an index; [trace] lists
    the calls issued, the latest first. *)
Record World := {
  SESSIONS : gmap string nat;
  heap : list SessionState;
  trace : list Call
}.

Definition empty_world : World :=
  {| SESSIONS := ∅; heap := []; trace := [] |}.

Inductive outcome (A : Type) :=
  | Return (a : A)
  | Raise (e : exn)
  | OutOfFuel.

Arguments Return {A} a.
Arguments Raise {A} e.
Arguments OutOfFuel {A}.

Definition M (A : Type) : Type := World -> outcome A * World.

Definition ret {A} (a : A) : M A := fun w => (Return a, w).

Definition raise {A} (e : exn) : M A := fun w => (Raise e, w).

Definition bind {A B} (m : M A) (k : A -> M B) : M B :=
  fun w =>
    match m w with
    | (Return a, w') => k a w'
    | (Raise e, w') => (Raise e, w')
    | (OutOfFuel, w') => (OutOfFuel, w')
    end.

Notation "'let*' x ':=' m 'in' k" := (bind m (fun x => k))
  (at level 10, x pattern, m at level 100, k at level 200).

Notation "m ';;' k" := (bind m (fun _ => k))
  (at level 100, k at level 200, right associativity).

(** [except Exception as e: raise HTTPException(status_code=500, detail=str(e))],
    after [except HTTPException: raise]; an exception outside
    [Exception] is caught by neither clause. *)
Definition try_except {A} (m : M A) : M A :=
  fun w =>
    match m w with
    | (Raise (HTTPException status_code detail), w') =>
        (Raise (HTTPException status_code detail), w')
    | (Raise (Exception msg), w') => (Raise (HTTPException 500 msg), w')
    | (Raise (BaseException name), w') => (Raise (BaseException name), w')
    | r => r
    end.

Definition record_call (c : Call) (w : World) : World :=
  {| SESSIONS := SESSIONS w; heap := heap w; trace := c :: trace w |}.

(** Issue a call that may raise. *)
Definition perform {A} (c : Call) (answer : list Call -> reply A) : M A :=
  fun w =>
    let w' := record_call c w in
    match answer (trace w') with
    | inl f => (Raise (exn_of f), w')
    | inr a => (Return a, w')
    end.

(** Issue a call that always returns. *)
Definition observe {A} (c : Call) (answer : list Call -> A) : M A :=
  fun w => let w' := record_call c w in (Return (answer (trace w')), w').

(** Read the object behind a reference. *)
Definition read (l : nat) : M SessionState :=
  fun w => (Return (heap w !!! l), w).

(** Update the object behind a reference in place. *)
Definition modify (l : nat) (f : SessionState -> SessionState) : M unit :=
  fun w =>
    (Return tt,
     {| SESSIONS := SESSIONS w; heap := alter f l (heap w); trace := trace w |}).

(** [SessionState()]: a new object, and its reference. *)
Definition new_object : M nat :=
  fun w =>
    (Return (length (heap w)),
     {| SESSIONS := SESSIONS w; heap := heap w ++ [new_SessionState];
        trace := trace w |}).

(** [SESSIONS[sid] = ref] *)
Definition sessions_set (sid : string) (l : nat) : M unit :=
  fun w =>
    (Return tt,
     {| SESSIONS := <[sid := l]> (SESSIONS w); heap := heap w; trace := trace w |}).

(** [SESSIONS.get(sid)] *)
Definition sessions_get (sid : string) : M (option nat) :=
  fun w => (Return (SESSIONS w !! sid), w).

Definition system_prompt : string :=
  "You are an intent router for a multimodal assistant." +:+ nl +:+
  "Decide whether the user wants TEXT, IMAGE (art), or VIDEO output." +:+ nl +:+
  "Return a RouteDecision with:" +:+ nl +:+
  "- intent: one of text|image|video" +:+ nl +:+
  "- prompt: a clean standalone prompt for the generator" +:+ nl +:+
  "- seconds, size only if intent=video" +:+ nl +:+
  "- style only if intent=image and it helps" +:+ nl +:+
  "Rules:" +:+ nl +:+
  "- If the user asks to 'draw', 'generate image', 'logo', 'poster', 'art', pick image." +:+ nl +:+
  "- If the user asks for 'video', 'animation', 'clip', 'Sora', pick video." +:+ nl +:+
  "- Otherwise pick text." +:+ nl +:+
  "- If the user is refining the previous output (e.g. 'make it more realistic'), keep the same intent as context suggests." +:+ nl.

(** [f"{m['role']}: {m['content']}"] *)
Definition render_message (m : Message) : string :=
  role m +:+ ": " +:+ content m.

(** The [convo] string of [route_intent]. *)
Definition convo (msgs : list Message) : string :=
  let last_few := slice_from (-6) msgs in
  match last_few with
  | [] => "(none)"
  | _ => join nl (map render_message last_few)
  end.

Definition item_type (it : OutputItem) : option string :=
  match it with
  | ItemObject t _ => if truthy t then t else None
  | ItemDict t _ => t
  end.

Definition item_result (it : OutputItem) : option string :=
  match it with
  | ItemObject _ r => if truthy r then r else None
  | ItemDict _ r => r
  end.

Definition is_str (o : option string) (s : string) : bool :=
  match o with Some x => String.eqb x s | None => false end.

(** The loop of [generate_image] over [resp.output]. *)
Fixpoint find_image_b64 (items : list OutputItem) : option string :=
  match items with
  | [] => None
  | it :: rest =>
      if is_str (item_type it) "image_generation_call"
      then item_result it
      else find_image_b64 rest
  end.

Section Server.

Variable B : Backend.
Variable cfg : Config.

Definition get_or_create_session (session_id : option string) : M (string * nat) :=
  let* known :=
    (if truthy session_id then sessions_get (or_else session_id "") else ret None) in
  match known with
  | Some l => ret (or_else session_id "", l)
  | None =>
      let* sid :=
        (if truthy session_id then ret (or_else session_id "")
         else let* u := observe Uuid4 (uuid4_reply B) in ret (uuid_str u)) in
      let* l := new_object in
      sessions_set sid l ;;
      ret (sid, l)
  end.

Definition route_intent (user_text : string) (session : nat) : M (option RouteDecision) :=
  let* s := read session in
  perform
    (ResponsesParse (ROUTER_MODEL cfg)
       [ {| role := "system"; content := system_prompt |};
         {| role := "user";
            content := "Recent conversation:" +:+ nl +:+ convo (messages s)
                       +:+ nl +:+ nl +:+ "User message:" +:+ nl +:+ user_text |} ])
    (parse_reply B).

Definition save_bytes (ext : string) (data : list byte) : M string :=
  let* u := observe Uuid4 (uuid4_reply B) in
  let fname := uuid_hex u +:+ "." +:+ ext in
  let path := path_join (OUTPUT_DIR cfg) fname in
  perform (WriteFile path data) (write_reply B) ;;
  ret ("/outputs/" +:+ fname).

Definition generate_text (session : nat) (prompt : string) : M string :=
  modify session (append_message {| role := "user"; content := prompt |}) ;;
  let* s := read session in
  let* resp :=
    perform (ResponsesCreate (TEXT_MODEL cfg) (InputMessages (messages s)) [] None)
      (create_reply B) in
  let text := or_else (output_text resp) "" in
  modify session (append_message {| role := "assistant"; content := text |}) ;;
  ret text.

(** The [previous_response_id] keyword of [generate_image], if any. *)
Definition image_kwargs (s : SessionState) : option string :=
  if is_intent (last_intent s) Image && truthy (last_image_response_id s)
  then last_image_response_id s
  else None.

(** A pure library function that may raise. *)
Definition of_reply {A} (r : reply A) : M A :=
  match r with
  | inl f => raise (exn_of f)
  | inr a => ret a
  end.

Definition generate_image (session : nat) (prompt : string) (style : option string)
  : M string :=
  let input_prompt :=
    if truthy style
    then prompt +:+ nl +:+ nl +:+ "Style: " +:+ or_else style ""
    else prompt in
  let* s := read session in
  let* resp :=
    perform
      (ResponsesCreate (TEXT_MODEL cfg) (InputText input_prompt)
         ["image_generation"] (image_kwargs s))
      (create_reply B) in
  modify session (set_last_image_response_id (resp_id resp)) ;;
  let image_b64 := find_image_b64 (output resp) in
  if negb (truthy image_b64)
  then raise (HTTPException 500 "No image generated in response output.")
  else
    let* img_bytes := of_reply (b64decode B (or_else image_b64 "")) in
    save_bytes "png" img_bytes.

(** The [while] loop of [poll_video_until_done]; [fuel] bounds the
    number of iterations the model follows. *)
Fixpoint poll_loop (fuel : nat) (deadline : float) (video_id : string) : M VideoJob :=
  match fuel with
  | O => fun w => (OutOfFuel, w)
  | S fuel' =>
      let* now := observe TimeTime (clock B) in
      if PrimFloat.ltb now deadline
      then
        let* job := perform (VideosRetrieve video_id) (video_reply B) in
        if is_str (status job) "completed" then ret job
        else if is_str (status job) "failed"
        then raise (HTTPException 500 ("Video job failed: " +:+ video_id))
        else
          perform (TimeSleep (VIDEO_POLL_SECONDS cfg)) (sleep_reply B) ;;
          poll_loop fuel' deadline video_id
      else raise (HTTPException 504 ("Video generation timed out: " +:+ video_id))
  end.

Definition poll_video_until_done (fuel : nat) (video_id : string) : M VideoJob :=
  let* t0 := observe TimeTime (clock B) in
  poll_loop fuel (PrimFloat.add t0 (VIDEO_TIMEOUT_SECONDS cfg)) video_id.

Definition download_video_mp4 (video_id : string) : M string :=
  let* video_bytes := perform (VideosDownloadContent video_id) (download_reply B) in
  save_bytes "mp4" video_bytes.

(** The test that selects a remix in [generate_video]. *)
Definition remix_ready (s : SessionState) : bool :=
  is_intent (last_intent s) Video && truthy (last_video_id s)
  && last_video_completed s.

(** The first part of [generate_video], up to and including
    [session.last_video_completed = False]. *)
Definition submit_video (session : nat) (prompt : string)
    (seconds size : option string) : M VideoJob :=
  let use_seconds := or_else seconds (VIDEO_SECONDS cfg) in
  let use_size := or_else size (VIDEO_SIZE cfg) in
  let* s := read session in
  let* job :=
    (if remix_ready s
     then perform (VideosRemix (or_else (last_video_id s) "") prompt) (video_reply B)
     else perform (VideosCreate prompt (VIDEO_MODEL cfg) use_seconds use_size)
            (video_reply B)) in
  modify session (set_last_video_id (job_id job)) ;;
  modify session (set_last_video_completed false) ;;
  ret job.

Definition generate_video (fuel : nat) (session : nat) (prompt : string)
    (seconds size : option string) : M string :=
  let* job := submit_video session prompt seconds size in
  poll_video_until_done fuel (job_id job) ;;
  modify session (set_last_video_completed true) ;;
  download_video_mp4 (job_id job).

(** The body of the [try] block of [handle_message].  A [decision]
    that is [None] fails at [decision.intent]; the final
    [raise HTTPException(500, "Unknown intent.")] of the source is
    not reachable with one of the three intents. *)
Definition dispatch (fuel : nat) (sid : string) (session : nat)
    (decision : option RouteDecision) : M ChatResponse :=
  match decision with
  | None => raise (Exception "'NoneType' object has no attribute 'intent'")
  | Some d =>
      match intent d with
      | Text =>
          let* out_text := generate_text session (prompt d) in
          modify session (set_last_intent Text) ;;
          ret {| r_session_id := sid; r_intent := Text; r_content_type := Text;
                 r_text := Some out_text; r_asset_url := None;
                 r_debug := [("routed_prompt", Some (prompt d))] |}
      | Image =>
          let* url := generate_image session (prompt d) (style d) in
          modify session (set_last_intent Image) ;;
          modify session
            (append_message
               {| role := "assistant"; content := "[image generated] " +:+ url |}) ;;
          ret {| r_session_id := sid; r_intent := Image; r_content_type := Image;
                 r_text := None; r_asset_url := Some url;
                 r_debug := [("routed_prompt", Some (prompt d)); ("style", style d)] |}
      | Video =>
          let* url :=
            generate_video fuel session (prompt d)
              (option_map seconds_str (seconds d)) (option_map size_str (size d)) in
          modify session (set_last_intent Video) ;;
          modify session
            (append_message
               {| role := "assistant"; content := "[video generated] " +:+ url |}) ;;
          ret {| r_session_id := sid; r_intent := Video; r_content_type := Video;
                 r_text := None; r_asset_url := Some url;
                 r_debug := [("routed_prompt", Some (prompt d));
                             ("seconds", option_map seconds_str (seconds d));
                             ("size", option_map size_str (size d))] |}
      end
  end.

Definition handle_message (fuel : nat) (req : ChatRequest) : M ChatResponse :=
  let* found := get_or_create_session (session_id req) in
  let sid := fst found in
  let session := snd found in
  let user_text := strip (text req) in
  if negb (nonempty user_text)
  then raise (HTTPException 400 "Empty message.")
  else
    let* decision := route_intent user_text session in
    modify session (append_message {| role := "user"; content := user_text |}) ;;
    try_except (dispatch fuel sid session decision).

End Server.

(** ** Scripted backends

    Concrete outside worlds on which the server is run. *)

Definition is_retrieve (c : Call) : bool :=
  match c with VideosRetrieve _ => true | _ => false end.

Definition is_time (c : Call) : bool :=
  match c with TimeTime => true | _ => false end.

Definition is_create (c : Call) : bool :=
  match c with ResponsesCreate _ _ _ _ => true | _ => false end.

Definition count_calls (p : Call -> bool) (tr : list Call) : nat :=
  length (filter (fun c => p c = true) tr).

(** The router always answers [d]; the k-th [responses.create] answers
    with id [resp_k], the text [reply] and the output items [items];
    [videos.create] and [videos.remix] open the job [video_1]; the k-th
    [videos.retrieve] reports the k-th status of [statuses]
    ([queued] beyond the list); the k-th reading of the clock is the
    k-th of [ticks] (0 beyond the list); the k-th [uuid4] is k. *)
Definition scripted (d : option RouteDecision) (reply_text : string)
    (items : list OutputItem) (statuses : list string) (ticks : list float)
  : Backend := {|
  parse_reply := fun _ => inr d;
  create_reply := fun tr =>
    inr {| resp_id := "resp_" +:+ hex_of 2 (N.of_nat (count_calls is_create tr));
           output_text := Some reply_text;
           output := items |};
  video_reply := fun tr =>
    match tr with
    | VideosRetrieve v :: _ =>
        inr {| job_id := v;
               status := Some (nth (count_calls is_retrieve tr - 1) statuses "queued") |}
    | _ => inr {| job_id := "video_1"; status := Some "queued" |}
    end;
  download_reply := fun _ => inr [];
  clock := fun tr => nth (count_calls is_time tr - 1) ticks 0%float;
  sleep_reply := fun _ => inr tt;
  uuid4_reply := fun tr => N.of_nat (length tr);
  write_reply := fun _ => inr tt;
  b64decode := fun _ => inr []
|}.

(** A backend whose every fallible call raises. *)
Definition failing : Backend := {|
  parse_reply := fun _ => inl (Failure "router unavailable");
  create_reply := fun _ => inl (Failure "backend unavailable");
  video_reply := fun _ => inl (Failure "backend unavailable");
  download_reply := fun _ => inl (Failure "backend unavailable");
  clock := fun _ => 0%float;
  sleep_reply := fun _ => inl (Failure "interrupted");
  uuid4_reply := fun tr => N.of_nat (length tr);
  write_reply := fun _ => inl (Failure "disk full");
  b64decode := fun _ => inl (Failure "Incorrect padding")
|}.

Definition route_to (i : Intent) (p : string) : option RouteDecision :=
  Some {| intent := i; prompt := p; seconds := None; size := None; style := None |}.

Definition haiku_backend : Backend :=
  scripted (route_to Text "Write a haiku about rain.") "Soft rain on the roof" [] [] [].

Definition no_image_backend : Backend :=
  scripted (route_to Image "A red fox") "" [] [] [].

Definition image_backend : Backend :=
  scripted (route_to Image "A red fox") ""
    [ItemObject (Some "image_generation_call") (Some "aGk=")] [] [].

Definition video_backend : Backend :=
  scripted (route_to Video "A sunset") "" [] ["queued"; "completed"]
    [0%float; 1%float; 3%float; 5%float].

(** The job is never finished and the clock passes the deadline. *)
Definition slow_video_backend : Backend :=
  scripted (route_to Video "A sunset") "" [] [] [0%float; 100%float; 200%float].

(** The job is reported failed at the first look. *)
Definition failed_video_backend : Backend :=
  scripted (route_to Video "A sunset") "" [] ["failed"] [0%float; 1%float].

Definition request (sid : option string) (t : string) : ChatRequest :=
  {| session_id := sid; text := t |}.

Definition is_parse (c : Call) : bool :=
  match c with ResponsesParse _ _ => true | _ => false end.

(** The router is up and asks for an image, and every other call raises. *)
Definition image_down_backend : Backend := {|
  parse_reply := fun _ => inr (route_to Image "A red fox");
  create_reply := fun _ => inl (Failure "backend unavailable");
  video_reply := fun _ => inl (Failure "backend unavailable");
  download_reply := fun _ => inl (Failure "backend unavailable");
  clock := fun _ => 0%float;
  sleep_reply := fun _ => inl (Failure "interrupted");
  uuid4_reply := fun tr => N.of_nat (length tr);
  write_reply := fun _ => inl (Failure "disk full");
  b64decode := fun _ => inl (Failure "Incorrect padding")
|}.

(** The router asks for an image, then for text, then for an image
    again; the image backend answers, the text backend raises. *)
Definition text_down_backend : Backend := {|
  parse_reply := fun tr =>
    inr (if (count_calls is_parse tr =? 2)%nat
         then route_to Text "Tell me about foxes."
         else route_to Image "A red fox");
  create_reply := fun tr =>
    match tr with
    | ResponsesCreate _ (InputText _) _ _ :: _ =>
        inr {| resp_id := "resp_" +:+ hex_of 2 (N.of_nat (count_calls is_create tr));
               output_text := Some "";
               output := [ItemDict (Some "image_generation_call") (Some "aGk=")] |}
    | _ => inl (Failure "backend unavailable")
    end;
  video_reply := fun _ => inl (Failure "backend unavailable");
  download_reply := fun _ => inl (Failure "backend unavailable");
  clock := fun _ => 0%float;
  sleep_reply := fun _ => inr tt;
  uuid4_reply := fun tr => N.of_nat (length tr);
  write_reply := fun _ => inr tt;
  b64decode := fun _ => inr []
|}.

(** The requests [texts], one after the other, to the session [sid]. *)
Fixpoint run_requests (B : Backend) (cfg : Config) (fuel : nat) (sid : string)
    (texts : list string) (w : World) : list (outcome ChatResponse) * World :=
  match texts with
  | [] => ([], w)
  | t :: rest =>
      let r := handle_message B cfg fuel (request (Some sid) t) w in
      let rs := run_requests B cfg fuel sid rest (snd r) in
      (fst r :: fst rs, snd rs)
  end.

(** The intent of a request that was answered. *)
Definition answered_intent (o : outcome ChatResponse) : option Intent :=
  match o with
  | Return resp => Some (r_intent resp)
  | _ => None
  end.

Definition a_session (i : option Intent) (img vid : option string) (done : bool)
  : SessionState :=
  {| messages := []; last_intent := i; last_image_response_id := img;
     last_video_id := vid; last_video_completed := done |}.

Definition one_session (s : SessionState) : World :=
  {| SESSIONS := {["s1" := 0%nat]}; heap := [s]; trace := [] |}.

(** ** Vocabulary of the statements *)

(** [post m R]: every run of [m] relates the world it starts in to the
    world it ends in by [R], whatever its outcome. *)
Definition post {A} (m : M A) (R : World -> World -> Prop) : Prop :=
  forall w out w', m w = (out, w') -> R w w'.

(** The reference [SESSIONS] holds for a request's session id, when the
    id is given, not empty and in the store. *)
Definition known_session (session_id : option string) (w : World) : option nat :=
  if truthy session_id then SESSIONS w !! or_else session_id "" else None.

(** The id a new session is filed under: the caller's, or a new uuid. *)
Definition chosen_id (B : Backend) (session_id : option string) (w : World) : string :=
  if truthy session_id then or_else session_id ""
  else uuid_str (uuid4_reply B (Uuid4 :: trace w)).

(** The calls that open a video job. *)
Definition is_submission (c : Call) : bool :=
  match c with
  | VideosCreate _ _ _ _ | VideosRemix _ _ => true
  | _ => false
  end.

(** A call that opens no video job. *)
Definition quiet (c : Call) : Prop := is_submission c = false.

(** [w'] comes after [w]: the trace has grown, by calls that satisfy [ok]. *)
Definition extends_by (ok : Call -> Prop) (w w' : World) : Prop :=
  exists later, trace w' = later ++ trace w /\ Forall ok later.

(** Nothing but the trace has changed. *)
Definition same_store (w w' : World) : Prop :=
  SESSIONS w' = SESSIONS w /\ heap w' = heap w.

(** The store and the number of objects are as before. *)
Definition same_shape (w w' : World) : Prop :=
  SESSIONS w' = SESSIONS w /\ length (heap w') = length (heap w).

(** Every reference in the store points to an object. *)
Definition store_ok (w : World) : Prop :=
  forall sid l, SESSIONS w !! sid = Some l -> (l < length (heap w))%nat.

(** [cfg] with other process-wide video settings. *)
Definition with_video_defaults (cfg : Config) (model secs sz : string) : Config :=
  {| ROUTER_MODEL := ROUTER_MODEL cfg;
     TEXT_MODEL := TEXT_MODEL cfg;
     STT_MODEL := STT_MODEL cfg;
     VIDEO_MODEL := model;
     VIDEO_SECONDS := secs;
     VIDEO_SIZE := sz;
     VIDEO_POLL_SECONDS := VIDEO_POLL_SECONDS cfg;
     VIDEO_TIMEOUT_SECONDS := VIDEO_TIMEOUT_SECONDS cfg;
     OUTPUT_DIR := OUTPUT_DIR cfg |}.

(** The worlds the server can be in: the empty one at start, and the
    one any request leaves behind. *)
Inductive reachable (B : Backend) (cfg : Config) : World -> Prop :=
  | reachable_start : reachable B cfg empty_world
  | reachable_request w fuel req out w' :
      reachable B cfg w ->
      handle_message B cfg fuel req w = (out, w') ->
      reachable B cfg w'.

(** [pending_rounds B cfg deadline video_id n w w']: from [w], the loop
    of the poller goes [n] times round, each time reading a clock
    before the deadline, retrieving a job that is neither completed nor
    failed, and sleeping; it is then in [w']. *)
Inductive pending_rounds (B : Backend) (cfg : Config) (deadline : float)
    (video_id : string) : nat -> World -> World -> Prop :=
  | pending_none w : pending_rounds B cfg deadline video_id 0 w w
  | pending_round n w w' job :
      PrimFloat.ltb (clock B (TimeTime :: trace w)) deadline = true ->
      video_reply B (VideosRetrieve video_id :: TimeTime :: trace w) = inr job ->
      is_str (status job) "completed" = false ->
      is_str (status job) "failed" = false ->
      sleep_reply B
        (TimeSleep (VIDEO_POLL_SECONDS cfg) :: VideosRetrieve video_id
         :: TimeTime :: trace w) = inr tt ->
      pending_rounds B cfg deadline video_id n
        (record_call (TimeSleep (VIDEO_POLL_SECONDS cfg))
           (record_call (VideosRetrieve video_id) (record_call TimeTime w))) w' ->
      pending_rounds B cfg deadline video_id (S n) w w'.

(** [I (trace w) s] holds of every object [s] in [w]. *)
Definition all_sessions (I : list Call -> SessionState -> Prop) (w : World) : Prop :=
  Forall (I (trace w)) (heap w).

(** A step from [w] to [w'] keeps [I] true of every object. *)
Definition keeps (I : list Call -> SessionState -> Prop) (w w' : World) : Prop :=
  all_sessions I w -> all_sessions I w'.

(** The completed flag is only set on a session that records a job. *)
Definition flag_ok (s : SessionState) : Prop :=
  last_video_completed s = true -> last_video_id s <> None.



(** The messages of the session [sid]; none when it does not exist. *)
Definition session_messages (w : World) (sid : string) : list Message :=
  match SESSIONS w !! sid with
  | Some l => messages (heap w !!! l)
  | None => []
  end.

(** The messages of the session a request names, before the request
    is handled; none when it names no session the store holds. *)
Definition prior_messages (w : World) (session_id : option string) : list Message :=
  match known_session session_id w with
  | Some l => messages (heap w !!! l)
  | None => []
  end.

(** The routed prompt a response reports in its [debug] field. *)
Definition routed_prompt (resp : ChatResponse) : string :=
  match r_debug resp with
  | (_, Some p) :: _ => p
  | _ => ""
  end.

(** The entries a text turn on the message [t], answered by [resp],
    adds to [messages], in order. *)
Definition turn_messages (t : string) (resp : ChatResponse) : list Message :=
  [ {| role := "user"; content := strip t |};
    {| role := "user"; content := routed_prompt resp |};
    {| role := "assistant"; content := default "" (r_text resp) |} ].

(** Submit the messages [texts] one after the other to the session
    [sid]; the result is defined when every turn returns a response
    whose intent is text. *)
Fixpoint run_text_turns (B : Backend) (cfg : Config) (fuel : nat) (sid : string)
    (texts : list string) (w : World) : option (list ChatResponse * World) :=
  match texts with
  | [] => Some ([], w)
  | t :: rest =>
      match handle_message B cfg fuel (request (Some sid) t) w with
      | (Return resp, w1) =>
          if Intent_eqb (r_intent resp) Text
          then
            match run_text_turns B cfg fuel sid rest w1 with
            | Some (resps, w') => Some (resp :: resps, w')
            | None => None
            end
          else None
      | _ => None
      end
  end.

(** During the turn that led from [w0] to [w], the backend answered an
    image-generation request with a response whose id is [h]. *)
Definition image_answer_in_turn (B : Backend) (w0 w : World) (h : string) : Prop :=
  exists later model input prev mid resp,
    trace w = later ++ ResponsesCreate model input ["image_generation"] prev
                       :: mid ++ trace w0 /\
    create_reply B (ResponsesCreate model input ["image_generation"] prev
                    :: mid ++ trace w0) = inr resp /\
    resp_id resp = h.


(** ** Vocabulary of the further statements *)

(** [raises m P]: every exception a run of [m] ends with satisfies [P]. *)
Definition raises {A} (m : M A) (P : exn -> Prop) : Prop :=
  forall w e w', m w = (Raise e, w') -> P e.

(** [f] is what some call of a generator raises: a request to the text,
    image or video backend, a download, a sleep, a write or a decoding. *)
Definition raised_by (B : Backend) (f : failure) : Prop :=
  (exists tr, create_reply B tr = inl f) \/
  (exists tr, video_reply B tr = inl f) \/
  (exists tr, download_reply B tr = inl f) \/
  (exists tr, sleep_reply B tr = inl f) \/
  (exists tr, write_reply B tr = inl f) \/
  (exists payload, b64decode B payload = inl f).

(** What a generator may end with: what one of its calls raised, an
    exception of class [Exception], HTTP 500, or the timeout of the
    poller. *)
Definition generation_error (B : Backend) (e : exn) : Prop :=
  (exists f, e = exn_of f /\ raised_by B f) \/
  (exists msg, e = Exception msg) \/
  (exists d, e = HTTPException 500 d) \/
  (exists video_id, e = HTTPException 504 ("Video generation timed out: " +:+ video_id)).

(** What the [try] block of [handle_message] lets out: HTTP 500, the
    timeout of the poller, or an exception that is no [Exception] and
    that a call of the generator raised. *)
Definition turn_error (B : Backend) (e : exn) : Prop :=
  (exists d, e = HTTPException 500 d) \/
  (exists video_id, e = HTTPException 504 ("Video generation timed out: " +:+ video_id)) \/
  (exists name, e = BaseException name /\ raised_by B (Interrupt name)).


(** Every object of [w] is still there in [w'], and related to what it
    was by [rel]. *)
Definition objects_rel (rel : SessionState -> SessionState -> Prop) (w w' : World) : Prop :=
  forall l s, heap w !! l = Some s -> exists s', heap w' !! l = Some s' /\ rel s s'.

(** The messages of [s] are the first messages of [s']. *)
Definition messages_extended (s s' : SessionState) : Prop :=
  messages s `prefix_of` messages s'.

Definition same_last_intent (s s' : SessionState) : Prop :=
  last_intent s' = last_intent s.

(** No object but the one at [l] has changed. *)
Definition only_at (l : nat) (w w' : World) : Prop :=
  forall l', l' <> l -> heap w' !! l' = heap w !! l'.

(** No two session ids share an object. *)
Definition store_injective (w : World) : Prop :=
  forall a b l, SESSIONS w !! a = Some l -> SESSIONS w !! b = Some l -> a = b.

(** The role of a message is one of the two the server writes. *)
Definition role_ok (m : Message) : Prop :=
  role m = "user" \/ role m = "assistant".

Definition roles_ok (s : SessionState) : Prop := Forall role_ok (messages s).


(** The calls of the poller on the job [video_id]. *)
Definition poll_call (cfg : Config) (video_id : string) (c : Call) : Prop :=
  c = TimeTime \/ c = VideosRetrieve video_id \/ c = TimeSleep (VIDEO_POLL_SECONDS cfg).


(** An output item whose type marks an image-generation result. *)
Definition is_image_item (it : OutputItem) : bool :=
  is_str (item_type it) "image_generation_call".

(** The same item in the other representation. *)
Definition other_shape (it : OutputItem) : OutputItem :=
  match it with
  | ItemObject t r => ItemDict t r
  | ItemDict t r => ItemObject t r
  end.

(** The backend [B], with every output item of its responses in the
    other representation. *)
Definition reshaped (B : Backend) : Backend := {|
  parse_reply := parse_reply B;
  create_reply := fun tr =>
    match create_reply B tr with
    | inl e => inl e
    | inr resp =>
        inr {| resp_id := resp_id resp;
               output_text := output_text resp;
               output := map other_shape (output resp) |}
    end;
  video_reply := video_reply B;
  download_reply := download_reply B;
  clock := clock B;
  sleep_reply := sleep_reply B;
  uuid4_reply := uuid4_reply B;
  write_reply := write_reply B;
  b64decode := b64decode B
|}.


(** The requests for a generation: to the text or image backend, or
    for a video job. *)
Definition is_generation (c : Call) : bool := is_create c || is_submission c.

(** A call that is neither a routing nor a generation request. *)
Definition silent (c : Call) : Prop := is_parse c = false /\ is_generation c = false.

(** The image handle is as it was. *)
Definition same_image_handle (s s' : SessionState) : Prop :=
  last_image_response_id s' = last_image_response_id s.

(** The video job and its flag are as they were. *)
Definition same_video_job (s s' : SessionState) : Prop :=
  last_video_id s' = last_video_id s /\
  last_video_completed s' = last_video_completed s.


(** The clock stands at 0 for its first reading and at 1000 from the
    second on; the job stays queued. *)
Definition late_clock_backend : Backend := {|
  parse_reply := fun _ => inr (route_to Video "A sunset");
  create_reply := fun _ => inl (Failure "backend unavailable");
  video_reply := fun tr =>
    match tr with
    | VideosRetrieve v :: _ => inr {| job_id := v; status := Some "queued" |}
    | _ => inr {| job_id := "video_1"; status := Some "queued" |}
    end;
  download_reply := fun _ => inr [];
  clock := fun tr => if (2 <=? count_calls is_time tr)%nat then 1000%float else 0%float;
  sleep_reply := fun _ => inr tt;
  uuid4_reply := fun tr => N.of_nat (length tr);
  write_reply := fun _ => inr tt;
  b64decode := fun _ => inr []
|}.

(** A video job that stays queued, and a poller that is interrupted in
    its first sleep. *)
Definition interrupted_backend : Backend := {|
  parse_reply := fun _ => inr (route_to Video "A sunset");
  create_reply := fun _ => inl (Failure "backend unavailable");
  video_reply := fun tr =>
    match tr with
    | VideosRetrieve v :: _ => inr {| job_id := v; status := Some "queued" |}
    | _ => inr {| job_id := "video_1"; status := Some "queued" |}
    end;
  download_reply := fun _ => inr [];
  clock := fun _ => 0%float;
  sleep_reply := fun _ => inl (Interrupt "KeyboardInterrupt");
  uuid4_reply := fun tr => N.of_nat (length tr);
  write_reply := fun _ => inr tt;
  b64decode := fun _ => inr []
|}.

(** A video request during which the poller is interrupted. *)
Definition interrupted_run : outcome ChatResponse * World :=
  handle_message interrupted_backend default_config 5
    (request (Some "s1") "a clip of a sunset") (one_session new_SessionState).

(** A first request, without a session id, that is answered with text. *)
Definition text_run : outcome ChatResponse * World :=
  handle_message haiku_backend default_config 0 (request None "  a haiku, please ")
    empty_world.

(** An image request to a session whose last turn was a finished video. *)
Definition image_run : outcome ChatResponse * World :=
  handle_message image_backend default_config 0 (request (Some "s1") "draw a fox")
    (one_session (a_session (Some Video) None (Some "video_0") true)).

(** A video request whose job completes at the second look. *)
Definition video_run : outcome ChatResponse * World :=
  handle_message video_backend default_config 5 (request (Some "s1") "a clip of a sunset")
    (one_session new_SessionState).

(** An image request whose backend is down. *)
Definition image_down_run : outcome ChatResponse * World :=
  handle_message image_down_backend default_config 0 (request (Some "s1") "draw a fox")
    (one_session (a_session (Some Text) None None false)).

(** A request whose router is down. *)
Definition router_down_run : outcome ChatResponse * World :=
  handle_message failing default_config 0 (request (Some "s1") "hello")
    (one_session new_SessionState).


Definition text_response : ChatResponse :=
  {| r_session_id := "00000000-0000-0000-0000-000000000001";
     r_intent := Text; r_content_type := Text;
     r_text := Some "Soft rain on the roof";
     r_asset_url := None;
     r_debug := [("routed_prompt", Some "Write a haiku about rain.")] |}.

Definition text_session : SessionState :=
  {| messages := [ {| role := "user"; content := "a haiku, please" |};
                   {| role := "user"; content := "Write a haiku about rain." |};
                   {| role := "assistant"; content := "Soft rain on the roof" |} ];
     last_intent := Some Text;
     last_image_response_id := None;
     last_video_id := None;
     last_video_completed := false |}.

Definition image_response : ChatResponse :=
  {| r_session_id := "s1"; r_intent := Image; r_content_type := Image;
     r_text := None;
     r_asset_url := Some "/outputs/00000000000000000000000000000003.png";
     r_debug := [("routed_prompt", Some "A red fox"); ("style", None)] |}.

Definition video_response : ChatResponse :=
  {| r_session_id := "s1"; r_intent := Video; r_content_type := Video;
     r_text := None;
     r_asset_url := Some "/outputs/0000000000000000000000000000000a.mp4";
     r_debug := [("routed_prompt", Some "A sunset"); ("seconds", None);
                 ("size", None)] |}.


(** The world the video request leaves. *)
Definition video_world : World :=
  {| SESSIONS := {["s1" := 0%nat]};
     heap := [ {| messages :=
                    [ {| role := "user"; content := "a clip of a sunset" |};
                      {| role := "assistant";
                         content := "[video generated] /outputs/0000000000000000000000000000000a.mp4" |} ];
                  last_intent := Some Video;
                  last_image_response_id := None;
                  last_video_id := Some "video_1";
                  last_video_completed := true |} ];
     trace := [ WriteFile "server/outputs/0000000000000000000000000000000a.mp4" [];
                Uuid4; VideosDownloadContent "video_1";
                VideosRetrieve "video_1"; TimeTime;
                TimeSleep 2%float; VideosRetrieve "video_1"; TimeTime;
                TimeTime;
                VideosCreate "A sunset" "sora-2" "4" "720x1280";
                ResponsesParse "gpt-4o-mini"
                  [ {| role := "system"; content := system_prompt |};
                    {| role := "user";
                       content := "Recent conversation:" +:+ nl +:+ "(none)"
                                  +:+ nl +:+ nl +:+ "User message:" +:+ nl
                                  +:+ "a clip of a sunset" |} ] ] |}.







(** * Properties *)

#[local] Opaque system_prompt.

(** ** Strings *)

Lemma lstrip_all_space (s : string) : all_space s = true -> lstrip s = "".
Proof.
  induction s as [|c r IH]; simpl; [reflexivity|].
  intros [Hc Hr]%andb_true_iff. rewrite Hc. auto.
Qed.


Lemma lstrip_head (s : string) :
  lstrip s = "" \/ exists c r, lstrip s = String c r /\ isspace c = false.
Proof.
  induction s as [|c r IH]; simpl; [now left|].
  destruct (isspace c) eqn:Ec; [exact IH|].
  right. eauto.
Qed.

Lemma lstrip_empty_all_space (s : string) : lstrip s = "" -> all_space s = true.
Proof.
  induction s as [|c r IH]; simpl; [reflexivity|].
  destruct (isspace c); [auto | discriminate].
Qed.

(** [s.strip()] is empty exactly when [s] is empty or made of whitespace. *)
Lemma strip_empty_iff (s : string) : nonempty (strip s) = false <-> all_space s = true.
Proof.
  unfold strip. split.
  - intros H. destruct (lstrip_head s) as [E | (c & r & E & Hc)].
    + now apply lstrip_empty_all_space.
    + rewrite E in H. simpl in H. rewrite Hc in H.
      destruct (rstrip r); discriminate.
  - intros H. now rewrite (lstrip_all_space s H).
Qed.

Lemma truthy_Some (o : option string) :
  truthy o = true -> o = Some (or_else o "") /\ nonempty (or_else o "") = true.
Proof.
  destruct o as [s|]; simpl; [|discriminate].
  intros H. rewrite H. auto.
Qed.

Lemma uuid_str_nonempty (u : N) : nonempty (uuid_str u) = true.
Proof.
  unfold uuid_str, uuid_hex.
  change (hex_of 32 u) with
    (String (hex_digit (N.land (N.shiftr u (4 * N.of_nat 31)) 15)) (hex_of 31 u)).
  reflexivity.
Qed.

Lemma is_intent_true (o : option Intent) (i : Intent) :
  is_intent o i = true <-> o = Some i.
Proof.
  destruct o as [x|]; simpl; [|split; discriminate].
  destruct x, i; simpl; split; congruence.
Qed.

Lemma is_str_true (o : option string) (s : string) :
  is_str o s = true <-> o = Some s.
Proof.
  destruct o as [x|]; simpl; [|split; discriminate].
  rewrite String.eqb_eq. split; congruence.
Qed.

(** ** What a computation leaves behind *)

Section Post.

Context (R : World -> World -> Prop).
Hypothesis R_refl : forall w, R w w.
Hypothesis R_trans : forall w1 w2 w3, R w1 w2 -> R w2 w3 -> R w1 w3.

Lemma post_ret {A} (a : A) : post (ret a) R.
Proof. intros w out w' [= <- <-]. apply R_refl. Qed.

Lemma post_raise {A} (e : exn) : post (@raise A e) R.
Proof. intros w out w' [= <- <-]. apply R_refl. Qed.

Lemma post_read (l : nat) : post (read l) R.
Proof. intros w out w' [= <- <-]. apply R_refl. Qed.

Lemma post_sessions_get (sid : string) : post (sessions_get sid) R.
Proof. intros w out w' [= <- <-]. apply R_refl. Qed.

Lemma post_of_reply {A} (r : reply A) : post (of_reply r) R.
Proof. destruct r; [apply post_raise | apply post_ret]. Qed.

Lemma post_bind {A C} (m : M A) (k : A -> M C) :
  post m R -> (forall a, post (k a) R) -> post (bind m k) R.
Proof.
  intros Hm Hk w out w' H. unfold bind in H.
  destruct (m w) as [[a|e|] w1] eqn:E.
  - eapply R_trans; [eapply Hm, E | eapply Hk, H].
  - injection H as <- <-. eapply Hm, E.
  - injection H as <- <-. eapply Hm, E.
Qed.

Lemma post_try_except {A} (m : M A) : post m R -> post (try_except m) R.
Proof.
  intros Hm w out w' H. unfold try_except in H.
  destruct (m w) as [[a|[c d|msg|nm]|] w1] eqn:E;
    injection H as <- <-; eapply Hm, E.
Qed.

Lemma post_if {A} (b : bool) (m1 m2 : M A) :
  post m1 R -> post m2 R -> post (if b then m1 else m2) R.
Proof. now destruct b. Qed.

Variable allowed : Call -> Prop.
Hypothesis R_call : forall c w, allowed c -> R w (record_call c w).

Lemma post_perform {A} (c : Call) (answer : list Call -> reply A) :
  allowed c -> post (perform c answer) R.
Proof.
  intros Hc w out w' H. unfold perform in H.
  destruct (answer _); injection H as <- <-; now apply R_call.
Qed.

Lemma post_observe {A} (c : Call) (answer : list Call -> A) :
  allowed c -> post (observe c answer) R.
Proof. intros Hc w out w' [= <- <-]. now apply R_call. Qed.

(** Polling, downloading and saving only issue calls. *)
Lemma post_poll_loop B cfg fuel deadline video_id :
  allowed TimeTime -> allowed (VideosRetrieve video_id) ->
  (forall d, allowed (TimeSleep d)) ->
  post (poll_loop B cfg fuel deadline video_id) R.
Proof.
  intros Ht Hr Hs. induction fuel as [|fuel IH]; simpl.
  - intros w out w' [= <- <-]. apply R_refl.
  - apply post_bind; [now apply post_observe|]. intros now.
    apply post_if; [|apply post_raise].
    apply post_bind; [now apply post_perform|]. intros job.
    apply post_if; [apply post_ret|].
    apply post_if; [apply post_raise|].
    apply post_bind; [now apply post_perform|]. intros _. exact IH.
Qed.

Lemma post_poll_video_until_done B cfg fuel video_id :
  allowed TimeTime -> allowed (VideosRetrieve video_id) ->
  (forall d, allowed (TimeSleep d)) ->
  post (poll_video_until_done B cfg fuel video_id) R.
Proof.
  intros Ht Hr Hs.
  apply post_bind; [now apply post_observe|]. intros t0. now apply post_poll_loop.
Qed.

Lemma post_save_bytes B cfg ext data :
  allowed Uuid4 -> (forall p, allowed (WriteFile p data)) ->
  post (save_bytes B cfg ext data) R.
Proof.
  intros Hu Hw.
  apply post_bind; [now apply post_observe|]. intros u.
  apply post_bind; [now apply post_perform|]. intros _. apply post_ret.
Qed.

Lemma post_download_video_mp4 B cfg video_id :
  allowed Uuid4 -> (forall p d, allowed (WriteFile p d)) ->
  allowed (VideosDownloadContent video_id) ->
  post (download_video_mp4 B cfg video_id) R.
Proof.
  intros Hu Hw Hd.
  apply post_bind; [now apply post_perform|]. intros data.
  apply post_save_bytes; auto.
Qed.

Lemma post_route_intent B cfg user_text session :
  (forall m i, allowed (ResponsesParse m i)) ->
  post (route_intent B cfg user_text session) R.
Proof.
  intros Hp.
  apply post_bind; [apply post_read|]. intros s. now apply post_perform.
Qed.

End Post.

(** ** Session resolution *)

Section Sessions.

Variable B : Backend.
Variable cfg : Config.

Lemma get_or_create_session_found (session_id : option string) (l : nat) (w : World) :
  known_session session_id w = Some l ->
  get_or_create_session B session_id w = (Return (or_else session_id "", l), w).
Proof.
  unfold known_session, get_or_create_session, bind, sessions_get, ret.
  destruct (truthy session_id); [|discriminate].
  intros ->. reflexivity.
Qed.

Lemma get_or_create_session_created (session_id : option string) (w : World) :
  known_session session_id w = None ->
  get_or_create_session B session_id w =
    (Return (chosen_id B session_id w, length (heap w)),
     {| SESSIONS := <[chosen_id B session_id w := length (heap w)]> (SESSIONS w);
        heap := heap w ++ [new_SessionState];
        trace := if truthy session_id then trace w else Uuid4 :: trace w |}).
Proof.
  unfold known_session, chosen_id, get_or_create_session, bind, sessions_get, ret.
  destruct (truthy session_id).
  - intros ->. reflexivity.
  - intros _. reflexivity.
Qed.

Lemma chosen_id_nonempty (session_id : option string) (w : World) :
  nonempty (chosen_id B session_id w) = true.
Proof.
  unfold chosen_id. destruct (truthy session_id) eqn:E.
  - now apply truthy_Some.
  - apply uuid_str_nonempty.
Qed.

End Sessions.

Section SessionClaims.

Variable B : Backend.
Variable cfg : Config.

(** C4 (as the code has it). Resolving a session id that is absent,
    empty or not in the store creates one empty [SessionState], stores
    it under an id and returns the pair.  The id is newly generated
    ([str(uuid.uuid4())]) only when the caller gave none; an unknown id
    the caller did give is used as it is.  Resolving the returned id
    later, in any world that still binds it, returns the same object. *)
Theorem get_or_create_session_creates (session_id : option string) (w : World) :
  known_session session_id w = None ->
  exists sid l w',
    get_or_create_session B session_id w = (Return (sid, l), w') /\
    sid = match session_id with
          | Some given => if nonempty given then given
                          else uuid_str (uuid4_reply B (Uuid4 :: trace w))
          | None => uuid_str (uuid4_reply B (Uuid4 :: trace w))
          end /\
    SESSIONS w' = <[sid := l]> (SESSIONS w) /\
    heap w' = heap w ++ [new_SessionState] /\
    heap w' !! l = Some new_SessionState /\
    get_or_create_session B (Some sid) w' = (Return (sid, l), w') /\
    forall w'', SESSIONS w'' !! sid = Some l ->
                get_or_create_session B (Some sid) w'' = (Return (sid, l), w'').
Proof.
  intros Hk.
  exists (chosen_id B session_id w), (length (heap w)). eexists.
  split; [apply get_or_create_session_created, Hk|].
  pose proof (chosen_id_nonempty B session_id w) as Hne.
  assert (Hlater : forall w'' : World,
             SESSIONS w'' !! chosen_id B session_id w = Some (length (heap w)) ->
             get_or_create_session B (Some (chosen_id B session_id w)) w''
             = (Return (chosen_id B session_id w, length (heap w)), w'')).
  { intros w'' Hb.
    rewrite (get_or_create_session_found B (Some (chosen_id B session_id w))
               (length (heap w)) w'').
    - simpl. now rewrite Hne.
    - unfold known_session. simpl. now rewrite Hne. }
  repeat split; simpl.
  - unfold chosen_id. destruct session_id as [given|]; simpl; [|reflexivity].
    now destruct (nonempty given).
  - rewrite lookup_app_r by lia. now rewrite Nat.sub_diag.
  - apply Hlater. simpl. apply lookup_insert_eq.
  - exact Hlater.
Qed.

(** C1 (as the code has it). A request whose text is empty or made of
    whitespace is answered with HTTP 400 after the session was
    resolved: no object that existed is changed and no backend is
    called; the store is as before when the id was known, and otherwise
    holds one more empty [SessionState]. *)
Theorem handle_message_empty_text (fuel : nat) (req : ChatRequest) (w : World) :
  all_space (text req) = true ->
  exists w',
    handle_message B cfg fuel req w = (Raise (HTTPException 400 "Empty message."), w') /\
    (forall l s, heap w !! l = Some s -> heap w' !! l = Some s) /\
    (trace w' = trace w \/ trace w' = Uuid4 :: trace w) /\
    match known_session (session_id req) w with
    | Some _ => w' = w
    | None =>
        SESSIONS w' = <[chosen_id B (session_id req) w := length (heap w)]> (SESSIONS w) /\
        heap w' = heap w ++ [new_SessionState]
    end.
Proof.
  intros Hsp. apply strip_empty_iff in Hsp.
  unfold handle_message, bind.
  destruct (known_session (session_id req) w) as [l|] eqn:Hk.
  - rewrite (get_or_create_session_found B _ l w Hk). simpl. rewrite Hsp. simpl.
    exists w. repeat split; auto.
  - rewrite (get_or_create_session_created B _ w Hk). simpl. rewrite Hsp. simpl.
    eexists. split; [reflexivity|]. simpl. repeat split.
    + intros l s Hl. apply lookup_app_l_Some, Hl.
    + destruct (truthy (session_id req)); auto.
Qed.

End SessionClaims.

(** C4: an id the caller gives is kept when it is not in the store: the
    new session is filed under it and [uuid4] is never called. *)
Lemma get_or_create_session_keeps_given_id :
  get_or_create_session haiku_backend (Some "abc") empty_world
  = (Return ("abc", 0%nat),
     {| SESSIONS := <["abc" := 0%nat]> ∅; heap := [new_SessionState]; trace := [] |}).
Proof. reflexivity. Qed.

Lemma get_or_create_session_creates_witness :
  exists sid l w',
    get_or_create_session haiku_backend None empty_world = (Return (sid, l), w') /\
    sid = uuid_str (uuid4_reply haiku_backend (Uuid4 :: trace empty_world)) /\
    SESSIONS w' = <[sid := l]> (SESSIONS empty_world) /\
    heap w' = heap empty_world ++ [new_SessionState] /\
    heap w' !! l = Some new_SessionState /\
    get_or_create_session haiku_backend (Some sid) w' = (Return (sid, l), w') /\
    forall w'', SESSIONS w'' !! sid = Some l ->
                get_or_create_session haiku_backend (Some sid) w'' = (Return (sid, l), w'').
Proof.
  apply (get_or_create_session_creates haiku_backend None empty_world).
  reflexivity.
Defined.

(** C1: an empty message from a caller without a session id leaves a
    new entry in the store. *)
Lemma handle_message_empty_text_adds_session :
  fst (handle_message haiku_backend default_config 0 (request None "   ") empty_world)
  = Raise (HTTPException 400 "Empty message.") /\
  SESSIONS empty_world !! "00000000-0000-0000-0000-000000000001" = None /\
  SESSIONS (snd (handle_message haiku_backend default_config 0 (request None "   ")
                   empty_world))
    !! "00000000-0000-0000-0000-000000000001" = Some 0%nat /\
  heap (snd (handle_message haiku_backend default_config 0 (request None "   ")
               empty_world)) = [new_SessionState].
Proof. vm_compute. repeat split. Qed.

Lemma handle_message_empty_text_witness :
  exists w',
    handle_message haiku_backend default_config 0 (request (Some "s1") "  ")
      (one_session new_SessionState)
    = (Raise (HTTPException 400 "Empty message."), w') /\
    (forall l s, heap (one_session new_SessionState) !! l = Some s -> heap w' !! l = Some s) /\
    (trace w' = trace (one_session new_SessionState)
     \/ trace w' = Uuid4 :: trace (one_session new_SessionState)) /\
    w' = one_session new_SessionState.
Proof.
  apply (handle_message_empty_text haiku_backend default_config 0
           (request (Some "s1") "  ") (one_session new_SessionState)).
  reflexivity.
Defined.

(** ** Routing *)

Lemma slice_from_last_six_short {A} (l : list A) :
  (length l <= 6)%nat -> slice_from (-6) l = l.
Proof.
  intros H. unfold slice_from. simpl.
  replace (Z.to_nat (Z.max 0 (Z.of_nat (length l) + -6))) with 0%nat by lia.
  reflexivity.
Qed.

Lemma slice_from_last_six_app {A} (older recent : list A) :
  length recent = 6%nat -> slice_from (-6) (older ++ recent) = recent.
Proof.
  intros H. unfold slice_from. simpl. rewrite length_app, H.
  replace (Z.to_nat (Z.max 0 (Z.of_nat (length older + 6) + -6)))
    with (length older) by lia.
  apply drop_app_length.
Qed.

Lemma convo_nonempty (msgs : list Message) :
  slice_from (-6) msgs <> [] ->
  convo msgs = join nl (map render_message (slice_from (-6) msgs)).
Proof. unfold convo. destruct (slice_from (-6) msgs); [congruence | reflexivity]. Qed.

(** [join] is the library's [concat], and a line is [role: content]. *)
Lemma join_concat (sep : string) (l : list Message) :
  join sep (map render_message l)
  = String.concat sep (map (fun m => role m +:+ ": " +:+ content m) l).
Proof.
  induction l as [|m l IH]; [reflexivity|].
  destruct l as [|m' l]; [reflexivity|].
  cbn [map join String.concat] in *. now rewrite IH.
Qed.

Lemma append_assoc (a b c : string) : (a +:+ b) +:+ c = a +:+ (b +:+ c).
Proof.
  induction a as [|x a IH]; [reflexivity|].
  change (String x ((a +:+ b) +:+ c) = String x (a +:+ (b +:+ c))).
  f_equal. exact IH.
Qed.

Lemma append_cons_one (a : string) (c : ascii) (b : string) :
  a +:+ String c "" +:+ b = a +:+ String c b.
Proof. reflexivity. Qed.

Section Routing.

Variable B : Backend.
Variable cfg : Config.

(** C9. A routing call issues one classification request whose user
    message embeds a context built from the session's messages: the
    placeholder [(none)] when there are none; otherwise one line
    [role: content] for each of them when there are at most six, and
    for each of the last six (and nothing older) when there are more,
    in their order, with a line feed between two lines. *)
Theorem route_intent_context (user_text : string) (session : nat) (w : World) :
  exists context,
    snd (route_intent B cfg user_text session w)
    = record_call
        (ResponsesParse (ROUTER_MODEL cfg)
           [ {| role := "system"; content := system_prompt |};
             {| role := "user";
                content := "Recent conversation:" +:+ nl +:+ context
                           +:+ nl +:+ nl +:+ "User message:" +:+ nl +:+ user_text |} ])
        w /\
    (messages (heap w !!! session) = [] -> context = "(none)") /\
    (messages (heap w !!! session) <> [] ->
     (length (messages (heap w !!! session)) <= 6)%nat ->
     context = String.concat (String "010"%char "")
                 (map (fun m => role m +:+ ": " +:+ content m)
                    (messages (heap w !!! session)))) /\
    (forall older recent,
        messages (heap w !!! session) = older ++ recent ->
        length recent = 6%nat ->
        context = String.concat (String "010"%char "")
                    (map (fun m => role m +:+ ": " +:+ content m) recent)) /\
    (forall older m1 m2 m3 m4 m5 m6,
        messages (heap w !!! session) = older ++ [m1; m2; m3; m4; m5; m6] ->
        context
        = String.append (role m1) (String.append ": " (String.append (content m1)
           (String "010"%char
           (String.append (role m2) (String.append ": " (String.append (content m2)
           (String "010"%char
           (String.append (role m3) (String.append ": " (String.append (content m3)
           (String "010"%char
           (String.append (role m4) (String.append ": " (String.append (content m4)
           (String "010"%char
           (String.append (role m5) (String.append ": " (String.append (content m5)
           (String "010"%char
           (String.append (role m6) (String.append ": " (content m6))))))))))))))))))))))).
Proof.
  exists (convo (messages (heap w !!! session))).
  split; [|split; [|split; [|split]]].
  - unfold route_intent, bind, read, perform. simpl.
    now destruct (parse_reply B _).
  - intros ->. reflexivity.
  - intros Hne Hlen. rewrite convo_nonempty;
      rewrite slice_from_last_six_short by exact Hlen; [apply join_concat | exact Hne].
  - intros older recent -> Hlen. rewrite convo_nonempty;
      rewrite slice_from_last_six_app by exact Hlen.
    + apply join_concat.
    + intros ->. discriminate.
  - intros older m1 m2 m3 m4 m5 m6 ->. rewrite convo_nonempty;
      rewrite slice_from_last_six_app by reflexivity; [|discriminate].
    cbn [map join]. unfold nl, render_message.
    rewrite !append_cons_one, !append_assoc. reflexivity.
Qed.

End Routing.

(** Seven messages in the session: the oldest is left out of the context. *)
Example convo_seven :
  convo (map (fun c => {| role := "user"; content := c |})
           ["m1"; "m2"; "m3"; "m4"; "m5"; "m6"; "m7"])
  = "user: m2" +:+ nl +:+ "user: m3" +:+ nl +:+ "user: m4" +:+ nl +:+ "user: m5"
    +:+ nl +:+ "user: m6" +:+ nl +:+ "user: m7".
Proof. reflexivity. Qed.

(** ** Traces *)

Lemma extends_by_refl (ok : Call -> Prop) (w : World) : extends_by ok w w.
Proof. exists []. split; [reflexivity | constructor]. Qed.

Lemma extends_by_trans (ok : Call -> Prop) (w1 w2 w3 : World) :
  extends_by ok w1 w2 -> extends_by ok w2 w3 -> extends_by ok w1 w3.
Proof.
  intros (l1 & E1 & F1) (l2 & E2 & F2). exists (l2 ++ l1). split.
  - rewrite E2, E1. apply app_assoc.
  - apply Forall_app. auto.
Qed.

Lemma extends_by_call (ok : Call -> Prop) (c : Call) (w : World) :
  ok c -> extends_by ok w (record_call c w).
Proof. intros H. exists [c]. split; [reflexivity | repeat constructor; exact H]. Qed.

Lemma post_modify_extends (ok : Call -> Prop) l f : post (modify l f) (extends_by ok).
Proof. intros w out w' [= <- <-]. exists []. split; [reflexivity | constructor]. Qed.

(** ** Video turns *)

Section VideoRequests.

Variable B : Backend.
Variable cfg : Config.

Lemma remix_ready_true (s : SessionState) :
  remix_ready s = true <->
  last_intent s = Some Video /\ truthy (last_video_id s) = true
  /\ last_video_completed s = true.
Proof.
  unfold remix_ready. rewrite !andb_true_iff, is_intent_true. tauto.
Qed.

(** What [submit_video] does, by the answer of the backend. *)
Lemma submit_video_run (session : nat) (prompt : string) (seconds size : option string)
    (w : World) :
  let s := heap w !!! session in
  let request :=
    if remix_ready s then VideosRemix (or_else (last_video_id s) "") prompt
    else VideosCreate prompt (VIDEO_MODEL cfg) (or_else seconds (VIDEO_SECONDS cfg))
           (or_else size (VIDEO_SIZE cfg)) in
  submit_video B cfg session prompt seconds size w =
    match video_reply B (request :: trace w) with
    | inl f => (Raise (exn_of f), record_call request w)
    | inr job =>
        (Return job,
         {| SESSIONS := SESSIONS w;
            heap := alter (set_last_video_completed false) session
                      (alter (set_last_video_id (job_id job)) session (heap w));
            trace := request :: trace w |})
    end.
Proof.
  unfold submit_video, bind, read, perform, modify, ret. simpl.
  destruct (remix_ready (heap w !!! session)); simpl;
    destruct (video_reply B _); reflexivity.
Qed.

Lemma submit_video_trace (session : nat) (prompt : string)
    (seconds size : option string) (w : World) :
  trace (snd (submit_video B cfg session prompt seconds size w))
  = (if remix_ready (heap w !!! session)
     then VideosRemix (or_else (last_video_id (heap w !!! session)) "") prompt
     else VideosCreate prompt (VIDEO_MODEL cfg) (or_else seconds (VIDEO_SECONDS cfg))
            (or_else size (VIDEO_SIZE cfg)))
    :: trace w.
Proof.
  rewrite submit_video_run. cbv zeta. now destruct (video_reply B _).
Qed.

(** After the job is opened, the turn opens no other. *)
Lemma generate_video_after_submit (fuel session : nat) (job : VideoJob) :
  post (poll_video_until_done B cfg fuel (job_id job) ;;
        modify session (set_last_video_completed true) ;;
        download_video_mp4 B cfg (job_id job))
       (extends_by quiet).
Proof.
  pose proof (extends_by_refl quiet) as Hr.
  pose proof (extends_by_trans quiet) as Ht.
  pose proof (extends_by_call quiet) as Hc.
  apply post_bind; auto.
  { eapply post_poll_video_until_done; eauto; reflexivity. }
  intros _. apply post_bind; auto.
  { apply post_modify_extends. }
  intros _. eapply post_download_video_mp4; eauto; reflexivity.
Qed.

Lemma generate_video_trace (fuel session : nat) (prompt : string)
    (seconds size : option string) (w : World) :
  exists later,
    trace (snd (generate_video B cfg fuel session prompt seconds size w))
    = later ++ trace (snd (submit_video B cfg session prompt seconds size w))
    /\ Forall quiet later.
Proof.
  unfold generate_video. unfold bind at 1.
  destruct (submit_video B cfg session prompt seconds size w) as [[job|e|] w1] eqn:E;
    simpl; try (exists []; split; [reflexivity | constructor]).
  destruct ((poll_video_until_done B cfg fuel (job_id job) ;;
             modify session (set_last_video_completed true) ;;
             download_video_mp4 B cfg (job_id job)) w1) as [out w'] eqn:E'.
  apply (generate_video_after_submit fuel session job) in E'. exact E'.
Qed.

(** C5. A video turn opens exactly one job.  The request is a remix of
    the recorded job when the session's last intent is video, a job id
    is recorded and the completed flag is set; in every other case it
    is a creation with prompt, model, seconds and size. *)
Theorem generate_video_request (fuel session : nat) (prompt : string)
    (seconds size : option string) (w : World) :
  exists request later,
    trace (snd (generate_video B cfg fuel session prompt seconds size w))
    = later ++ request :: trace w /\
    Forall (fun c => is_submission c = false) later /\
    ((exists id,
         last_intent (heap w !!! session) = Some Video /\
         last_video_id (heap w !!! session) = Some id /\
         nonempty id = true /\
         last_video_completed (heap w !!! session) = true /\
         request = VideosRemix id prompt)
     \/
     (~ (last_intent (heap w !!! session) = Some Video /\
         truthy (last_video_id (heap w !!! session)) = true /\
         last_video_completed (heap w !!! session) = true) /\
      request = VideosCreate prompt (VIDEO_MODEL cfg)
                  (or_else seconds (VIDEO_SECONDS cfg))
                  (or_else size (VIDEO_SIZE cfg)))).
Proof.
  destruct (generate_video_trace fuel session prompt seconds size w) as (later & E & F).
  rewrite submit_video_trace in E.
  eexists _, later. split; [exact E|]. split; [exact F|].
  destruct (remix_ready (heap w !!! session)) eqn:R.
  - left. apply remix_ready_true in R as (Hi & Hv & Hc).
    apply truthy_Some in Hv as [Hv Hne].
    exists (or_else (last_video_id (heap w !!! session)) ""). auto.
  - right. split; [|reflexivity].
    intros H. apply remix_ready_true in H. congruence.
Qed.

End VideoRequests.

Lemma generate_video_unfold B cfg (fuel session : nat) (prompt : string)
    (seconds size : option string) (w : World) :
  generate_video B cfg fuel session prompt seconds size w
  = match submit_video B cfg session prompt seconds size w with
    | (Return job, w1) =>
        (poll_video_until_done B cfg fuel (job_id job) ;;
         modify session (set_last_video_completed true) ;;
         download_video_mp4 B cfg (job_id job)) w1
    | (Raise e, w1) => (Raise e, w1)
    | (OutOfFuel, w1) => (OutOfFuel, w1)
    end.
Proof. reflexivity. Qed.

(** C10. When the turn is a remix, the request carries the recorded job
    id and the new prompt and nothing else: the hints, the default
    seconds and size and the model play no part in the turn. *)
Theorem generate_video_remix_ignores_hints B cfg (fuel session : nat) (prompt : string)
    (seconds size : option string) (w : World) :
  remix_ready (heap w !!! session) = true ->
  (exists id later,
      last_video_id (heap w !!! session) = Some id /\
      trace (snd (generate_video B cfg fuel session prompt seconds size w))
      = later ++ VideosRemix id prompt :: trace w /\
      Forall (fun c => is_submission c = false) later) /\
  forall (seconds' size' : option string) (model secs sz : string),
    generate_video B (with_video_defaults cfg model secs sz) fuel session prompt
      seconds' size' w
    = generate_video B cfg fuel session prompt seconds size w.
Proof.
  intros R. split.
  - destruct (generate_video_trace B cfg fuel session prompt seconds size w)
      as (later & E & F).
    rewrite submit_video_trace, R in E.
    apply remix_ready_true in R as (_ & Hv & _). apply truthy_Some in Hv as [Hv _].
    exists (or_else (last_video_id (heap w !!! session)) ""), later. auto.
  - intros seconds' size' model secs sz.
    rewrite !generate_video_unfold, !submit_video_run. cbv zeta. rewrite R.
    reflexivity.
Qed.


(** ** The poller *)

Section Poller.

Variable B : Backend.
Variable cfg : Config.

(** One round of the loop, by what the clock and the backend answer. *)
Lemma poll_loop_step (fuel : nat) (deadline : float) (video_id : string) (w : World) :
  poll_loop B cfg (S fuel) deadline video_id w =
    let w1 := record_call TimeTime w in
    if PrimFloat.ltb (clock B (trace w1)) deadline
    then
      let w2 := record_call (VideosRetrieve video_id) w1 in
      match video_reply B (trace w2) with
      | inl f => (Raise (exn_of f), w2)
      | inr job =>
          if is_str (status job) "completed" then (Return job, w2)
          else if is_str (status job) "failed"
          then (Raise (HTTPException 500 ("Video job failed: " +:+ video_id)), w2)
          else
            let w3 := record_call (TimeSleep (VIDEO_POLL_SECONDS cfg)) w2 in
            match sleep_reply B (trace w3) with
            | inl f => (Raise (exn_of f), w3)
            | inr _ => poll_loop B cfg fuel deadline video_id w3
            end
      end
    else (Raise (HTTPException 504 ("Video generation timed out: " +:+ video_id)), w1).
Proof.
  cbn [poll_loop]. unfold bind, observe, perform, ret, raise. cbv zeta.
  destruct (PrimFloat.ltb _ deadline); [|reflexivity].
  destruct (video_reply B _) as [msg|job]; [reflexivity|].
  destruct (is_str (status job) "completed"); [reflexivity|].
  destruct (is_str (status job) "failed"); [reflexivity|].
  destruct (sleep_reply B _); reflexivity.
Qed.

Lemma poll_loop_pending (deadline : float) (video_id : string) (n : nat) (w w' : World) :
  pending_rounds B cfg deadline video_id n w w' ->
  forall k, poll_loop B cfg (n + k) deadline video_id w
            = poll_loop B cfg k deadline video_id w'.
Proof.
  induction 1 as [w | n w w' job Hclock Hjob Hc Hf Hs Hrest IH]; intros k.
  - reflexivity.
  - change (S n + k)%nat with (S (n + k)). rewrite poll_loop_step. cbv zeta.
    unfold record_call. cbn [trace].
    rewrite Hclock, Hjob, Hc, Hf, Hs. apply IH.
Qed.

(** A job the poller returns was seen completed. *)
Lemma poll_loop_returns_completed (fuel : nat) (deadline : float) (video_id : string)
    (w w' : World) (job : VideoJob) :
  poll_loop B cfg fuel deadline video_id w = (Return job, w') ->
  status job = Some "completed" /\
  exists w0, w' = record_call (VideosRetrieve video_id) w0 /\
             video_reply B (trace w') = inr job.
Proof.
  revert w. induction fuel as [|fuel IH]; intros w; [intros H; discriminate H|].
  rewrite poll_loop_step. cbv zeta.
  destruct (PrimFloat.ltb _ deadline); [|intros H; discriminate H].
  destruct (video_reply B
              (trace (record_call (VideosRetrieve video_id) (record_call TimeTime w))))
    as [msg|j] eqn:Ej; [intros H; discriminate H|].
  destruct (is_str (status j) "completed") eqn:Ec.
  - intros [= -> <-]. split; [now apply is_str_true|]. eauto.
  - destruct (is_str (status j) "failed"); [intros H; discriminate H|].
    destruct (sleep_reply B _); [intros H; discriminate H|]. apply IH.
Qed.

(** C7. A run of the poller that has gone [n] rounds on a pending job
    ends at the next round, whatever fuel above [n] the model is
    given: with the job when it is seen completed; with HTTP 500 and a
    message naming the job id when it is seen failed; with HTTP 504
    when the clock has reached the deadline.  The two errors differ. *)
Theorem poll_video_until_done_outcomes (video_id : string) (n fuel : nat)
    (w w1 : World) :
  pending_rounds B cfg
    (PrimFloat.add (clock B (TimeTime :: trace w)) (VIDEO_TIMEOUT_SECONDS cfg))
    video_id n (record_call TimeTime w) w1 ->
  (n < fuel)%nat ->
  (forall job,
      PrimFloat.ltb (clock B (TimeTime :: trace w1))
        (PrimFloat.add (clock B (TimeTime :: trace w)) (VIDEO_TIMEOUT_SECONDS cfg)) = true ->
      video_reply B (VideosRetrieve video_id :: TimeTime :: trace w1) = inr job ->
      (status job = Some "completed" ->
       poll_video_until_done B cfg fuel video_id w
       = (Return job, record_call (VideosRetrieve video_id) (record_call TimeTime w1)))
      /\
      (status job = Some "failed" ->
       poll_video_until_done B cfg fuel video_id w
       = (Raise (HTTPException 500 ("Video job failed: " +:+ video_id)),
          record_call (VideosRetrieve video_id) (record_call TimeTime w1))))
  /\
  (PrimFloat.ltb (clock B (TimeTime :: trace w1))
     (PrimFloat.add (clock B (TimeTime :: trace w)) (VIDEO_TIMEOUT_SECONDS cfg)) = false ->
   poll_video_until_done B cfg fuel video_id w
   = (Raise (HTTPException 504 ("Video generation timed out: " +:+ video_id)),
      record_call TimeTime w1))
  /\
  HTTPException 504 ("Video generation timed out: " +:+ video_id)
  <> HTTPException 500 ("Video job failed: " +:+ video_id).
Proof.
  intros Hp Hlt.
  assert (Hrun : poll_video_until_done B cfg fuel video_id w
                 = poll_loop B cfg (S (fuel - n - 1))
                     (PrimFloat.add (clock B (TimeTime :: trace w))
                        (VIDEO_TIMEOUT_SECONDS cfg)) video_id w1).
  { unfold poll_video_until_done, bind, observe.
    change (trace (record_call TimeTime w)) with (TimeTime :: trace w).
    replace fuel with (n + S (fuel - n - 1))%nat at 1 by lia.
    apply poll_loop_pending, Hp. }
  rewrite Hrun, poll_loop_step. cbv zeta.
  change (trace (record_call TimeTime w1)) with (TimeTime :: trace w1).
  change (trace (record_call (VideosRetrieve video_id) (record_call TimeTime w1)))
    with (VideosRetrieve video_id :: TimeTime :: trace w1).
  split; [|split].
  - intros job Hc Hj. rewrite Hc, Hj. split; intros Hs; rewrite Hs; reflexivity.
  - intros Hc. now rewrite Hc.
  - discriminate.
Qed.

End Poller.

(** ** Invariants of the objects in the heap *)

(** Solve [post m R] along the structure of [m], given that [R] is
    reflexive ([Hr]), transitive ([Ht]) and holds across any call ([Hc]). *)
Ltac post_auto Hr Ht Hc :=
  repeat first
    [ match goal with H : context [post] |- post _ _ => apply H end
    | apply (post_ret _ Hr)
    | apply (post_raise _ Hr)
    | apply (post_read _ Hr)
    | apply (post_sessions_get _ Hr)
    | apply (post_of_reply _ Hr)
    | apply (post_perform _ (fun _ => True) (fun c w _ => Hc c w)); exact Logic.I
    | apply (post_observe _ (fun _ => True) (fun c w _ => Hc c w)); exact Logic.I
    | apply (post_poll_video_until_done _ Hr Ht (fun _ => True) (fun c w _ => Hc c w));
      [exact Logic.I | exact Logic.I | intros; exact Logic.I]
    | apply (post_if _)
    | apply (post_try_except _)
    | apply (post_bind _ Ht)
    | match goal with |- forall _, _ => intro end ].

Section Keeps.

Variable B : Backend.
Variable cfg : Config.
Variable I : list Call -> SessionState -> Prop.

Hypothesis I_mono : forall c tr s, I tr s -> I (c :: tr) s.
Hypothesis I_new : forall tr, I tr new_SessionState.
Hypothesis I_append : forall m tr s, I tr s -> I tr (append_message m s).
Hypothesis I_intent : forall i tr s, I tr s -> I tr (set_last_intent i s).

Lemma keeps_refl (w : World) : keeps I w w.
Proof. intros H. exact H. Qed.

Lemma keeps_trans (w1 w2 w3 : World) : keeps I w1 w2 -> keeps I w2 w3 -> keeps I w1 w3.
Proof. unfold keeps. auto. Qed.

Lemma keeps_call (c : Call) (w : World) : keeps I w (record_call c w).
Proof.
  unfold keeps, all_sessions. simpl. intros H.
  eapply Forall_impl; [exact H|]. intros s. apply I_mono.
Qed.

Lemma post_modify_keeps (l : nat) (f : SessionState -> SessionState) :
  (forall tr s, I tr s -> I tr (f s)) -> post (modify l f) (keeps I).
Proof.
  intros Hf w out w' [= <- <-]. unfold keeps, all_sessions. simpl.
  intros H. apply Forall_alter; auto.
Qed.

Lemma post_new_object_keeps : post new_object (keeps I).
Proof.
  intros w out w' [= <- <-]. unfold keeps, all_sessions. simpl.
  intros H. apply Forall_app. split; [exact H|]. repeat constructor. apply I_new.
Qed.

Lemma post_sessions_set_keeps (sid : string) (l : nat) :
  post (sessions_set sid l) (keeps I).
Proof. intros w out w' [= <- <-]. exact (fun H => H). Qed.

Lemma post_get_or_create_session_keeps (session_id : option string) :
  post (get_or_create_session B session_id) (keeps I).
Proof.
  pose proof post_new_object_keeps. pose proof post_sessions_set_keeps.
  unfold get_or_create_session.
  post_auto keeps_refl keeps_trans keeps_call.
  destruct a; post_auto keeps_refl keeps_trans keeps_call.
Qed.

Lemma post_generate_text_keeps (session : nat) (p : string) :
  post (generate_text B cfg session p) (keeps I).
Proof.
  pose proof (fun l m => post_modify_keeps l (append_message m) (I_append m)) as Hm.
  unfold generate_text.
  post_auto keeps_refl keeps_trans keeps_call.
Qed.

Lemma post_generate_image_keeps :
  (forall r tr s, I tr s -> I tr (set_last_image_response_id r s)) ->
  forall session p st, post (generate_image B cfg session p st) (keeps I).
Proof.
  intros Hset session p st.
  pose proof (fun l r => post_modify_keeps l (set_last_image_response_id r) (Hset r)) as Hm.
  unfold generate_image, save_bytes.
  post_auto keeps_refl keeps_trans keeps_call.
Qed.

Lemma post_generate_video_keeps :
  (forall v tr s, I tr s -> I tr (set_last_video_id v s)) ->
  (forall b tr s, I tr s -> I tr (set_last_video_completed b s)) ->
  forall fuel session p secs sz,
    post (generate_video B cfg fuel session p secs sz) (keeps I).
Proof.
  intros Hid Hdone fuel session p secs sz.
  pose proof (fun l v => post_modify_keeps l (set_last_video_id v) (Hid v)) as Hm1.
  pose proof (fun l b => post_modify_keeps l (set_last_video_completed b) (Hdone b)) as Hm2.
  unfold generate_video, submit_video, download_video_mp4, save_bytes.
  post_auto keeps_refl keeps_trans keeps_call.
Qed.

Hypothesis keeps_image : forall session p st,
  post (generate_image B cfg session p st) (keeps I).
Hypothesis keeps_video : forall fuel session p secs sz,
  post (generate_video B cfg fuel session p secs sz) (keeps I).

Lemma post_dispatch_keeps (fuel : nat) (sid : string) (session : nat)
    (decision : option RouteDecision) :
  post (dispatch B cfg fuel sid session decision) (keeps I).
Proof.
  pose proof (fun l m => post_modify_keeps l (append_message m) (I_append m)) as Hm.
  pose proof (fun l i => post_modify_keeps l (set_last_intent i) (I_intent i)) as Hi.
  pose proof post_generate_text_keeps as Ht.
  destruct decision as [d|]; simpl; [|apply post_raise, keeps_refl].
  destruct (intent d); post_auto keeps_refl keeps_trans keeps_call.
Qed.

Lemma post_handle_message_keeps (fuel : nat) (req : ChatRequest) :
  post (handle_message B cfg fuel req) (keeps I).
Proof.
  pose proof (fun l m => post_modify_keeps l (append_message m) (I_append m)) as Hm.
  pose proof post_get_or_create_session_keeps as Hg.
  pose proof post_dispatch_keeps as Hd.
  unfold handle_message.
  apply (post_bind _ keeps_trans); [apply Hg|]. intros found.
  apply post_if; [apply post_raise, keeps_refl|].
  apply (post_bind _ keeps_trans).
  { unfold route_intent. post_auto keeps_refl keeps_trans keeps_call. }
  intros decision.
  apply (post_bind _ keeps_trans); [apply Hm|]. intros _.
  apply post_try_except, Hd.
Qed.

(** An invariant of the objects holds in every world the server reaches. *)
Lemma reachable_all_sessions (w : World) : reachable B cfg w -> all_sessions I w.
Proof.
  induction 1 as [|w fuel req out w' _ IH Hstep].
  - constructor.
  - exact (post_handle_message_keeps fuel req w out w' Hstep IH).
Qed.

End Keeps.

(** ** Calls leave the store and the objects alone *)

Lemma same_store_refl (w : World) : same_store w w.
Proof. split; reflexivity. Qed.

Lemma same_store_trans (w1 w2 w3 : World) :
  same_store w1 w2 -> same_store w2 w3 -> same_store w1 w3.
Proof. intros [A1 A2] [B1 B2]. split; congruence. Qed.

Lemma same_store_call (c : Call) (w : World) : same_store w (record_call c w).
Proof. split; reflexivity. Qed.

Lemma post_poll_same_store B cfg fuel video_id :
  post (poll_video_until_done B cfg fuel video_id) same_store.
Proof. post_auto same_store_refl same_store_trans same_store_call. Qed.

Lemma post_save_bytes_same_store B cfg ext data :
  post (save_bytes B cfg ext data) same_store.
Proof.
  unfold save_bytes. post_auto same_store_refl same_store_trans same_store_call.
Qed.

Lemma post_download_same_store B cfg video_id :
  post (download_video_mp4 B cfg video_id) same_store.
Proof.
  pose proof (post_save_bytes_same_store B cfg) as Hs.
  unfold download_video_mp4.
  post_auto same_store_refl same_store_trans same_store_call.
Qed.

Lemma post_route_intent_same_store B cfg user_text session :
  post (route_intent B cfg user_text session) same_store.
Proof.
  unfold route_intent. post_auto same_store_refl same_store_trans same_store_call.
Qed.

(** ** The completed flag *)

Section VideoFlag.

Variable B : Backend.
Variable cfg : Config.

Lemma flag_ok_new : flag_ok new_SessionState.
Proof. intros H. discriminate H. Qed.

Lemma flag_ok_set_id (v : string) (s : SessionState) :
  flag_ok (set_last_video_id v s).
Proof. intros _. simpl. discriminate. Qed.

Lemma flag_ok_set_false (s : SessionState) :
  flag_ok (set_last_video_completed false s).
Proof. intros H. simpl in H. discriminate H. Qed.

Lemma flag_ok_submitted (v : string) (s : SessionState) (b : bool) :
  flag_ok (set_last_video_completed b (set_last_video_id v s)).
Proof. intros _. simpl. discriminate. Qed.

(** The rest of [generate_video] once the job is opened, by the outcome
    of the poller. *)
Lemma generate_video_after_poll (fuel session : nat) (job : VideoJob) (w1 : World) :
  (poll_video_until_done B cfg fuel (job_id job) ;;
   modify session (set_last_video_completed true) ;;
   download_video_mp4 B cfg (job_id job)) w1
  = match poll_video_until_done B cfg fuel (job_id job) w1 with
    | (Return _, w2) =>
        download_video_mp4 B cfg (job_id job)
          {| SESSIONS := SESSIONS w2;
             heap := alter (set_last_video_completed true) session (heap w2);
             trace := trace w2 |}
    | (Raise e, w2) => (Raise e, w2)
    | (OutOfFuel, w2) => (OutOfFuel, w2)
    end.
Proof.
  unfold bind at 1.
  destruct (poll_video_until_done B cfg fuel (job_id job) w1) as [[done|e|] w2];
    reflexivity.
Qed.

Lemma poll_video_until_done_returns_completed (fuel : nat) (video_id : string)
    (w w' : World) (job : VideoJob) :
  poll_video_until_done B cfg fuel video_id w = (Return job, w') ->
  status job = Some "completed" /\
  exists w0, w' = record_call (VideosRetrieve video_id) w0 /\
             video_reply B (trace w') = inr job.
Proof.
  unfold poll_video_until_done, bind, observe. apply poll_loop_returns_completed.
Qed.

Lemma post_generate_video_flag_ok (fuel session : nat) (p : string)
    (secs sz : option string) :
  post (generate_video B cfg fuel session p secs sz) (keeps (fun _ => flag_ok)).
Proof.
  intros w out w' H Hall. unfold all_sessions in *.
  rewrite generate_video_unfold, submit_video_run in H. cbv zeta in H.
  destruct (video_reply B _) as [msg|job].
  { injection H as <- <-. exact Hall. }
  rewrite generate_video_after_poll in H.
  match type of H with
  | context [poll_video_until_done B cfg fuel (job_id job) ?w1] =>
      destruct (poll_video_until_done B cfg fuel (job_id job) w1)
        as [[done|e|] w2] eqn:Ep;
      apply post_poll_same_store in Ep as [_ Eh]; simpl in Eh
  end.
  - apply post_download_same_store in H as [_ Eh']. simpl in Eh'.
    rewrite Eh', Eh. apply Forall_alter.
    + repeat apply Forall_alter; auto; intros;
        first [apply flag_ok_set_false | apply flag_ok_set_id].
    + intros x Hx _.
      rewrite !list_lookup_alter_eq in Hx.
      destruct (heap w !! session); [|discriminate Hx].
      injection Hx as <-. apply flag_ok_submitted.
  - injection H as <- <-. rewrite Eh.
    repeat apply Forall_alter; auto; intros;
      first [apply flag_ok_set_false | apply flag_ok_set_id].
  - injection H as <- <-. rewrite Eh.
    repeat apply Forall_alter; auto; intros;
      first [apply flag_ok_set_false | apply flag_ok_set_id].
Qed.

Lemma reachable_flag_ok (w : World) :
  reachable B cfg w -> Forall flag_ok (heap w).
Proof.
  apply (reachable_all_sessions B cfg (fun _ => flag_ok)); auto.
  - intros tr. apply flag_ok_new.
  - apply post_generate_image_keeps; auto.
  - apply post_generate_video_flag_ok.
Qed.

(** C6. In a video turn, once the create or remix call has returned a
    job and before the poller is entered, the session records the id
    of that job and its completed flag is false (1-4).  The turn goes
    on from there with the poller (5); if the flag is true when the
    turn ends, the poller returned, which it does only on retrieving a
    job whose status is completed (6); if the poller did not return,
    the flag stays false (7).  In no world the server reaches is the
    flag true on a session that records no job (8). *)
Theorem video_turn_completed_flag (fuel session : nat) (p : string)
    (secs sz : option string) (w w1 : World) (s : SessionState) (job : VideoJob) :
  heap w !! session = Some s ->
  submit_video B cfg session p secs sz w = (Return job, w1) ->
  (exists request, is_submission request = true /\ trace w1 = request :: trace w) /\
  video_reply B (trace w1) = inr job /\
  last_video_id (heap w1 !!! session) = Some (job_id job) /\
  last_video_completed (heap w1 !!! session) = false /\
  generate_video B cfg fuel session p secs sz w
  = (poll_video_until_done B cfg fuel (job_id job) ;;
     modify session (set_last_video_completed true) ;;
     download_video_mp4 B cfg (job_id job)) w1 /\
  (last_video_completed
     (heap (snd (generate_video B cfg fuel session p secs sz w)) !!! session) = true ->
   exists done w2,
     poll_video_until_done B cfg fuel (job_id job) w1 = (Return done, w2) /\
     video_reply B (trace w2) = inr done /\
     status done = Some "completed") /\
  ((forall done, fst (poll_video_until_done B cfg fuel (job_id job) w1) <> Return done) ->
   last_video_id
     (heap (snd (generate_video B cfg fuel session p secs sz w)) !!! session)
   = Some (job_id job) /\
   last_video_completed
     (heap (snd (generate_video B cfg fuel session p secs sz w)) !!! session) = false) /\
  (forall w0, reachable B cfg w0 ->
     forall l s0, heap w0 !! l = Some s0 ->
       last_video_completed s0 = true -> last_video_id s0 <> None).
Proof.
  intros Hs Hsub.
  assert (Hlt : (session < length (heap w))%nat) by (eapply lookup_lt_Some, Hs).
  assert (Hrun : generate_video B cfg fuel session p secs sz w
                 = (poll_video_until_done B cfg fuel (job_id job) ;;
                    modify session (set_last_video_completed true) ;;
                    download_video_mp4 B cfg (job_id job)) w1).
  { rewrite generate_video_unfold, Hsub. reflexivity. }
  rewrite submit_video_run in Hsub. cbv zeta in Hsub.
  destruct (video_reply B _) as [msg|j] eqn:Ej; [discriminate Hsub|].
  injection Hsub as -> <-. cbn [trace heap].
  assert (Hid : last_video_id
                  (alter (set_last_video_completed false) session
                     (alter (set_last_video_id (job_id job)) session (heap w))
                   !!! session) = Some (job_id job)).
  { rewrite !list_lookup_total_alter_eq by (rewrite ?length_alter; exact Hlt).
    reflexivity. }
  assert (Hflag : last_video_completed
                    (alter (set_last_video_completed false) session
                       (alter (set_last_video_id (job_id job)) session (heap w))
                     !!! session) = false).
  { rewrite !list_lookup_total_alter_eq by (rewrite ?length_alter; exact Hlt).
    reflexivity. }
  split; [|split; [|split; [|split; [|split; [|split; [|split]]]]]].
  - eexists. split; [|reflexivity].
    destruct (remix_ready (heap w !!! session)); reflexivity.
  - exact Ej.
  - exact Hid.
  - exact Hflag.
  - exact Hrun.
  - rewrite Hrun, generate_video_after_poll.
    match goal with
    | |- context [poll_video_until_done B cfg fuel (job_id job) ?w1] =>
        destruct (poll_video_until_done B cfg fuel (job_id job) w1)
          as [[done|e|] w2] eqn:Ep
    end.
    + intros _. exists done, w2. split; [reflexivity|].
      apply poll_video_until_done_returns_completed in Ep
        as (Hc & w0 & _ & Hr). auto.
    + apply post_poll_same_store in Ep as [_ Eh]. simpl in Eh. simpl.
      rewrite Eh, Hflag. discriminate.
    + apply post_poll_same_store in Ep as [_ Eh]. simpl in Eh. simpl.
      rewrite Eh, Hflag. discriminate.
  - rewrite Hrun, generate_video_after_poll.
    match goal with
    | |- context [poll_video_until_done B cfg fuel (job_id job) ?w1] =>
        destruct (poll_video_until_done B cfg fuel (job_id job) w1)
          as [[done|e|] w2] eqn:Ep
    end.
    + intros H. exfalso. apply (H done). reflexivity.
    + apply post_poll_same_store in Ep as [_ Eh]. simpl in Eh. simpl.
      rewrite Eh. auto.
    + apply post_poll_same_store in Ep as [_ Eh]. simpl in Eh. simpl.
      rewrite Eh. auto.
  - intros w0 Hreach l s0 Hl.
    pose proof (reachable_flag_ok w0 Hreach) as Hall.
    rewrite Forall_lookup in Hall. exact (Hall l s0 Hl).
Qed.

End VideoFlag.

(** ** The image continuation handle *)




Section ImageHandle.

Variable B : Backend.
Variable cfg : Config.

(** What [generate_image] does, by the answer of the backend. *)
Lemma generate_image_run (session : nat) (p : string) (st : option string) (w : World) :
  let request :=
    ResponsesCreate (TEXT_MODEL cfg)
      (InputText (if truthy st then p +:+ nl +:+ nl +:+ "Style: " +:+ or_else st ""
                  else p))
      ["image_generation"] (image_kwargs (heap w !!! session)) in
  generate_image B cfg session p st w =
    match create_reply B (request :: trace w) with
    | inl f => (Raise (exn_of f), record_call request w)
    | inr resp =>
        (if negb (truthy (find_image_b64 (output resp)))
         then raise (HTTPException 500 "No image generated in response output.")
         else
           let* img_bytes :=
             of_reply (b64decode B (or_else (find_image_b64 (output resp)) "")) in
           save_bytes B cfg "png" img_bytes)
          {| SESSIONS := SESSIONS w;
             heap := alter (set_last_image_response_id (resp_id resp)) session (heap w);
             trace := request :: trace w |}
    end.
Proof.
  unfold generate_image. unfold bind at 1 2 3, read, perform, modify. cbv zeta.
  simpl. destruct (create_reply B _); reflexivity.
Qed.

(** After the response is stored, the turn only decodes and saves. *)
Lemma image_finish_same_store (resp : Response) :
  post (if negb (truthy (find_image_b64 (output resp)))
        then raise (HTTPException 500 "No image generated in response output.")
        else
          let* img_bytes :=
            of_reply (b64decode B (or_else (find_image_b64 (output resp)) "")) in
          save_bytes B cfg "png" img_bytes)
       same_store.
Proof.
  pose proof (post_save_bytes_same_store B cfg) as Hs.
  post_auto same_store_refl same_store_trans same_store_call.
Qed.

Lemma image_finish_extends (resp : Response) :
  post (if negb (truthy (find_image_b64 (output resp)))
        then raise (HTTPException 500 "No image generated in response output.")
        else
          let* img_bytes :=
            of_reply (b64decode B (or_else (find_image_b64 (output resp)) "")) in
          save_bytes B cfg "png" img_bytes)
       (extends_by (fun c => is_create c = false)).
Proof.
  pose proof (extends_by_refl (fun c => is_create c = false)) as Hr.
  pose proof (extends_by_trans (fun c => is_create c = false)) as Ht.
  pose proof (extends_by_call (fun c => is_create c = false)) as Hc.
  apply post_if; [now apply post_raise|].
  apply post_bind; auto; [now apply post_of_reply|]. intros data.
  eapply post_save_bytes; eauto; reflexivity.
Qed.



End ImageHandle.



(** ** Turns *)

Lemma same_shape_refl (w : World) : same_shape w w.
Proof. split; reflexivity. Qed.

Lemma same_shape_trans (w1 w2 w3 : World) :
  same_shape w1 w2 -> same_shape w2 w3 -> same_shape w1 w3.
Proof. intros [A1 A2] [B1 B2]. split; congruence. Qed.

Lemma same_shape_call (c : Call) (w : World) : same_shape w (record_call c w).
Proof. split; reflexivity. Qed.

Lemma post_modify_same_shape (l : nat) (f : SessionState -> SessionState) :
  post (modify l f) same_shape.
Proof.
  intros w out w' [= <- <-]. split; simpl; [reflexivity | apply length_alter].
Qed.

Lemma try_except_returns {A} (m : M A) (w w' : World) (a : A) :
  try_except m w = (Return a, w') -> m w = (Return a, w').
Proof.
  unfold try_except. destruct (m w) as [[x|[c d|msg|nm]|] w1]; intros H;
    first [exact H | discriminate H].
Qed.

Section Turns.

Variable B : Backend.
Variable cfg : Config.

Lemma post_generate_text_same_shape (session : nat) (p : string) :
  post (generate_text B cfg session p) same_shape.
Proof.
  pose proof post_modify_same_shape as Hm. unfold generate_text.
  post_auto same_shape_refl same_shape_trans same_shape_call.
Qed.

Lemma post_generate_image_same_shape (session : nat) (p : string) (st : option string) :
  post (generate_image B cfg session p st) same_shape.
Proof.
  pose proof post_modify_same_shape as Hm. unfold generate_image, save_bytes.
  post_auto same_shape_refl same_shape_trans same_shape_call.
Qed.

Lemma post_generate_video_same_shape (fuel session : nat) (p : string)
    (secs sz : option string) :
  post (generate_video B cfg fuel session p secs sz) same_shape.
Proof.
  pose proof post_modify_same_shape as Hm.
  unfold generate_video, submit_video, download_video_mp4, save_bytes.
  post_auto same_shape_refl same_shape_trans same_shape_call.
Qed.

Lemma post_dispatch_same_shape (fuel : nat) (sid : string) (session : nat)
    (decision : option RouteDecision) :
  post (dispatch B cfg fuel sid session decision) same_shape.
Proof.
  pose proof post_modify_same_shape as Hm.
  pose proof post_generate_text_same_shape as Ht.
  pose proof post_generate_image_same_shape as Hi.
  pose proof post_generate_video_same_shape as Hv.
  destruct decision as [d|]; simpl; [|apply post_raise, same_shape_refl].
  destruct (intent d); post_auto same_shape_refl same_shape_trans same_shape_call.
Qed.

(** [handle_message], step by step. *)
Lemma handle_message_unfold (fuel : nat) (req : ChatRequest) (w : World) :
  handle_message B cfg fuel req w =
    match get_or_create_session B (session_id req) w with
    | (Return (sid, l), w1) =>
        if negb (nonempty (strip (text req)))
        then (Raise (HTTPException 400 "Empty message."), w1)
        else
          match route_intent B cfg (strip (text req)) l w1 with
          | (Return decision, w2) =>
              try_except (dispatch B cfg fuel sid l decision)
                {| SESSIONS := SESSIONS w2;
                   heap := alter (append_message
                                    {| role := "user"; content := strip (text req) |})
                             l (heap w2);
                   trace := trace w2 |}
          | (Raise e, w2) => (Raise e, w2)
          | (OutOfFuel, w2) => (OutOfFuel, w2)
          end
    | (Raise e, w1) => (Raise e, w1)
    | (OutOfFuel, w1) => (OutOfFuel, w1)
    end.
Proof.
  unfold handle_message. unfold bind at 1.
  destruct (get_or_create_session B (session_id req) w) as [[[sid l]|e|] w1];
    try reflexivity.
  cbn [fst snd]. destruct (negb (nonempty (strip (text req)))); [reflexivity|].
  unfold bind at 1.
  destruct (route_intent B cfg (strip (text req)) l w1) as [[d|e|] w2]; reflexivity.
Qed.

(** Resolution always returns, with a reference to an object. *)
Lemma get_or_create_session_resolves (session_id : option string) (w : World) :
  store_ok w ->
  exists sid l w1,
    get_or_create_session B session_id w = (Return (sid, l), w1) /\
    SESSIONS w1 !! sid = Some l /\ (l < length (heap w1))%nat /\ store_ok w1 /\
    exists later, trace w1 = later ++ trace w.
Proof.
  intros Hok. destruct (known_session session_id w) as [l|] eqn:Hk.
  - exists (or_else session_id ""), l, w.
    split; [now apply get_or_create_session_found|].
    unfold known_session in Hk. destruct (truthy session_id); [|discriminate Hk].
    split; [exact Hk|]. split; [eapply Hok, Hk|]. split; [exact Hok|].
    now exists [].
  - eexists _, _, _. split; [now apply get_or_create_session_created|].
    unfold store_ok. cbn [SESSIONS heap trace].
    split; [apply lookup_insert_eq|]. rewrite length_app. cbn [length].
    split; [lia|]. split.
    + intros sid' l'. rewrite lookup_insert. case_decide.
      * intros [= <-]. lia.
      * intros H'. apply Hok in H'. lia.
    + destruct (truthy session_id); [now exists [] | now exists [Uuid4]].
Qed.

(** A turn that returns a response has recorded its intent. *)
Lemma dispatch_returns (fuel : nat) (sid : string) (l : nat)
    (decision : option RouteDecision) (w w' : World) (resp : ChatResponse) :
  dispatch B cfg fuel sid l decision w = (Return resp, w') ->
  (l < length (heap w))%nat ->
  r_session_id resp = sid /\
  last_intent (heap w' !!! l) = Some (r_intent resp) /\
  exists d, decision = Some d /\ intent d = r_intent resp.
Proof.
  intros H Hl. destruct decision as [d|]; [|discriminate H].
  unfold dispatch in H. destruct (intent d) eqn:Ei; unfold bind at 1 in H.
  - destruct (generate_text B cfg l (prompt d) w) as [[t|e|] wg] eqn:Eg;
      try discriminate H.
    apply post_generate_text_same_shape in Eg as [_ Eg].
    cbv [bind modify ret] in H. injection H as <- <-. simpl.
    rewrite list_lookup_total_alter_eq by lia. eauto.
  - destruct (generate_image B cfg l (prompt d) (style d) w) as [[t|e|] wg] eqn:Eg;
      try discriminate H.
    apply post_generate_image_same_shape in Eg as [_ Eg].
    cbv [bind modify ret] in H. injection H as <- <-. simpl.
    rewrite !list_lookup_total_alter_eq by (rewrite ?length_alter; lia). eauto.
  - destruct (generate_video B cfg fuel l (prompt d) (option_map seconds_str (seconds d))
                (option_map size_str (size d)) w) as [[t|e|] wg] eqn:Eg;
      try discriminate H.
    apply post_generate_video_same_shape in Eg as [_ Eg].
    cbv [bind modify ret] in H. injection H as <- <-. simpl.
    rewrite !list_lookup_total_alter_eq by (rewrite ?length_alter; lia). eauto.
Qed.

End Turns.

Section TurnResults.

Variable B : Backend.
Variable cfg : Config.

Lemma route_intent_extends (user_text : string) (session : nat) :
  post (route_intent B cfg user_text session) (extends_by (fun _ => True)).
Proof.
  apply (post_route_intent _ (extends_by_refl _) (extends_by_trans _)
           (fun _ => True) (extends_by_call _)).
  intros m i. exact Logic.I.
Qed.

(** An image turn that returns has stored the id of the answer to its
    request. *)
Lemma dispatch_image_returns (fuel : nat) (sid : string) (l : nat) (d : RouteDecision)
    (w w' : World) (resp : ChatResponse) :
  dispatch B cfg fuel sid l (Some d) w = (Return resp, w') ->
  intent d = Image ->
  (l < length (heap w))%nat ->
  exists model input prev answer later,
    create_reply B (ResponsesCreate model input ["image_generation"] prev :: trace w)
    = inr answer /\
    trace w' = later ++ ResponsesCreate model input ["image_generation"] prev :: trace w /\
    last_image_response_id (heap w' !!! l) = Some (resp_id answer).
Proof.
  intros H Ei Hl. unfold dispatch in H. rewrite Ei in H. unfold bind at 1 in H.
  destruct (generate_image B cfg l (prompt d) (style d) w) as [[url|e|] wg] eqn:Eg;
    try discriminate H.
  rewrite generate_image_run in Eg. cbv zeta in Eg.
  destruct (create_reply B _) as [msg|answer] eqn:Ea; [discriminate Eg|].
  pose proof (image_finish_same_store B cfg answer _ _ _ Eg) as [_ Eh].
  pose proof (image_finish_extends B cfg answer _ _ _ Eg) as (later & Et & _).
  cbn [heap trace] in Eh, Et.
  cbv [bind modify ret] in H. injection H as <- <-. cbn [heap trace].
  eexists _, _, _, answer, later. split; [exact Ea|]. split; [exact Et|].
  rewrite Eh, !list_lookup_total_alter_eq by (rewrite ?length_alter; lia).
  reflexivity.
Qed.

(** A request that is answered leaves its intent in the session it
    names; when the intent is image, it leaves the id of the answer of
    the image backend there too. *)
Lemma handle_message_returns (fuel : nat) (req : ChatRequest) (w w' : World)
    (resp : ChatResponse) :
  store_ok w ->
  handle_message B cfg fuel req w = (Return resp, w') ->
  exists l,
    SESSIONS w' !! r_session_id resp = Some l /\
    (l < length (heap w'))%nat /\
    last_intent (heap w' !!! l) = Some (r_intent resp) /\
    (r_intent resp = Image ->
     exists h, last_image_response_id (heap w' !!! l) = Some h /\
               image_answer_in_turn B w w' h).
Proof.
  intros Hok H. rewrite handle_message_unfold in H.
  destruct (get_or_create_session_resolves B (session_id req) w Hok)
    as (sid & l & w1 & Hg & Hb & Hl & _ & later1 & Et1).
  rewrite Hg in H.
  destruct (negb (nonempty (strip (text req)))); [discriminate H|].
  destruct (route_intent B cfg (strip (text req)) l w1) as [[dec|e|] w2] eqn:Er;
    try discriminate H.
  pose proof (post_route_intent_same_store B cfg _ _ _ _ _ Er) as [Es2 Eh2].
  pose proof (route_intent_extends _ _ _ _ _ Er) as (later2 & Et2 & _).
  apply try_except_returns in H.
  pose proof (post_dispatch_same_shape B cfg _ _ _ _ _ _ _ H) as [Es3 El3].
  cbn [SESSIONS heap] in Es3, El3. rewrite length_alter, Eh2 in El3.
  pose proof H as H'.
  apply dispatch_returns in H'
    as (Hsid & Hint & d & -> & Hd); [|cbn [heap]; rewrite length_alter, Eh2; lia].
  exists l. rewrite Hsid, Es3, Es2. split; [exact Hb|].
  split; [lia|]. split; [exact Hint|].
  intros Himg. rewrite <- Hd in Himg.
  apply dispatch_image_returns in H
    as (model & input & prev & answer & later & Ha & Et & Hh);
    [|exact Himg|cbn [heap]; rewrite length_alter, Eh2; lia].
  cbn [trace] in Ha, Et. exists (resp_id answer). split; [exact Hh|].
  exists later, model, input, prev, (later2 ++ later1), answer.
  rewrite <- app_assoc, <- Et1, <- Et2. auto.
Qed.

Lemma image_kwargs_Some (s : SessionState) (h : string) :
  image_kwargs s = Some h <->
  last_intent s = Some Image /\ last_image_response_id s = Some h /\ nonempty h = true.
Proof.
  unfold image_kwargs.
  destruct (is_intent (last_intent s) Image) eqn:Ei; simpl.
  - apply is_intent_true in Ei.
    destruct (last_image_response_id s) as [x|]; simpl.
    + destruct (nonempty x) eqn:Ex; split.
      * intros [= <-]. auto.
      * intros (_ & [= <-] & _). reflexivity.
      * discriminate.
      * intros (_ & [= <-] & Hn). congruence.
    + split; [discriminate | intros (_ & H & _); discriminate H].
  - split; [discriminate|]. intros (Hi & _). apply is_intent_true in Hi. congruence.
Qed.

Lemma image_kwargs_None (s : SessionState) :
  last_intent s <> Some Image -> image_kwargs s = None.
Proof.
  intros H. unfold image_kwargs.
  destruct (is_intent (last_intent s) Image) eqn:Ei; [|reflexivity].
  apply is_intent_true in Ei. contradiction.
Qed.

(** C8 (as the code has it). An image turn issues one request to the
    image backend.  It carries the session's handle when the last
    intent is image and the handle is set (1, 2), and no handle in
    every other case (3).  So after a turn that was answered with text
    or video no handle is carried (4), and after a turn that was
    answered with an image the handle carried is the id of the answer
    of that turn (5).  A turn that fails does not change the last
    intent, and is no part of (4). *)
Theorem generate_image_request (session : nat) (p : string) (st : option string)
    (w : World) :
  (exists later,
      trace (snd (generate_image B cfg session p st w))
      = later ++
        ResponsesCreate (TEXT_MODEL cfg)
          (InputText (if truthy st
                      then p +:+ nl +:+ nl +:+ "Style: " +:+ or_else st "" else p))
          ["image_generation"] (image_kwargs (heap w !!! session))
        :: trace w /\
      Forall (fun c => is_create c = false) later) /\
  (forall h,
      image_kwargs (heap w !!! session) = Some h <->
      last_intent (heap w !!! session) = Some Image /\
      last_image_response_id (heap w !!! session) = Some h /\
      nonempty h = true) /\
  (~ (last_intent (heap w !!! session) = Some Image /\
      truthy (last_image_response_id (heap w !!! session)) = true) ->
   image_kwargs (heap w !!! session) = None) /\
  (forall fuel req w0 resp,
      store_ok w0 ->
      handle_message B cfg fuel req w0 = (Return resp, w) ->
      SESSIONS w !! r_session_id resp = Some session ->
      r_intent resp <> Image ->
      image_kwargs (heap w !!! session) = None) /\
  (forall fuel req w0 resp,
      store_ok w0 ->
      handle_message B cfg fuel req w0 = (Return resp, w) ->
      SESSIONS w !! r_session_id resp = Some session ->
      r_intent resp = Image ->
      exists h,
        image_answer_in_turn B w0 w h /\
        last_image_response_id (heap w !!! session) = Some h /\
        (nonempty h = true -> image_kwargs (heap w !!! session) = Some h)).
Proof.
  split; [|split; [|split; [|split]]].
  - rewrite generate_image_run. cbv zeta.
    destruct (create_reply B _) as [msg|answer].
    + exists []. split; [reflexivity | constructor].
    + match goal with
      | |- context [snd (?m ?w1)] => destruct (m w1) as [out w'] eqn:E
      end.
      apply image_finish_extends in E as (later & Et & F). eauto.
  - apply image_kwargs_Some.
  - intros H. unfold image_kwargs.
    destruct (is_intent _ Image) eqn:Ei; [|reflexivity].
    destruct (truthy _) eqn:Et; [|reflexivity].
    apply is_intent_true in Ei. tauto.
  - intros fuel req w0 resp Hok H Hs Hne.
    apply handle_message_returns in H as (l & Hl & _ & Hi & _); [|exact Hok].
    rewrite Hs in Hl. injection Hl as <-.
    apply image_kwargs_None. rewrite Hi. congruence.
  - intros fuel req w0 resp Hok H Hs Himg.
    apply handle_message_returns in H as (l & Hl & _ & Hi & Hh); [|exact Hok].
    rewrite Hs in Hl. injection Hl as <-.
    destruct (Hh Himg) as (h & Eh & Ha). exists h.
    split; [exact Ha|]. split; [exact Eh|].
    intros Hn. apply image_kwargs_Some. rewrite Hi, Himg. auto.
Qed.

End TurnResults.

(** ** The store stays well formed *)

Lemma store_ok_same_shape (w w' : World) : same_shape w w' -> store_ok w -> store_ok w'.
Proof. intros [Es El] H sid l. rewrite Es, El. apply H. Qed.

Lemma handle_message_store_ok B cfg (fuel : nat) (req : ChatRequest) (w w' : World)
    (out : outcome ChatResponse) :
  store_ok w -> handle_message B cfg fuel req w = (out, w') -> store_ok w'.
Proof.
  intros Hok H. rewrite handle_message_unfold in H.
  destruct (get_or_create_session_resolves B (session_id req) w Hok)
    as (sid & l & w1 & Hg & _ & _ & Hok1 & _).
  rewrite Hg in H.
  destruct (negb (nonempty (strip (text req)))).
  { injection H as <- <-. exact Hok1. }
  destruct (route_intent B cfg (strip (text req)) l w1) as [[dec|e|] w2] eqn:Er;
    pose proof (post_route_intent_same_store B cfg _ _ _ _ _ Er) as [Es2 Eh2];
    assert (Hok2 : store_ok w2)
      by (apply (store_ok_same_shape w1); [split; congruence | exact Hok1]);
    try (injection H as <- <-; exact Hok2).
  apply (post_try_except _ _ (post_dispatch_same_shape B cfg _ _ _ _)) in H.
  apply (store_ok_same_shape _ _ H).
  apply (store_ok_same_shape w2); [|exact Hok2].
  split; cbn [SESSIONS heap]; [reflexivity | apply length_alter].
Qed.

Lemma store_ok_empty : store_ok empty_world.
Proof.
  intros sid l H. unfold empty_world in H. cbn [SESSIONS] in H.
  rewrite lookup_empty in H. discriminate H.
Qed.

Lemma reachable_store_ok B cfg (w : World) : reachable B cfg w -> store_ok w.
Proof.
  induction 1 as [|w fuel req out w' _ IH Hstep].
  - apply store_ok_empty.
  - eapply handle_message_store_ok; eauto.
Qed.

(** ** Text turns *)

Section TextTurns.

Variable B : Backend.
Variable cfg : Config.

(** What [generate_text] does, by the answer of the backend. *)
Lemma generate_text_run (session : nat) (p : string) (w : World) :
  let asked := alter (append_message {| role := "user"; content := p |}) session (heap w) in
  let request :=
    ResponsesCreate (TEXT_MODEL cfg) (InputMessages (messages (asked !!! session)))
      [] None in
  generate_text B cfg session p w =
    match create_reply B (request :: trace w) with
    | inl f =>
        (Raise (exn_of f),
         {| SESSIONS := SESSIONS w; heap := asked; trace := request :: trace w |})
    | inr resp =>
        (Return (or_else (output_text resp) ""),
         {| SESSIONS := SESSIONS w;
            heap := alter (append_message
                             {| role := "assistant";
                                content := or_else (output_text resp) "" |})
                      session asked;
            trace := request :: trace w |})
    end.
Proof.
  unfold generate_text, bind, read, perform, modify, ret. simpl.
  destruct (create_reply B _); reflexivity.
Qed.

(** Resolving an id yields an object that holds the messages of the
    session the request names. *)
Lemma get_or_create_session_messages (session_id : option string) (w : World) :
  store_ok w ->
  exists sid l w1 s,
    get_or_create_session B session_id w = (Return (sid, l), w1) /\
    SESSIONS w1 !! sid = Some l /\
    heap w1 !! l = Some s /\
    messages s = prior_messages w session_id.
Proof.
  intros Hok. unfold prior_messages.
  destruct (known_session session_id w) as [l|] eqn:Hk.
  - exists (or_else session_id ""), l, w, (heap w !!! l).
    split; [now apply get_or_create_session_found|].
    unfold known_session in Hk. destruct (truthy session_id); [|discriminate Hk].
    split; [exact Hk|]. split; [|reflexivity].
    apply list_lookup_lookup_total_lt. eapply Hok, Hk.
  - exists (chosen_id B session_id w), (length (heap w)),
      {| SESSIONS := <[chosen_id B session_id w := length (heap w)]> (SESSIONS w);
         heap := heap w ++ [new_SessionState];
         trace := if truthy session_id then trace w else Uuid4 :: trace w |},
      new_SessionState.
    split; [now apply get_or_create_session_created|]. cbn [SESSIONS heap].
    split; [apply lookup_insert_eq|]. split; [|reflexivity].
    rewrite lookup_app_r by lia. now rewrite Nat.sub_diag.
Qed.

Lemma prior_messages_given (w : World) (sid : string) :
  nonempty sid = true -> prior_messages w (Some sid) = session_messages w sid.
Proof.
  intros Hne. unfold prior_messages, session_messages, known_session. simpl.
  now rewrite Hne.
Qed.

(** A text turn that is answered adds three entries to the messages of
    its session: the text as sent, the routed prompt, and the reply. *)
Lemma one_text_turn (fuel : nat) (req : ChatRequest) (w w' : World)
    (resp : ChatResponse) :
  store_ok w ->
  handle_message B cfg fuel req w = (Return resp, w') ->
  r_intent resp = Text ->
  session_messages w' (r_session_id resp)
  = prior_messages w (session_id req) ++ turn_messages (text req) resp.
Proof.
  intros Hok H Hint.
  destruct (get_or_create_session_messages (session_id req) w Hok)
    as (sid & l & w1 & s & Hg & Hb & Hs & <-).
  assert (Hlt : (l < length (heap w1))%nat) by (eapply lookup_lt_Some, Hs).
  rewrite handle_message_unfold, Hg in H.
  destruct (negb (nonempty (strip (text req)))); [discriminate H|].
  destruct (route_intent B cfg (strip (text req)) l w1) as [[dec|e|] w2] eqn:Er;
    try discriminate H.
  apply post_route_intent_same_store in Er as [Es2 Eh2].
  apply try_except_returns in H.
  destruct dec as [d|]; [|discriminate H].
  unfold dispatch in H.
  destruct (intent d) eqn:Ei; unfold bind at 1 in H.
  - rewrite generate_text_run in H. cbv zeta in H. cbn [SESSIONS heap trace] in H.
    destruct (create_reply B _) as [msg|answer]; [discriminate H|].
    cbv [bind modify ret] in H. injection H as <- <-.
    unfold session_messages. cbn [SESSIONS heap r_session_id]. rewrite Es2, Hb, Eh2.
    rewrite !list_lookup_total_alter_eq by (rewrite ?length_alter; exact Hlt).
    rewrite (list_lookup_total_correct _ _ _ Hs).
    unfold turn_messages, routed_prompt. simpl.
    rewrite <- !app_assoc. reflexivity.
  - destruct (generate_image B cfg l (prompt d) (style d) _) as [[u|e|] wg];
      try discriminate H.
    cbv [bind modify ret] in H. injection H as <- <-. discriminate Hint.
  - destruct (generate_video B cfg fuel l (prompt d) _ _ _) as [[u|e|] wg];
      try discriminate H.
    cbv [bind modify ret] in H. injection H as <- <-. discriminate Hint.
Qed.

Lemma Intent_eqb_eq (a b : Intent) : Intent_eqb a b = true -> a = b.
Proof. destruct a, b; simpl; congruence. Qed.

Lemma handle_message_given_id (fuel : nat) (sid t : string) (w w' : World)
    (resp : ChatResponse) :
  nonempty sid = true ->
  store_ok w ->
  handle_message B cfg fuel (request (Some sid) t) w = (Return resp, w') ->
  r_session_id resp = sid.
Proof.
  intros Hne Hok H.
  destruct (get_or_create_session_resolves B (Some sid) w Hok)
    as (sid' & l & w1 & Hg & _ & Hl & _).
  assert (sid' = sid) as ->.
  { destruct (known_session (Some sid) w) as [l0|] eqn:Hk.
    - rewrite (get_or_create_session_found B _ l0 w Hk) in Hg.
      simpl in Hg. rewrite Hne in Hg. congruence.
    - rewrite (get_or_create_session_created B _ w Hk) in Hg.
      unfold chosen_id in Hg. simpl in Hg. rewrite Hne in Hg. congruence. }
  rewrite handle_message_unfold in H. cbn [session_id text request] in H.
  rewrite Hg in H.
  destruct (negb (nonempty (strip t))); [discriminate H|].
  destruct (route_intent B cfg (strip t) l w1) as [[dec|e|] w2] eqn:Er;
    try discriminate H.
  apply post_route_intent_same_store in Er as [_ Eh2].
  apply try_except_returns, dispatch_returns in H as (Hsid & _);
    [exact Hsid | cbn [heap]; rewrite length_alter, Eh2; exact Hl].
Qed.

Lemma text_turns_known (fuel : nat) (sid : string) (texts : list string)
    (w w' : World) (resps : list ChatResponse) :
  nonempty sid = true ->
  store_ok w ->
  run_text_turns B cfg fuel sid texts w = Some (resps, w') ->
  session_messages w' sid
  = session_messages w sid ++ concat (zip_with turn_messages texts resps) /\
  length resps = length texts.
Proof.
  intros Hne. revert w resps.
  induction texts as [|t rest IH]; intros w resps Hok H.
  - injection H as <- <-. simpl. now rewrite app_nil_r.
  - cbn [run_text_turns] in H.
    destruct (handle_message B cfg fuel (request (Some sid) t) w)
      as [[resp|e|] w1] eqn:Eh; try discriminate H.
    destruct (Intent_eqb (r_intent resp) Text) eqn:Ei; [|discriminate H].
    apply Intent_eqb_eq in Ei.
    destruct (run_text_turns B cfg fuel sid rest w1) as [[rs w2]|] eqn:Er;
      [|discriminate H].
    injection H as <- <-.
    pose proof (one_text_turn fuel _ w w1 resp Hok Eh Ei) as Hm1.
    rewrite (handle_message_given_id fuel sid t w w1 resp Hne Hok Eh) in Hm1.
    cbn [session_id text request] in Hm1.
    rewrite prior_messages_given in Hm1 by exact Hne.
    pose proof (handle_message_store_ok B cfg fuel _ w w1 _ Hok Eh) as Hok1.
    destruct (IH w1 rs Hok1 Er) as (Hm & Hr).
    split.
    + rewrite Hm, Hm1. simpl. rewrite <- !app_assoc. reflexivity.
    + simpl. now rewrite Hr.
Qed.

Lemma length_turns (texts : list string) (resps : list ChatResponse) :
  length resps = length texts ->
  length (concat (zip_with turn_messages texts resps)) = (3 * length texts)%nat.
Proof.
  revert resps. induction texts as [|t rest IH]; intros [|r rs] H;
    try discriminate H; [reflexivity|].
  simpl. rewrite IH by (simpl in H; lia). lia.
Qed.

(** C2 (as the code has it). Every text turn that is answered adds
    three entries to the messages of its session, in this order: the
    text as sent (user), the routed prompt (user) and the reply
    (assistant).  So over any sequence of such turns on a session the
    messages grow by three per turn; the messages that were there stay
    in front, and the turns follow in the order they were submitted. *)
Theorem text_turns_messages (fuel : nat) (w : World) :
  store_ok w ->
  (forall req resp w1,
      handle_message B cfg fuel req w = (Return resp, w1) ->
      r_intent resp = Text ->
      session_messages w1 (r_session_id resp)
      = prior_messages w (session_id req)
        ++ [ {| role := "user"; content := strip (text req) |};
             {| role := "user"; content := routed_prompt resp |};
             {| role := "assistant"; content := default "" (r_text resp) |} ]) /\
  (forall sid texts resps w',
      nonempty sid = true ->
      run_text_turns B cfg fuel sid texts w = Some (resps, w') ->
      session_messages w' sid
      = session_messages w sid ++ concat (zip_with turn_messages texts resps) /\
      length (session_messages w' sid)
      = (length (session_messages w sid) + 3 * length texts)%nat /\
      length resps = length texts).
Proof.
  intros Hok. split.
  - intros req resp w1 H Hint. now apply (one_text_turn fuel req w w1 resp).
  - intros sid texts resps w' Hne H.
    destruct (text_turns_known fuel sid texts w w' resps Hne Hok H) as (Hm & Hr).
    split; [exact Hm|]. split; [|exact Hr].
    rewrite Hm, length_app, length_turns by exact Hr. reflexivity.
Qed.

End TextTurns.

(** C2: one text turn on a new session: the backend answers, the
    response is text, and the session holds three messages. *)
Lemma text_turn_adds_three_messages :
  session_messages empty_world "s1" = [] /\
  (exists resp,
      fst (handle_message haiku_backend default_config 0
             (request (Some "s1") "a haiku about rain, please") empty_world)
      = Return resp /\
      r_intent resp = Text) /\
  session_messages
    (snd (handle_message haiku_backend default_config 0
            (request (Some "s1") "a haiku about rain, please") empty_world)) "s1"
  = [ {| role := "user"; content := "a haiku about rain, please" |};
      {| role := "user"; content := "Write a haiku about rain." |};
      {| role := "assistant"; content := "Soft rain on the roof" |} ].
Proof.
  split; [reflexivity|]. split.
  - eexists. split; vm_compute; reflexivity.
  - vm_compute. reflexivity.
Qed.

Lemma text_turns_messages_witness :
  length (session_messages
            (snd (default (@nil ChatResponse, empty_world)
                    (run_text_turns haiku_backend default_config 0 "s1"
                       ["rain"; "more rain"] empty_world))) "s1")
  = (length (session_messages empty_world "s1") + 3 * 2)%nat.
Proof.
  refine (proj1 (proj2 (proj2 (text_turns_messages haiku_backend default_config 0
                                 empty_world store_ok_empty)
                          "s1" ["rain"; "more rain"] _ _ eq_refl _))).
  vm_compute. reflexivity.
Defined.

(** ** The scripted runs *)

(** The poller on a job seen queued, then completed. *)
Lemma poll_video_until_done_outcomes_witness :
  poll_video_until_done video_backend default_config 2 "video_1" empty_world
  = (Return {| job_id := "video_1"; status := Some "completed" |},
     record_call (VideosRetrieve "video_1")
       (record_call TimeTime
          (record_call (TimeSleep 2%float)
             (record_call (VideosRetrieve "video_1")
                (record_call TimeTime (record_call TimeTime empty_world)))))).
Proof.
  refine (proj1 (proj1 (poll_video_until_done_outcomes video_backend default_config
                          "video_1" 1 2 empty_world _ _ _) _ _ _) _).
  - eapply pending_round; [reflexivity | reflexivity | reflexivity | reflexivity
                           | reflexivity | apply pending_none].
  - lia.
  - reflexivity.
  - reflexivity.
  - reflexivity.
Defined.

(** The poller on a job that stays queued: the third reading of the
    clock is past the deadline. *)
Example poll_times_out :
  fst (poll_video_until_done slow_video_backend default_config 5 "video_1" empty_world)
  = Raise (HTTPException 504 "Video generation timed out: video_1").
Proof. vm_compute. reflexivity. Qed.

(** The poller on a job reported failed. *)
Example poll_sees_failure :
  fst (poll_video_until_done failed_video_backend default_config 5 "video_1" empty_world)
  = Raise (HTTPException 500 "Video job failed: video_1").
Proof. vm_compute. reflexivity. Qed.

Lemma video_turn_completed_flag_witness :
  last_video_id
    (heap (snd (submit_video video_backend default_config 0 "A sunset" None None
                  (one_session new_SessionState))) !!! 0%nat) = Some "video_1" /\
  last_video_completed
    (heap (snd (submit_video video_backend default_config 0 "A sunset" None None
                  (one_session new_SessionState))) !!! 0%nat) = false.
Proof.
  pose proof (video_turn_completed_flag video_backend default_config 5 0 "A sunset"
                None None (one_session new_SessionState)
                (snd (submit_video video_backend default_config 0 "A sunset" None None
                        (one_session new_SessionState)))
                new_SessionState {| job_id := "video_1"; status := Some "queued" |}
                eq_refl eq_refl) as H.
  exact (conj (proj1 (proj2 (proj2 H))) (proj1 (proj2 (proj2 (proj2 H))))).
Defined.

(** A session whose last turn was a video that completed: the next
    video turn is a remix, whatever the hints and the defaults. *)
Lemma generate_video_remix_ignores_hints_witness :
  generate_video video_backend
    (with_video_defaults default_config "sora-2-pro" "8" "1280x720") 5 0
    "Make it night" (Some "12") (Some "1792x1024")
    (one_session (a_session (Some Video) None (Some "video_0") true))
  = generate_video video_backend default_config 5 0 "Make it night" None None
      (one_session (a_session (Some Video) None (Some "video_0") true)).
Proof.
  apply (proj2 (generate_video_remix_ignores_hints video_backend default_config 5 0
                  "Make it night" None None
                  (one_session (a_session (Some Video) None (Some "video_0") true))
                  eq_refl)).
Defined.

(** The same session: the request is a remix of the recorded job. *)
Example remix_after_completed_video :
  trace (snd (submit_video video_backend default_config 0 "Make it night"
                (Some "12") None
                (one_session (a_session (Some Video) None (Some "video_0") true))))
  = [VideosRemix "video_0" "Make it night"].
Proof. reflexivity. Qed.

(** A session whose last video did not complete: the request is a
    creation, with the hint for the seconds and the default size. *)
Example create_after_unfinished_video :
  trace (snd (submit_video video_backend default_config 0 "Make it night"
                (Some "12") None
                (one_session (a_session (Some Video) None (Some "video_0") false))))
  = [VideosCreate "Make it night" "sora-2" "12" "720x1280"].
Proof. reflexivity. Qed.

(** A session whose last turn was text keeps its old handle to itself. *)
Example stale_handle_not_carried :
  trace (snd (generate_image image_backend default_config 0 "A red fox" None
                (one_session (a_session (Some Text) (Some "resp_00") None false))))
  = [ WriteFile "server/outputs/00000000000000000000000000000002.png" [];
      Uuid4;
      ResponsesCreate "gpt-5.2" (InputText "A red fox") ["image_generation"] None ].
Proof. vm_compute. reflexivity. Qed.

(** A session whose last turn was an image passes its handle on. *)
Example handle_carried_after_image :
  trace (snd (generate_image image_backend default_config 0 "Make it brighter"
                (Some "pixel art")
                (one_session (a_session (Some Image) (Some "resp_00") None false))))
  = [ WriteFile "server/outputs/00000000000000000000000000000002.png" [];
      Uuid4;
      ResponsesCreate "gpt-5.2"
        (InputText ("Make it brighter" +:+ nl +:+ nl +:+ "Style: pixel art"))
        ["image_generation"] (Some "resp_00") ].
Proof. vm_compute. reflexivity. Qed.

(** A failure of the router reaches the caller as it is, and nothing
    is added to the messages. *)
Example router_failure_propagates :
  fst (handle_message failing default_config 0 (request (Some "s1") "hello")
         (one_session new_SessionState))
  = Raise (Exception "router unavailable") /\
  heap (snd (handle_message failing default_config 0 (request (Some "s1") "hello")
               (one_session new_SessionState)))
  = [new_SessionState].
Proof. split; reflexivity. Qed.

(** An image turn whose backend call raises: HTTP 500 with the message
    of the error, and still no handle in the session. *)
Example failed_image_call_leaves_no_handle :
  fst (handle_message image_down_backend default_config 0
         (request (Some "s1") "draw a fox") (one_session new_SessionState))
  = Raise (HTTPException 500 "backend unavailable") /\
  last_image_response_id
    (heap (snd (handle_message image_down_backend default_config 0
                  (request (Some "s1") "draw a fox") (one_session new_SessionState)))
     !!! 0%nat)
  = None.
Proof. split; vm_compute; reflexivity. Qed.

(** C8: an image turn, a text turn that fails at the text backend, an
    image turn.  The failed turn leaves [last_intent] at image, and the
    request of the third turn carries the handle of the first. *)
Lemma handle_carried_across_failed_text_turn :
  map answered_intent
    (fst (run_requests text_down_backend default_config 0 "s1"
            ["draw a fox"; "tell me about foxes"; "make it brighter"] empty_world))
  = [Some Image; None; Some Image] /\
  filter (fun c => is_create c = true)
    (trace (snd (run_requests text_down_backend default_config 0 "s1"
                   ["draw a fox"; "tell me about foxes"; "make it brighter"]
                   empty_world)))
  = [ ResponsesCreate "gpt-5.2" (InputText "A red fox") ["image_generation"]
        (Some "resp_01");
      ResponsesCreate "gpt-5.2"
        (InputMessages
           [ {| role := "user"; content := "draw a fox" |};
             {| role := "assistant";
                content := "[image generated] /outputs/00000000000000000000000000000003.png" |};
             {| role := "user"; content := "tell me about foxes" |};
             {| role := "user"; content := "Tell me about foxes." |} ])
        [] None;
      ResponsesCreate "gpt-5.2" (InputText "A red fox") ["image_generation"] None ].
Proof. split; vm_compute; reflexivity. Qed.

(** A first video turn: the job is created with the default seconds and
    size, seen queued and then completed; the session records it as
    completed and the asset is an mp4. *)
Example video_turn_completes :
  handle_message video_backend default_config 5
    (request (Some "s1") "a clip of a sunset") (one_session new_SessionState)
  = (Return {| r_session_id := "s1"; r_intent := Video; r_content_type := Video;
               r_text := None;
               r_asset_url := Some "/outputs/0000000000000000000000000000000a.mp4";
               r_debug := [("routed_prompt", Some "A sunset"); ("seconds", None);
                           ("size", None)] |},
     {| SESSIONS := {["s1" := 0%nat]};
        heap := [ {| messages :=
                       [ {| role := "user"; content := "a clip of a sunset" |};
                         {| role := "assistant";
                            content := "[video generated] /outputs/0000000000000000000000000000000a.mp4" |} ];
                     last_intent := Some Video;
                     last_image_response_id := None;
                     last_video_id := Some "video_1";
                     last_video_completed := true |} ];
        trace := [ WriteFile "server/outputs/0000000000000000000000000000000a.mp4" [];
                   Uuid4; VideosDownloadContent "video_1";
                   VideosRetrieve "video_1"; TimeTime;
                   TimeSleep 2%float; VideosRetrieve "video_1"; TimeTime;
                   TimeTime;
                   VideosCreate "A sunset" "sora-2" "4" "720x1280";
                   ResponsesParse "gpt-4o-mini"
                     [ {| role := "system"; content := system_prompt |};
                       {| role := "user";
                          content := "Recent conversation:" +:+ nl +:+ "(none)"
                                     +:+ nl +:+ nl +:+ "User message:" +:+ nl
                                     +:+ "a clip of a sunset" |} ] ] |}).
Proof. vm_compute. reflexivity. Qed.

(** * Further properties *)

(** ** The errors of a request *)

Section Raises.

Context {P : exn -> Prop}.

Lemma raises_ret {A} (a : A) : raises (ret a) P.
Proof. intros w e w' H. discriminate H. Qed.

Lemma raises_raise {A} (e : exn) : P e -> raises (@raise A e) P.
Proof. intros He w e' w' [= <- _]. exact He. Qed.

Lemma raises_read (l : nat) : raises (read l) P.
Proof. intros w e w' H. discriminate H. Qed.

Lemma raises_modify (l : nat) (f : SessionState -> SessionState) :
  raises (modify l f) P.
Proof. intros w e w' H. discriminate H. Qed.

Lemma raises_observe {A} (c : Call) (answer : list Call -> A) :
  raises (observe c answer) P.
Proof. intros w e w' H. discriminate H. Qed.

Lemma raises_perform {A} (c : Call) (answer : list Call -> reply A) :
  (forall f tr, answer tr = inl f -> P (exn_of f)) -> raises (perform c answer) P.
Proof.
  intros HP w e w' H. unfold perform in H.
  destruct (answer _) eqn:E; [|discriminate H]. injection H as <- _. eapply HP, E.
Qed.

Lemma raises_of_reply {A} (r : reply A) :
  (forall f, r = inl f -> P (exn_of f)) -> raises (of_reply r) P.
Proof.
  intros HP. destruct r; [apply raises_raise, HP; reflexivity | apply raises_ret].
Qed.

Lemma raises_bind {A C} (m : M A) (k : A -> M C) :
  raises m P -> (forall a, raises (k a) P) -> raises (bind m k) P.
Proof.
  intros Hm Hk w e w' H. unfold bind in H.
  destruct (m w) as [[a|e0|] w1] eqn:E.
  - eapply Hk, H.
  - injection H as <- _. eapply Hm, E.
  - discriminate H.
Qed.

Lemma raises_if {A} (b : bool) (m1 m2 : M A) :
  raises m1 P -> raises m2 P -> raises (if b then m1 else m2) P.
Proof. now destruct b. Qed.

End Raises.

(** Solve [raises m P] along the structure of [m]; what is left are the
    facts [P e] for the exceptions [m] raises itself. *)
Ltac raises_auto :=
  repeat first
    [ match goal with H : context [raises] |- raises _ _ => apply H end
    | apply raises_ret
    | apply raises_read
    | apply raises_modify
    | apply raises_observe
    | apply raises_perform
    | apply raises_of_reply
    | apply raises_raise
    | apply raises_if
    | apply raises_bind
    | match goal with |- forall _, _ => intro end ].

Section RequestErrors.

Variable B : Backend.
Variable cfg : Config.

(** The exception a call raised is a [generation_error]. *)
Ltac by_call := solve [left; eexists; split; [reflexivity|]; unfold raised_by; eauto 10].

Lemma raises_poll_loop (fuel : nat) (deadline : float) (video_id : string) :
  raises (poll_loop B cfg fuel deadline video_id) (generation_error B).
Proof.
  induction fuel as [|fuel IH]; simpl.
  - intros w e w' H. discriminate H.
  - raises_auto; try by_call.
    + right. right. left. eauto.
    + right. right. right. eauto.
Qed.

Lemma raises_generate_video (fuel session : nat) (p : string) (secs sz : option string) :
  raises (generate_video B cfg fuel session p secs sz) (generation_error B).
Proof.
  pose proof raises_poll_loop as Hp.
  unfold generate_video, submit_video, poll_video_until_done, download_video_mp4,
    save_bytes.
  raises_auto; by_call.
Qed.

Lemma raises_generate_image (session : nat) (p : string) (st : option string) :
  raises (generate_image B cfg session p st) (generation_error B).
Proof.
  unfold generate_image, save_bytes.
  raises_auto; try by_call.
  right. right. left. eauto.
Qed.

Lemma raises_generate_text (session : nat) (p : string) :
  raises (generate_text B cfg session p) (generation_error B).
Proof.
  unfold generate_text. raises_auto; by_call.
Qed.

Lemma raises_dispatch (fuel : nat) (sid : string) (session : nat)
    (decision : option RouteDecision) :
  raises (dispatch B cfg fuel sid session decision) (generation_error B).
Proof.
  pose proof raises_generate_text as Ht.
  pose proof raises_generate_image as Hi.
  pose proof raises_generate_video as Hv.
  destruct decision as [d|]; simpl.
  - destruct (intent d); raises_auto.
  - apply raises_raise. right. left. eauto.
Qed.

Lemma raises_try_dispatch (fuel : nat) (sid : string) (session : nat)
    (decision : option RouteDecision) :
  raises (try_except (dispatch B cfg fuel sid session decision)) (turn_error B).
Proof.
  intros w e w' H. unfold try_except in H.
  destruct (dispatch B cfg fuel sid session decision w) as [[a|e0|] w1] eqn:E;
    try discriminate H.
  apply raises_dispatch in E.
  destruct e0 as [c d|msg|nm]; injection H as <- _.
  - destruct E as [([msg|nm] & E & _) | [[msg E] | [[d' E] | [v E]]]];
      try discriminate E.
    + left. eauto.
    + right. left. eauto.
  - left. eauto.
  - destruct E as [([msg|nm'] & E & Hf) | [[msg E] | [[d' E] | [v E]]]];
      try discriminate E.
    injection E as ->. right. right. eauto.
Qed.

(** Session resolution always returns. *)
Lemma get_or_create_session_returns (session_id : option string) (w : World) :
  exists sid l w1, get_or_create_session B session_id w = (Return (sid, l), w1).
Proof.
  destruct (known_session session_id w) as [l|] eqn:Hk.
  - eexists _, _, _. apply get_or_create_session_found, Hk.
  - eexists _, _, _. apply get_or_create_session_created, Hk.
Qed.

(** X1. The errors of a request.  A request ends with HTTP 400 exactly
    when its text is empty or whitespace.  Otherwise an error is what
    the routing call raised, passed on as it is; or HTTP 500; or the
    HTTP 504 of the poller; or an exception that is no [Exception] (a
    [KeyboardInterrupt], say) and that a call of the generator raised,
    passed on as it is. *)
Theorem handle_message_errors (fuel : nat) (req : ChatRequest) (w w' : World) (e : exn) :
  handle_message B cfg fuel req w = (Raise e, w') ->
  (all_space (text req) = true /\ e = HTTPException 400 "Empty message.") \/
  (all_space (text req) = false /\
   ((exists f tr, e = exn_of f /\ parse_reply B tr = inl f) \/
    (exists d, e = HTTPException 500 d) \/
    (exists video_id,
        e = HTTPException 504 ("Video generation timed out: " +:+ video_id)) \/
    (exists name, e = BaseException name /\ raised_by B (Interrupt name)))).
Proof.
  intros H. rewrite handle_message_unfold in H.
  destruct (get_or_create_session_returns (session_id req) w) as (sid & l & w1 & Hg).
  rewrite Hg in H.
  destruct (nonempty (strip (text req))) eqn:Hn; cbn [negb] in H.
  - right. split.
    { destruct (all_space (text req)) eqn:Hs; [|reflexivity].
      apply strip_empty_iff in Hs. congruence. }
    destruct (route_intent B cfg (strip (text req)) l w1) as [[dec|e0|] w2] eqn:Er;
      try discriminate H.
    + apply raises_try_dispatch in H. destruct H as [H|[H|H]]; auto.
    + injection H as <- _. left.
      unfold route_intent, bind, read, perform in Er.
      destruct (parse_reply B _) as [f|dec] eqn:Ep; [|discriminate Er].
      injection Er as <- _. eauto.
  - left. injection H as <- _. split; [|reflexivity].
    now apply strip_empty_iff.
Qed.

End RequestErrors.

(** A video request whose poller is interrupted in its sleep: the
    [KeyboardInterrupt] reaches the caller as it is. *)
Lemma handle_message_errors_witness :
  fst interrupted_run = Raise (BaseException "KeyboardInterrupt") /\
  ((all_space "a clip of a sunset" = true /\
    BaseException "KeyboardInterrupt" = HTTPException 400 "Empty message.") \/
   (all_space "a clip of a sunset" = false /\
    ((exists f tr, BaseException "KeyboardInterrupt" = exn_of f /\
                   parse_reply interrupted_backend tr = inl f) \/
     (exists d, BaseException "KeyboardInterrupt" = HTTPException 500 d) \/
     (exists video_id,
         BaseException "KeyboardInterrupt"
         = HTTPException 504 ("Video generation timed out: " +:+ video_id)) \/
     (exists name, BaseException "KeyboardInterrupt" = BaseException name /\
                   raised_by interrupted_backend (Interrupt name))))).
Proof.
  split; [reflexivity|].
  exact (handle_message_errors interrupted_backend default_config 5
           (request (Some "s1") "a clip of a sunset") (one_session new_SessionState)
           (snd interrupted_run) (BaseException "KeyboardInterrupt") eq_refl).
Defined.

(** The poller is interrupted in its sleep during a video turn: the
    [KeyboardInterrupt] is not turned into HTTP 500; the message of the
    user is recorded and the job was opened. *)
Example interrupted_during_video_turn :
  fst interrupted_run = Raise (BaseException "KeyboardInterrupt") /\
  heap (snd interrupted_run)
  = [ {| messages := [ {| role := "user"; content := "a clip of a sunset" |} ];
         last_intent := None;
         last_image_response_id := None;
         last_video_id := Some "video_1";
         last_video_completed := false |} ] /\
  firstn 5 (trace (snd interrupted_run))
  = [ TimeSleep 2%float; VideosRetrieve "video_1"; TimeTime; TimeTime;
      VideosCreate "A sunset" "sora-2" "4" "720x1280" ].
Proof. vm_compute. repeat split. Qed.

(** The same interruption of a plain [Exception] is answered with
    HTTP 500. *)
Example failure_during_video_turn :
  fst (handle_message
         {| parse_reply := parse_reply interrupted_backend;
            create_reply := create_reply interrupted_backend;
            video_reply := video_reply interrupted_backend;
            download_reply := download_reply interrupted_backend;
            clock := clock interrupted_backend;
            sleep_reply := fun _ => inl (Failure "interrupted");
            uuid4_reply := uuid4_reply interrupted_backend;
            write_reply := write_reply interrupted_backend;
            b64decode := b64decode interrupted_backend |}
         default_config 5 (request (Some "s1") "a clip of a sunset")
         (one_session new_SessionState))
  = Raise (HTTPException 500 "interrupted").
Proof. vm_compute. reflexivity. Qed.

(** ** What a request does to the objects *)

Section ObjectsRel.

Variable rel : SessionState -> SessionState -> Prop.
Hypothesis rel_refl : forall s, rel s s.
Hypothesis rel_trans : forall s1 s2 s3, rel s1 s2 -> rel s2 s3 -> rel s1 s3.

Lemma objects_rel_refl (w : World) : objects_rel rel w w.
Proof. intros l s H. eauto. Qed.

Lemma objects_rel_trans (w1 w2 w3 : World) :
  objects_rel rel w1 w2 -> objects_rel rel w2 w3 -> objects_rel rel w1 w3.
Proof.
  intros H12 H23 l s Hl.
  destruct (H12 l s Hl) as (s2 & Hl2 & R12).
  destruct (H23 l s2 Hl2) as (s3 & Hl3 & R23). eauto.
Qed.

Lemma objects_rel_call (c : Call) (w : World) : objects_rel rel w (record_call c w).
Proof. intros l s H. simpl. eauto. Qed.

Lemma post_modify_objects (l : nat) (f : SessionState -> SessionState) :
  (forall s, rel s (f s)) -> post (modify l f) (objects_rel rel).
Proof.
  intros Hf w out w' [= <- <-] l' s Hl'. simpl.
  rewrite list_lookup_alter. case_decide.
  - subst l'. rewrite Hl'. simpl. eauto.
  - eauto.
Qed.

Lemma post_get_or_create_session_objects B (session_id : option string) :
  post (get_or_create_session B session_id) (objects_rel rel).
Proof.
  intros w out w' H l s Hl.
  destruct (known_session session_id w) as [l0|] eqn:Hk.
  - rewrite (get_or_create_session_found B _ l0 w Hk) in H. injection H as <- <-. eauto.
  - rewrite (get_or_create_session_created B _ w Hk) in H. injection H as <- <-.
    simpl. exists s. split; [now apply lookup_app_l_Some | apply rel_refl].
Qed.

Variable B : Backend.
Variable cfg : Config.

Hypothesis rel_append : forall m s, rel s (append_message m s).
Hypothesis rel_image : forall r s, rel s (set_last_image_response_id r s).
Hypothesis rel_video : forall v s, rel s (set_last_video_id v s).
Hypothesis rel_done : forall b s, rel s (set_last_video_completed b s).

Lemma post_generate_text_objects (session : nat) (p : string) :
  post (generate_text B cfg session p) (objects_rel rel).
Proof.
  pose proof (fun l m => post_modify_objects l (append_message m) (rel_append m)) as Hm.
  unfold generate_text.
  post_auto objects_rel_refl objects_rel_trans objects_rel_call.
Qed.

Lemma post_generate_image_objects (session : nat) (p : string) (st : option string) :
  post (generate_image B cfg session p st) (objects_rel rel).
Proof.
  pose proof (fun l r => post_modify_objects l (set_last_image_response_id r)
                           (rel_image r)) as Hm.
  unfold generate_image, save_bytes.
  post_auto objects_rel_refl objects_rel_trans objects_rel_call.
Qed.

Lemma post_generate_video_objects (fuel session : nat) (p : string)
    (secs sz : option string) :
  post (generate_video B cfg fuel session p secs sz) (objects_rel rel).
Proof.
  pose proof (fun l v => post_modify_objects l (set_last_video_id v) (rel_video v)) as Hm1.
  pose proof (fun l b => post_modify_objects l (set_last_video_completed b)
                           (rel_done b)) as Hm2.
  unfold generate_video, submit_video, download_video_mp4, save_bytes.
  post_auto objects_rel_refl objects_rel_trans objects_rel_call.
Qed.

(** A turn that does not return ends where its generator ended. *)
Lemma dispatch_fails_objects (fuel : nat) (sid : string) (session : nat)
    (decision : option RouteDecision) (w w' : World) (out : outcome ChatResponse) :
  dispatch B cfg fuel sid session decision w = (out, w') ->
  (forall resp, out <> Return resp) ->
  objects_rel rel w w'.
Proof.
  intros H Hout. destruct decision as [d|].
  - unfold dispatch in H. destruct (intent d); unfold bind at 1 in H.
    + destruct (generate_text B cfg session (prompt d) w) as [[t|e|] wg] eqn:Eg.
      * cbv [bind modify ret] in H. injection H as <- _. exfalso. eapply Hout. reflexivity.
      * injection H as _ <-. eapply post_generate_text_objects, Eg.
      * injection H as _ <-. eapply post_generate_text_objects, Eg.
    + destruct (generate_image B cfg session (prompt d) (style d) w)
        as [[t|e|] wg] eqn:Eg.
      * cbv [bind modify ret] in H. injection H as <- _. exfalso. eapply Hout. reflexivity.
      * injection H as _ <-. eapply post_generate_image_objects, Eg.
      * injection H as _ <-. eapply post_generate_image_objects, Eg.
    + destruct (generate_video B cfg fuel session (prompt d) _ _ w)
        as [[t|e|] wg] eqn:Eg.
      * cbv [bind modify ret] in H. injection H as <- _. exfalso. eapply Hout. reflexivity.
      * injection H as _ <-. eapply post_generate_video_objects, Eg.
      * injection H as _ <-. eapply post_generate_video_objects, Eg.
  - injection H as _ <-. apply objects_rel_refl.
Qed.

Hypothesis rel_intent : forall i s, rel s (set_last_intent i s).

Lemma post_dispatch_objects (fuel : nat) (sid : string) (session : nat)
    (decision : option RouteDecision) :
  post (dispatch B cfg fuel sid session decision) (objects_rel rel).
Proof.
  pose proof (fun l m => post_modify_objects l (append_message m) (rel_append m)) as Hm.
  pose proof (fun l i => post_modify_objects l (set_last_intent i) (rel_intent i)) as Hi.
  pose proof post_generate_text_objects as Ht.
  pose proof post_generate_image_objects as Hg.
  pose proof post_generate_video_objects as Hv.
  destruct decision as [d|]; simpl; [|apply post_raise, objects_rel_refl].
  destruct (intent d);
    post_auto objects_rel_refl objects_rel_trans objects_rel_call.
Qed.

Lemma post_handle_message_objects (fuel : nat) (req : ChatRequest) :
  post (handle_message B cfg fuel req) (objects_rel rel).
Proof.
  pose proof (fun l m => post_modify_objects l (append_message m) (rel_append m)) as Hm.
  pose proof (post_get_or_create_session_objects B) as Hg.
  pose proof post_dispatch_objects as Hd.
  unfold handle_message.
  apply (post_bind _ objects_rel_trans); [apply Hg|]. intros found.
  apply post_if; [apply post_raise, objects_rel_refl|].
  apply (post_bind _ objects_rel_trans).
  { unfold route_intent.
    post_auto objects_rel_refl objects_rel_trans objects_rel_call. }
  intros decision.
  apply (post_bind _ objects_rel_trans); [apply Hm|]. intros _.
  apply post_try_except, Hd.
Qed.

End ObjectsRel.

Lemma try_except_fails {A} (m : M A) (w w' : World) (out : outcome A) :
  try_except m w = (out, w') ->
  (forall a, out <> Return a) ->
  exists out0, m w = (out0, w') /\ forall a, out0 <> Return a.
Proof.
  unfold try_except. destruct (m w) as [[a|[c d|msg|nm]|] w1]; intros H Hout;
    injection H as <- <-; eexists; split; try reflexivity; try exact Hout;
    intros a; discriminate.
Qed.

Section RequestObjects.

Variable B : Backend.
Variable cfg : Config.

(** X2. Messages are only ever appended.  Whatever a request ends
    with, every session object that existed is still there and its
    earlier messages are the first of its messages, in the same order. *)
Theorem handle_message_appends_only (fuel : nat) (req : ChatRequest) (w w' : World)
    (out : outcome ChatResponse) (l : nat) (s : SessionState) :
  handle_message B cfg fuel req w = (out, w') ->
  heap w !! l = Some s ->
  exists s' more, heap w' !! l = Some s' /\ messages s' = messages s ++ more.
Proof.
  intros H Hl.
  assert (Hrel : objects_rel messages_extended w w').
  { eapply (post_handle_message_objects messages_extended); eauto;
      unfold messages_extended; simpl; intros;
      first [reflexivity | etrans; eassumption | now apply prefix_app_r]. }
  destruct (Hrel l s Hl) as (s' & Hl' & more & Hm). eauto.
Qed.

(** X3. The last intent is written only by a turn that is answered:
    a request that ends with an error leaves the last intent of every
    session as it was. *)
Theorem failed_request_keeps_last_intent (fuel : nat) (req : ChatRequest)
    (w w' : World) (e : exn) (l : nat) (s : SessionState) :
  handle_message B cfg fuel req w = (Raise e, w') ->
  heap w !! l = Some s ->
  exists s', heap w' !! l = Some s' /\ last_intent s' = last_intent s.
Proof.
  intros H Hl.
  assert (Hrel : objects_rel same_last_intent w w'); [|exact (Hrel l s Hl)].
  assert (Hr : forall s0, same_last_intent s0 s0) by reflexivity.
  assert (Ht : forall s1 s2 s3, same_last_intent s1 s2 -> same_last_intent s2 s3 ->
                                same_last_intent s1 s3)
    by (unfold same_last_intent; congruence).
  rewrite handle_message_unfold in H.
  destruct (get_or_create_session B (session_id req) w) as [[[sid l0]|e0|] w1] eqn:Eg;
    try (injection H as _ <-;
         apply (post_get_or_create_session_objects _ Hr B _ _ _ _ Eg)).
  apply (post_get_or_create_session_objects _ Hr B) in Eg.
  eapply objects_rel_trans; [exact Ht | exact Eg |].
  destruct (negb (nonempty (strip (text req)))).
  { injection H as _ <-. now apply objects_rel_refl. }
  destruct (route_intent B cfg (strip (text req)) l0 w1) as [[dec|e1|] w2] eqn:Er;
    apply post_route_intent_same_store in Er as [_ Eh];
    try (injection H as _ <-; intros l' s' Hl'; rewrite Eh; eauto).
  apply try_except_fails in H as (out0 & H & Hout); [|intros a; discriminate].
  eapply dispatch_fails_objects in H; eauto; try (intros; reflexivity).
  eapply objects_rel_trans; [exact Ht | | exact H].
  eapply objects_rel_trans; [exact Ht | |].
  - intros l' s1 Hl'. rewrite Eh. eauto.
  - eapply (post_modify_objects same_last_intent Hr l0
              (append_message {| role := "user"; content := strip (text req) |}));
      [intros; reflexivity | reflexivity].
Qed.

End RequestObjects.

(** ** One request, one session *)

Lemma only_at_refl (l : nat) (w : World) : only_at l w w.
Proof. intros l' _. reflexivity. Qed.

Lemma only_at_trans (l : nat) (w1 w2 w3 : World) :
  only_at l w1 w2 -> only_at l w2 w3 -> only_at l w1 w3.
Proof. intros H12 H23 l' Hl'. rewrite H23, H12; auto. Qed.

Lemma only_at_call (l : nat) (c : Call) (w : World) : only_at l w (record_call c w).
Proof. intros l' _. reflexivity. Qed.

Lemma post_modify_only_at (l : nat) (f : SessionState -> SessionState) :
  post (modify l f) (only_at l).
Proof.
  intros w out w' [= <- <-] l' Hl'. simpl. now apply list_lookup_alter_ne.
Qed.

Section OneSession.

Variable B : Backend.
Variable cfg : Config.

Lemma post_dispatch_only_at (fuel : nat) (sid : string) (session : nat)
    (decision : option RouteDecision) :
  post (dispatch B cfg fuel sid session decision) (only_at session).
Proof.
  pose proof (post_modify_only_at session) as Hm.
  pose proof (only_at_refl session) as Hr.
  pose proof (only_at_trans session) as Ht.
  pose proof (only_at_call session) as Hc.
  destruct decision as [d|]; simpl; [|now apply post_raise].
  destruct (intent d);
    unfold generate_text, generate_image, generate_video, submit_video,
      download_video_mp4, save_bytes;
    post_auto Hr Ht Hc.
Qed.

(** After the session is resolved, a request keeps the store as it is
    and changes no object but that of the session. *)
Lemma handle_message_after_resolution (fuel : nat) (req : ChatRequest) (w w' : World)
    (out : outcome ChatResponse) :
  handle_message B cfg fuel req w = (out, w') ->
  exists sid l w1,
    get_or_create_session B (session_id req) w = (Return (sid, l), w1) /\
    same_shape w1 w' /\ only_at l w1 w'.
Proof.
  intros H. rewrite handle_message_unfold in H.
  destruct (get_or_create_session_returns B (session_id req) w) as (sid & l & w1 & Hg).
  rewrite Hg in H. exists sid, l, w1. split; [exact Hg|].
  destruct (negb (nonempty (strip (text req)))).
  { injection H as _ <-. split; [apply same_shape_refl | apply only_at_refl]. }
  destruct (route_intent B cfg (strip (text req)) l w1) as [[dec|e|] w2] eqn:Er;
    apply post_route_intent_same_store in Er as [Es Eh];
    try (injection H as _ <-; split; [split; congruence | intros l' _; congruence]).
  pose proof (post_try_except _ _ (post_dispatch_same_shape B cfg _ _ _ _) _ _ _ H)
    as [Es' El'].
  pose proof (post_try_except _ _ (post_dispatch_only_at _ _ _ _) _ _ _ H) as Ho.
  cbn [SESSIONS heap] in Es', El', Ho. rewrite length_alter in El'.
  split; [split; congruence|].
  intros l' Hl'. rewrite (Ho l' Hl'). cbn [heap].
  rewrite list_lookup_alter_ne by congruence. now rewrite Eh.
Qed.

(** X4. A request touches one session.  It leaves every store entry
    but that of its own session id as it was, and changes no object
    but the one that id is bound to afterwards. *)
Theorem handle_message_touches_one_session (fuel : nat) (req : ChatRequest)
    (w w' : World) (out : outcome ChatResponse) :
  handle_message B cfg fuel req w = (out, w') ->
  exists l,
    SESSIONS w' !! chosen_id B (session_id req) w = Some l /\
    (forall sid', sid' <> chosen_id B (session_id req) w ->
                  SESSIONS w' !! sid' = SESSIONS w !! sid') /\
    (forall l' s, l' <> l -> heap w !! l' = Some s -> heap w' !! l' = Some s).
Proof.
  intros H.
  destruct (handle_message_after_resolution fuel req w w' out H)
    as (sid & l & w1 & Hg & [Es _] & Ho).
  exists l. rewrite Es.
  destruct (known_session (session_id req) w) as [l0|] eqn:Hk.
  - rewrite (get_or_create_session_found B _ l0 w Hk) in Hg.
    injection Hg as <- <- <-.
    unfold known_session in Hk. unfold chosen_id.
    destruct (truthy (session_id req)); [|discriminate Hk].
    split; [exact Hk|]. split; [reflexivity|].
    intros l' s Hl' Hs. now rewrite Ho.
  - rewrite (get_or_create_session_created B _ w Hk) in Hg.
    injection Hg as <- <- <-. cbn [SESSIONS].
    split; [apply lookup_insert_eq|]. split.
    + intros sid' Hne. now apply lookup_insert_ne.
    + intros l' s Hl' Hs. rewrite Ho by exact Hl'. cbn [heap].
      now apply lookup_app_l_Some.
Qed.

Lemma handle_message_store_injective (fuel : nat) (req : ChatRequest) (w w' : World)
    (out : outcome ChatResponse) :
  store_ok w -> store_injective w ->
  handle_message B cfg fuel req w = (out, w') ->
  store_injective w'.
Proof.
  intros Hok Hinj H.
  destruct (handle_message_after_resolution fuel req w w' out H)
    as (sid & l & w1 & Hg & [Es _] & _).
  intros a b r. rewrite !Es.
  destruct (known_session (session_id req) w) as [l0|] eqn:Hk.
  - rewrite (get_or_create_session_found B _ l0 w Hk) in Hg.
    injection Hg as <- <- <-. apply Hinj.
  - rewrite (get_or_create_session_created B _ w Hk) in Hg.
    injection Hg as <- <- <-. cbn [SESSIONS]. rewrite !lookup_insert.
    repeat case_decide; try congruence.
    + intros [= <-] Hb. apply Hok in Hb. lia.
    + intros Ha [= <-]. apply Hok in Ha. lia.
    + apply Hinj.
Qed.

(** X5. No two session ids share an object, and every id in the store
    is bound to an object, in every world the server reaches. *)
Theorem reachable_store_injective (w : World) :
  reachable B cfg w ->
  (forall a b l, SESSIONS w !! a = Some l -> SESSIONS w !! b = Some l -> a = b) /\
  (forall sid l, SESSIONS w !! sid = Some l -> is_Some (heap w !! l)).
Proof.
  intros Hreach. split.
  - induction Hreach as [|w fuel req out w' Hreach IH Hstep].
    + intros a b l Ha. unfold empty_world in Ha. cbn [SESSIONS] in Ha.
      rewrite lookup_empty in Ha. discriminate Ha.
    + eapply handle_message_store_injective; eauto.
      now apply (reachable_store_ok B cfg).
  - intros sid l Hb. apply lookup_lt_is_Some.
    eapply (reachable_store_ok B cfg); eauto.
Qed.

End OneSession.

(** ** The roles of the messages *)

Section Roles.

Variable B : Backend.
Variable cfg : Config.

Lemma roles_ok_append (r c : string) (s : SessionState) :
  r = "user" \/ r = "assistant" ->
  roles_ok s -> roles_ok (append_message {| role := r; content := c |} s).
Proof.
  intros Hr Hs. unfold roles_ok. simpl. apply Forall_app. split; [exact Hs|].
  apply Forall_cons. split; [exact Hr | apply Forall_nil_2].
Qed.

Lemma post_modify_roles_user (l : nat) (c : string) :
  post (modify l (append_message {| role := "user"; content := c |}))
       (keeps (fun _ => roles_ok)).
Proof. apply post_modify_keeps. intros _ s. apply roles_ok_append. now left. Qed.

Lemma post_modify_roles_assistant (l : nat) (c : string) :
  post (modify l (append_message {| role := "assistant"; content := c |}))
       (keeps (fun _ => roles_ok)).
Proof. apply post_modify_keeps. intros _ s. apply roles_ok_append. now right. Qed.

Lemma post_handle_message_roles (fuel : nat) (req : ChatRequest) :
  post (handle_message B cfg fuel req) (keeps (fun _ => roles_ok)).
Proof.
  pose proof post_modify_roles_user as Hu.
  pose proof post_modify_roles_assistant as Ha.
  pose proof (keeps_refl (fun _ => roles_ok)) as Hr.
  pose proof (keeps_trans (fun _ => roles_ok)) as Ht.
  assert (Hc : forall c w, keeps (fun _ => roles_ok) w (record_call c w))
    by (intros c w; apply keeps_call; auto).
  assert (Hi : forall l i, post (modify l (set_last_intent i)) (keeps (fun _ => roles_ok)))
    by (intros l i; apply post_modify_keeps; auto).
  assert (Hg : forall session p st,
             post (generate_image B cfg session p st) (keeps (fun _ => roles_ok)))
    by (apply post_generate_image_keeps; auto).
  assert (Hv : forall fuel session p secs sz,
             post (generate_video B cfg fuel session p secs sz)
               (keeps (fun _ => roles_ok)))
    by (apply post_generate_video_keeps; auto).
  assert (Hs : forall sid, post (get_or_create_session B sid) (keeps (fun _ => roles_ok)))
    by (apply post_get_or_create_session_keeps; auto; intros _; constructor).
  unfold handle_message.
  apply (post_bind _ Ht); [apply Hs|]. intros found.
  apply post_if; [now apply post_raise|].
  apply (post_bind _ Ht); [unfold route_intent; post_auto Hr Ht Hc|]. intros decision.
  apply (post_bind _ Ht); [apply Hu|]. intros _.
  apply post_try_except.
  destruct decision as [d|]; simpl; [|now apply post_raise].
  destruct (intent d); unfold generate_text; post_auto Hr Ht Hc.
Qed.

(** X6. Every message the server records has the role [user] or
    [assistant], in every session of every world it reaches. *)
Theorem reachable_roles (w : World) (l : nat) (s : SessionState) (m : Message) :
  reachable B cfg w ->
  heap w !! l = Some s ->
  m ∈ messages s ->
  role m = "user" \/ role m = "assistant".
Proof.
  intros Hreach.
  assert (Hall : Forall roles_ok (heap w)).
  { induction Hreach as [|w fuel req out w' _ IH Hstep]; [constructor|].
    exact (post_handle_message_roles fuel req w out w' Hstep IH). }
  intros Hl Hm. rewrite Forall_lookup in Hall. specialize (Hall l s Hl).
  unfold roles_ok in Hall. rewrite Forall_forall in Hall. exact (Hall m Hm).
Qed.

End Roles.

(** ** More on the poller *)

Section PollerMore.

Variable B : Backend.
Variable cfg : Config.

Lemma poll_call_time (video_id : string) (w : World) :
  extends_by (poll_call cfg video_id) w (record_call TimeTime w).
Proof. apply extends_by_call. now left. Qed.

Lemma poll_call_retrieve (video_id : string) (w : World) :
  extends_by (poll_call cfg video_id) w
    (record_call (VideosRetrieve video_id) (record_call TimeTime w)).
Proof.
  eapply extends_by_trans; [apply poll_call_time|].
  apply extends_by_call. right. now left.
Qed.

Lemma poll_call_sleep (video_id : string) (w : World) :
  extends_by (poll_call cfg video_id) w
    (record_call (TimeSleep (VIDEO_POLL_SECONDS cfg))
       (record_call (VideosRetrieve video_id) (record_call TimeTime w))).
Proof.
  eapply extends_by_trans; [apply poll_call_retrieve|].
  apply extends_by_call. right. now right.
Qed.

Lemma poll_loop_calls (fuel : nat) (deadline : float) (video_id : string)
    (w w' : World) (out : outcome VideoJob) :
  poll_loop B cfg fuel deadline video_id w = (out, w') ->
  extends_by (poll_call cfg video_id) w w'.
Proof.
  revert w. induction fuel as [|fuel IH]; intros w H.
  - injection H as _ <-. apply extends_by_refl.
  - rewrite poll_loop_step in H. cbv zeta in H.
    destruct (PrimFloat.ltb _ deadline).
    2: { injection H as _ <-. apply poll_call_time. }
    destruct (video_reply B _) as [msg|job].
    { injection H as _ <-. apply poll_call_retrieve. }
    destruct (is_str (status job) "completed").
    { injection H as _ <-. apply poll_call_retrieve. }
    destruct (is_str (status job) "failed").
    { injection H as _ <-. apply poll_call_retrieve. }
    destruct (sleep_reply B _).
    { injection H as _ <-. apply poll_call_sleep. }
    eapply extends_by_trans; [apply poll_call_sleep | apply IH, H].
Qed.

(** X7. The poller only observes: it reads the clock, retrieves the
    job it was given and sleeps; the store and the sessions are as
    before, whatever it ends with. *)
Theorem poll_video_until_done_observes (fuel : nat) (video_id : string)
    (w w' : World) (out : outcome VideoJob) :
  poll_video_until_done B cfg fuel video_id w = (out, w') ->
  SESSIONS w' = SESSIONS w /\ heap w' = heap w /\
  exists later,
    trace w' = later ++ trace w /\
    Forall (fun c => c = TimeTime \/ c = VideosRetrieve video_id
                     \/ c = TimeSleep (VIDEO_POLL_SECONDS cfg)) later.
Proof.
  intros H.
  destruct (post_poll_same_store B cfg fuel video_id w out w' H) as [Es Eh].
  split; [exact Es|]. split; [exact Eh|].
  unfold poll_video_until_done, bind, observe in H.
  apply poll_loop_calls in H.
  exact (extends_by_trans _ _ _ _ (poll_call_time video_id w) H).
Qed.

(** The poller ends once the clock has reached the deadline: if the
    clock is not before the deadline from its [n]-th reading on, more
    than [n] rounds of fuel are never used up. *)
Lemma poll_loop_ends (deadline : float) (video_id : string) (n fuel : nat) (w : World) :
  (forall tr, (n <= count_calls is_time tr)%nat ->
              PrimFloat.ltb (clock B tr) deadline = false) ->
  (0 < fuel)%nat ->
  (n <= fuel + count_calls is_time (trace w))%nat ->
  fst (poll_loop B cfg fuel deadline video_id w) <> OutOfFuel.
Proof.
  intros Hclock. revert w. induction fuel as [|fuel IH]; intros w Hpos Hn; [lia|].
  rewrite poll_loop_step. cbv zeta.
  destruct (PrimFloat.ltb (clock B (trace (record_call TimeTime w))) deadline) eqn:Ec;
    [|discriminate].
  destruct (video_reply B _) as [msg|job]; [discriminate|].
  destruct (is_str (status job) "completed"); [discriminate|].
  destruct (is_str (status job) "failed"); [discriminate|].
  destruct (sleep_reply B _); [discriminate|].
  assert (Hlt : (count_calls is_time (TimeTime :: trace w) < n)%nat).
  { destruct (Nat.le_gt_cases n (count_calls is_time (TimeTime :: trace w)))
      as [Hle|Hgt]; [|exact Hgt].
    apply Hclock in Hle. cbn [trace record_call] in Ec. congruence. }
  assert (Hc : count_calls is_time (TimeTime :: trace w)
               = S (count_calls is_time (trace w))) by reflexivity.
  apply IH.
  - lia.
  - unfold record_call, count_calls in *. cbn [trace] in *.
    rewrite !filter_cons in *. simpl in *. lia.
Qed.

(** X8. The poller ends by the deadline.  If from some reading of the
    clock on the time is not before the deadline, the poller returns or
    raises within that many rounds. *)
Theorem poll_video_until_done_ends (video_id : string) (n fuel : nat) (w : World) :
  (forall tr, (n <= count_calls is_time tr)%nat ->
              PrimFloat.ltb (clock B tr)
                (PrimFloat.add (clock B (TimeTime :: trace w))
                   (VIDEO_TIMEOUT_SECONDS cfg)) = false) ->
  (0 < fuel)%nat ->
  (n <= fuel)%nat ->
  (exists job, fst (poll_video_until_done B cfg fuel video_id w) = Return job) \/
  (exists e, fst (poll_video_until_done B cfg fuel video_id w) = Raise e).
Proof.
  intros Hclock Hpos Hn.
  pose proof (poll_loop_ends _ video_id n fuel (record_call TimeTime w) Hclock Hpos) as H.
  unfold poll_video_until_done, bind, observe.
  change (trace (record_call TimeTime w)) with (TimeTime :: trace w).
  destruct (poll_loop B cfg fuel _ video_id (record_call TimeTime w)) as [[job|e|] w'];
    simpl in *; eauto.
  exfalso. apply H; [lia | reflexivity].
Qed.

(** More fuel does not change a run that ended. *)
Lemma poll_loop_more_fuel (fuel k : nat) (deadline : float) (video_id : string)
    (w w' : World) (out : outcome VideoJob) :
  poll_loop B cfg fuel deadline video_id w = (out, w') ->
  out <> OutOfFuel ->
  poll_loop B cfg (fuel + k) deadline video_id w = (out, w').
Proof.
  revert w. induction fuel as [|fuel IH]; intros w H Hout.
  - injection H as <- _. congruence.
  - change (S fuel + k)%nat with (S (fuel + k)).
    rewrite poll_loop_step in *. cbv zeta in *.
    destruct (PrimFloat.ltb _ deadline); [|exact H].
    destruct (video_reply B _) as [msg|job]; [exact H|].
    destruct (is_str (status job) "completed"); [exact H|].
    destruct (is_str (status job) "failed"); [exact H|].
    destruct (sleep_reply B _); [exact H|]. now apply IH.
Qed.

Lemma generate_video_more_fuel (fuel k session : nat) (p : string)
    (secs sz : option string) (w w' : World) (out : outcome string) :
  generate_video B cfg fuel session p secs sz w = (out, w') ->
  out <> OutOfFuel ->
  generate_video B cfg (fuel + k) session p secs sz w = (out, w').
Proof.
  intros H Hout. rewrite generate_video_unfold in *.
  destruct (submit_video B cfg session p secs sz w) as [[job|e|] w1]; try exact H.
  rewrite generate_video_after_poll in *.
  destruct (poll_video_until_done B cfg fuel (job_id job) w1) as [o w2] eqn:Ep.
  assert (Ho : o <> OutOfFuel).
  { intros ->. injection H as <- _. congruence. }
  unfold poll_video_until_done, bind, observe in Ep |- *.
  rewrite (poll_loop_more_fuel fuel k _ _ _ _ _ Ep Ho). exact H.
Qed.

(** Fuel only bounds the poller: a request that ended with a
    response or an error ends in the same way, in the same world, with
    any larger bound. *)
Theorem handle_message_more_fuel (fuel k : nat) (req : ChatRequest) (w w' : World)
    (out : outcome ChatResponse) :
  handle_message B cfg fuel req w = (out, w') ->
  out <> OutOfFuel ->
  handle_message B cfg (fuel + k) req w = (out, w').
Proof.
  intros H Hout. rewrite handle_message_unfold in *.
  destruct (get_or_create_session B (session_id req) w) as [[[sid l]|e|] w1];
    try exact H.
  destruct (negb (nonempty (strip (text req)))); [exact H|].
  destruct (route_intent B cfg (strip (text req)) l w1) as [[dec|e|] w2];
    try exact H.
  destruct dec as [d|]; [|exact H].
  unfold try_except, dispatch in *.
  destruct (intent d); try exact H.
  unfold bind at 1. unfold bind at 1 in H.
  destruct (generate_video B cfg fuel l (prompt d) _ _ _) as [o wg] eqn:Eg.
  assert (Ho : o <> OutOfFuel).
  { intros ->. injection H as <- _. congruence. }
  rewrite (generate_video_more_fuel fuel k _ _ _ _ _ _ _ Eg Ho). exact H.
Qed.

End PollerMore.

(** ** What an answered request leaves behind *)

Section Answered.

Variable B : Backend.
Variable cfg : Config.

Lemma resolved_id_is_chosen (session_id : option string) (w w1 : World)
    (sid : string) (l : nat) :
  get_or_create_session B session_id w = (Return (sid, l), w1) ->
  sid = chosen_id B session_id w /\ SESSIONS w1 !! sid = Some l.
Proof.
  intros Hg. destruct (known_session session_id w) as [l0|] eqn:Hk.
  - rewrite (get_or_create_session_found B _ l0 w Hk) in Hg. injection Hg as <- <- <-.
    unfold known_session in Hk. unfold chosen_id.
    destruct (truthy session_id); [auto | discriminate Hk].
  - rewrite (get_or_create_session_created B _ w Hk) in Hg. injection Hg as <- <- <-.
    split; [reflexivity | apply lookup_insert_eq].
Qed.

Lemma dispatch_session_id (fuel : nat) (sid : string) (l : nat)
    (decision : option RouteDecision) (w w' : World) (resp : ChatResponse) :
  dispatch B cfg fuel sid l decision w = (Return resp, w') -> r_session_id resp = sid.
Proof.
  intros H. destruct decision as [d|]; [|discriminate H].
  unfold dispatch in H. destruct (intent d); unfold bind at 1 in H.
  - destruct (generate_text B cfg l (prompt d) w) as [[t|e|] wg]; try discriminate H.
    cbv [bind modify ret] in H. now injection H as <- _.
  - destruct (generate_image B cfg l (prompt d) (style d) w) as [[t|e|] wg];
      try discriminate H.
    cbv [bind modify ret] in H. now injection H as <- _.
  - destruct (generate_video B cfg fuel l (prompt d) _ _ w) as [[t|e|] wg];
      try discriminate H.
    cbv [bind modify ret] in H. now injection H as <- _.
Qed.

(** The id in a response is the id the session was resolved to. *)
Lemma handle_message_session_id (fuel : nat) (req : ChatRequest) (w w' : World)
    (resp : ChatResponse) :
  handle_message B cfg fuel req w = (Return resp, w') ->
  r_session_id resp = chosen_id B (session_id req) w /\
  exists l, SESSIONS w' !! r_session_id resp = Some l.
Proof.
  intros H.
  destruct (handle_message_after_resolution B cfg fuel req w w' _ H)
    as (sid & l & w1 & Hg & [Es _] & _).
  destruct (resolved_id_is_chosen _ _ _ _ _ Hg) as [Hsid Hb].
  rewrite handle_message_unfold, Hg in H.
  destruct (negb (nonempty (strip (text req)))); [discriminate H|].
  destruct (route_intent B cfg (strip (text req)) l w1) as [[dec|e|] w2];
    try discriminate H.
  apply try_except_returns, dispatch_session_id in H.
  rewrite H, Es. split; [exact Hsid | eauto].
Qed.

(** X9. The session id of a response leads back to the session: it is
    not empty, and resolving it in the world the request left creates
    nothing and returns the object the store holds for it. *)
Theorem returned_session_id_resolves (fuel : nat) (req : ChatRequest) (w w' : World)
    (resp : ChatResponse) :
  handle_message B cfg fuel req w = (Return resp, w') ->
  r_session_id resp <> "" /\
  exists l,
    SESSIONS w' !! r_session_id resp = Some l /\
    get_or_create_session B (Some (r_session_id resp)) w'
    = (Return (r_session_id resp, l), w').
Proof.
  intros H. destruct (handle_message_session_id fuel req w w' resp H) as [Hsid [l Hl]].
  pose proof (chosen_id_nonempty B (session_id req) w) as Hne. rewrite <- Hsid in Hne.
  split; [intros E; rewrite E in Hne; discriminate Hne|].
  exists l. split; [exact Hl|].
  rewrite (get_or_create_session_found B (Some (r_session_id resp)) l w').
  - simpl. now rewrite Hne.
  - unfold known_session. simpl. now rewrite Hne.
Qed.

(** A video turn that returns has recorded its job as completed. *)
Lemma dispatch_video_returns (fuel : nat) (sid : string) (l : nat) (d : RouteDecision)
    (w w' : World) (resp : ChatResponse) :
  dispatch B cfg fuel sid l (Some d) w = (Return resp, w') ->
  intent d = Video ->
  (l < length (heap w))%nat ->
  exists job c later,
    is_submission c = true /\
    video_reply B (c :: trace w) = inr job /\
    trace w' = later ++ c :: trace w /\
    Forall quiet later /\
    last_video_id (heap w' !!! l) = Some (job_id job) /\
    last_video_completed (heap w' !!! l) = true.
Proof.
  intros H Ei Hl. unfold dispatch in H. rewrite Ei in H. unfold bind at 1 in H.
  destruct (generate_video B cfg fuel l (prompt d) (option_map seconds_str (seconds d))
              (option_map size_str (size d)) w) as [[url|e|] wg] eqn:Eg;
    try discriminate H.
  destruct (generate_video_trace B cfg fuel l (prompt d)
              (option_map seconds_str (seconds d)) (option_map size_str (size d)) w)
    as (later & Et & F).
  rewrite Eg in Et. cbn [snd] in Et.
  rewrite generate_video_unfold in Eg.
  rewrite submit_video_run in Eg, Et. cbv zeta in Eg, Et.
  destruct (video_reply B _) as [f|job] eqn:Ev; [discriminate Eg|].
  cbn [snd trace] in Et.
  rewrite generate_video_after_poll in Eg.
  match type of Eg with
  | context [poll_video_until_done B cfg fuel (job_id job) ?w1] =>
      destruct (poll_video_until_done B cfg fuel (job_id job) w1)
        as [[done|e|] w2] eqn:Ep; try discriminate Eg;
      apply post_poll_same_store in Ep as [_ Eh]
  end.
  apply post_download_same_store in Eg as [_ Eh']. cbn [heap] in Eh, Eh'.
  cbv [bind modify ret] in H. injection H as _ <-. cbn [heap trace].
  eexists job, _, later. split; [|split; [exact Ev|split; [exact Et|split; [exact F|]]]].
  { now destruct (remix_ready _). }
  rewrite Eh', Eh, !list_lookup_total_alter_eq by (rewrite ?length_alter; lia).
  split; reflexivity.
Qed.

(** X10. A video turn that is answered leaves the session ready for a
    remix of the job it opened.  The turn makes one creation or remix
    call; the session then records the id of the job that call
    returned, marks it completed and has video as its last intent, so
    that the next video turn on the session asks for a remix of that
    very job. *)
Theorem answered_video_turn_then_remix (fuel : nat) (req : ChatRequest) (w w' : World)
    (resp : ChatResponse) :
  store_ok w ->
  handle_message B cfg fuel req w = (Return resp, w') ->
  r_intent resp = Video ->
  exists l job c before later,
    SESSIONS w' !! r_session_id resp = Some l /\
    trace w' = later ++ c :: before ++ trace w /\
    Forall quiet before /\ Forall quiet later /\
    is_submission c = true /\
    video_reply B (c :: before ++ trace w) = inr job /\
    last_intent (heap w' !!! l) = Some Video /\
    last_video_id (heap w' !!! l) = Some (job_id job) /\
    last_video_completed (heap w' !!! l) = true /\
    (job_id job <> "" ->
     forall fuel' p secs sz,
       exists later',
         trace (snd (generate_video B cfg fuel' l p secs sz w'))
         = later' ++ VideosRemix (job_id job) p :: trace w' /\
         Forall quiet later').
Proof.
  intros Hok H Hv.
  destruct (handle_message_returns B cfg fuel req w w' resp Hok H)
    as (l & Hb & Hl & Hi & _).
  rewrite handle_message_unfold in H.
  destruct (get_or_create_session_resolves B (session_id req) w Hok)
    as (sid & l0 & w1 & Hg & Hb0 & Hl0 & _).
  rewrite Hg in H.
  assert (Hu : exists u, trace w1 = u ++ trace w /\ Forall quiet u).
  { destruct (known_session (session_id req) w) as [lk|] eqn:Hk.
    - rewrite (get_or_create_session_found B _ lk w Hk) in Hg. injection Hg as _ _ <-.
      exists []. split; [reflexivity | constructor].
    - rewrite (get_or_create_session_created B _ w Hk) in Hg. injection Hg as _ _ <-.
      cbn [trace]. destruct (truthy (session_id req)).
      + exists []. split; [reflexivity | constructor].
      + exists [Uuid4]. split; [reflexivity | repeat constructor]. }
  destruct Hu as (u & Eu & Fu).
  destruct (negb (nonempty (strip (text req)))); [discriminate H|].
  assert (Er' : exists c0, trace (snd (route_intent B cfg (strip (text req)) l0 w1))
                           = c0 :: trace w1 /\ quiet c0).
  { unfold route_intent, bind, read, perform. cbn.
    destruct (parse_reply B _); cbn; eexists; split; reflexivity. }
  destruct Er' as (c0 & Ec0 & Fc0).
  destruct (route_intent B cfg (strip (text req)) l0 w1) as [[dec|e|] w2] eqn:Er;
    try discriminate H.
  cbn [snd] in Ec0.
  apply post_route_intent_same_store in Er as [Es2 Eh2].
  apply try_except_returns in H.
  pose proof (post_dispatch_same_shape B cfg _ _ _ _ _ _ _ H) as [Es3 _].
  pose proof H as H'.
  apply dispatch_returns in H'
    as (Hsid & _ & d & -> & Hd); [|cbn [heap]; rewrite length_alter, Eh2; lia].
  assert (l0 = l) as ->.
  { rewrite Hsid, Es3 in Hb. cbn [SESSIONS] in Hb. rewrite Es2, Hb0 in Hb. congruence. }
  apply dispatch_video_returns in H as (job & c & later & Hc & Hj & Et & F & Hid & Hdone);
    [|congruence | cbn [heap]; rewrite length_alter, Eh2; lia].
  cbn [trace] in Hj, Et. rewrite Ec0, Eu in Hj, Et.
  exists l, job, c, (c0 :: u), later. rewrite Hi, Hv.
  split; [exact Hb|]. split; [exact Et|].
  split; [constructor; [exact Fc0 | exact Fu]|]. split; [exact F|].
  split; [exact Hc|]. split; [exact Hj|].
  split; [reflexivity|]. split; [exact Hid|]. split; [exact Hdone|].
  intros Hne fuel' p secs sz.
  destruct (generate_video_trace B cfg fuel' l p secs sz w') as (later' & Et' & F').
  rewrite submit_video_trace in Et'.
  assert (Hr : remix_ready (heap w' !!! l) = true).
  { unfold remix_ready. rewrite Hi, Hv, Hid, Hdone. simpl.
    destruct (job_id job); [contradiction | reflexivity]. }
  rewrite Hr, Hid in Et'. simpl in Et'.
  destruct (job_id job) eqn:Ej; [contradiction|].
  exists later'. auto.
Qed.

End Answered.

(** ** The output items of an image response *)

Lemma find_image_b64_app (pre rest : list OutputItem) :
  Forall (fun x => is_image_item x = false) pre ->
  find_image_b64 (pre ++ rest) = find_image_b64 rest.
Proof.
  induction 1 as [|x pre Hx _ IH]; [reflexivity|].
  simpl. unfold is_image_item in Hx. now rewrite Hx.
Qed.

Lemma find_image_b64_none (items : list OutputItem) :
  Forall (fun x => is_image_item x = false) items -> find_image_b64 items = None.
Proof.
  intros H. rewrite <- (app_nil_r items). now rewrite find_image_b64_app.
Qed.

(** X11. Only the first image-generation item of a response counts:
    the payload found is the result of the first item whose type is
    [image_generation_call], whatever follows it. *)
Theorem find_image_b64_first (items : list OutputItem) (b : string) :
  find_image_b64 items = Some b <->
  exists pre it post,
    items = pre ++ it :: post /\
    Forall (fun x => is_image_item x = false) pre /\
    is_image_item it = true /\
    item_result it = Some b.
Proof.
  split.
  - induction items as [|x rest IH]; [discriminate|].
    simpl. destruct (is_str (item_type x) "image_generation_call") eqn:Ex.
    + intros Hr. exists [], x, rest. repeat split; auto.
    + intros Hr. destruct (IH Hr) as (pre & it & post & -> & Hpre & Hit & Hres).
      exists (x :: pre), it, post. repeat split; auto.
  - intros (pre & it & post & -> & Hpre & Hit & Hres).
    rewrite find_image_b64_app by exact Hpre. simpl.
    unfold is_image_item in Hit. now rewrite Hit.
Qed.

Lemma other_shape_is_image_item (it : OutputItem) :
  is_image_item (other_shape it) = is_image_item it.
Proof.
  destruct it as [[t|] r | [t|] r]; unfold is_image_item; simpl; try reflexivity;
    destruct t; reflexivity.
Qed.

Lemma other_shape_result (it : OutputItem) :
  truthy (item_result (other_shape it)) = truthy (item_result it) /\
  or_else (item_result (other_shape it)) "" = or_else (item_result it) "".
Proof.
  destruct it as [t [r|] | t [r|]]; simpl; try (split; reflexivity);
    destruct r; split; reflexivity.
Qed.

Lemma find_image_b64_other_shape (items : list OutputItem) :
  truthy (find_image_b64 (map other_shape items)) = truthy (find_image_b64 items) /\
  or_else (find_image_b64 (map other_shape items)) ""
  = or_else (find_image_b64 items) "".
Proof.
  induction items as [|x rest IH]; [split; reflexivity|].
  simpl. fold (is_image_item (other_shape x)). fold (is_image_item x).
  rewrite other_shape_is_image_item.
  destruct (is_image_item x); [apply other_shape_result | exact IH].
Qed.

(** X12. The two shapes of an output item are read alike: an image
    turn goes the same way whether the backend hands its output items
    over as typed objects or as dicts. *)
Theorem generate_image_any_shape (B : Backend) (cfg : Config) (session : nat)
    (p : string) (st : option string) (w : World) :
  generate_image (reshaped B) cfg session p st w = generate_image B cfg session p st w.
Proof.
  rewrite !generate_image_run. cbv zeta. cbn [create_reply reshaped].
  destruct (create_reply B _) as [msg|resp]; [reflexivity|].
  cbn [output resp_id b64decode].
  destruct (find_image_b64_other_shape (output resp)) as [-> ->].
  reflexivity.
Qed.

Section ImageOutcome.

Variable B : Backend.
Variable cfg : Config.

Lemma save_bytes_returns (ext : string) (data : list byte) (w w' : World) (url : string) :
  save_bytes B cfg ext data w = (Return url, w') ->
  url = "/outputs/" +:+ uuid_hex (uuid4_reply B (Uuid4 :: trace w)) +:+ "." +:+ ext /\
  trace w'
  = WriteFile (path_join (OUTPUT_DIR cfg)
                 (uuid_hex (uuid4_reply B (Uuid4 :: trace w)) +:+ "." +:+ ext)) data
    :: Uuid4 :: trace w.
Proof.
  unfold save_bytes, bind, observe, perform, ret. cbn [trace record_call].
  destruct (write_reply B _); [discriminate|]. intros [= <- <-]. auto.
Qed.

(** X13. An image turn fails for want of output exactly when the
    response holds no image payload: no image-generation item, or a
    first one without a result.  Nothing is written then, and the turn
    ends right after the request.  A file is written only for a payload
    that was found and decoded, and the URL returned names that file. *)
Theorem generate_image_outcome (session : nat) (p : string) (st : option string)
    (w : World) (resp : Response) :
  create_reply B
    (ResponsesCreate (TEXT_MODEL cfg)
       (InputText (if truthy st then p +:+ nl +:+ nl +:+ "Style: " +:+ or_else st ""
                   else p))
       ["image_generation"] (image_kwargs (heap w !!! session)) :: trace w) = inr resp ->
  (truthy (find_image_b64 (output resp)) = false <->
   fst (generate_image B cfg session p st w)
   = Raise (HTTPException 500 "No image generated in response output.")) /\
  (truthy (find_image_b64 (output resp)) = false ->
   trace (snd (generate_image B cfg session p st w))
   = ResponsesCreate (TEXT_MODEL cfg)
       (InputText (if truthy st then p +:+ nl +:+ nl +:+ "Style: " +:+ or_else st ""
                   else p))
       ["image_generation"] (image_kwargs (heap w !!! session)) :: trace w) /\
  (forall url,
      fst (generate_image B cfg session p st w) = Return url ->
      exists payload data u,
        find_image_b64 (output resp) = Some payload /\ payload <> "" /\
        b64decode B payload = inr data /\
        url = "/outputs/" +:+ uuid_hex u +:+ ".png" /\
        exists rest,
          trace (snd (generate_image B cfg session p st w))
          = WriteFile (path_join (OUTPUT_DIR cfg) (uuid_hex u +:+ ".png")) data :: rest).
Proof.
  intros Hresp. rewrite generate_image_run. cbv zeta. rewrite Hresp.
  destruct (find_image_b64 (output resp)) as [payload|] eqn:Ef; cbn [truthy].
  2: { simpl. repeat split; auto; discriminate. }
  destruct (nonempty payload) eqn:Hn; cbn [negb].
  2: { simpl. repeat split; auto; discriminate. }
  cbn [or_else]. rewrite Hn. unfold bind, of_reply.
  destruct (b64decode B payload) as [f|data] eqn:Ed.
  { destruct f; simpl; repeat split; try discriminate. }
  cbv [ret]. cbv beta iota.
  match goal with
  | |- context [save_bytes B cfg "png" data ?w1] =>
      destruct (save_bytes B cfg "png" data w1) as [[u|e|] w2] eqn:Es
  end.
  - apply save_bytes_returns in Es as [-> Et]. simpl fst. simpl snd.
    split; [split; discriminate|]. split; [discriminate|].
    intros url [= <-]. eexists payload, data, _.
    split; [reflexivity|]. split; [now destruct payload|].
    split; [exact Ed|]. split; [reflexivity|]. eexists. exact Et.
  - simpl. unfold save_bytes, bind, observe, perform in Es.
    destruct (write_reply B _) as [f|]; [|discriminate Es]. injection Es as <- _.
    destruct f; repeat split; discriminate.
  - simpl. unfold save_bytes, bind, observe, perform in Es.
    destruct (write_reply B _); discriminate Es.
Qed.

End ImageOutcome.

(** ** Responses and what they refer to *)

Section Responses.

Variable B : Backend.
Variable cfg : Config.

Lemma generate_image_returns (session : nat) (p : string) (st : option string)
    (w w' : World) (url : string) :
  generate_image B cfg session p st w = (Return url, w') ->
  exists u, url = "/outputs/" +:+ uuid_hex u +:+ ".png".
Proof.
  rewrite generate_image_run. cbv zeta.
  destruct (create_reply B _) as [msg|resp]; [discriminate|].
  destruct (negb (truthy (find_image_b64 (output resp)))); [discriminate|].
  unfold bind, of_reply.
  destruct (b64decode B _) as [msg|data]; [discriminate|].
  cbv [ret]. cbv beta iota.
  match goal with
  | |- context [save_bytes B cfg "png" data ?w1] =>
      destruct (save_bytes B cfg "png" data w1) as [[u|e|] w2] eqn:Es
  end; try discriminate.
  apply save_bytes_returns in Es as [-> _]. intros [= <- _]. eauto.
Qed.

Lemma generate_video_returns (fuel session : nat) (p : string) (secs sz : option string)
    (w w' : World) (url : string) :
  generate_video B cfg fuel session p secs sz w = (Return url, w') ->
  exists u, url = "/outputs/" +:+ uuid_hex u +:+ ".mp4".
Proof.
  rewrite generate_video_unfold.
  destruct (submit_video B cfg session p secs sz w) as [[job|e|] w1]; try discriminate.
  rewrite generate_video_after_poll.
  destruct (poll_video_until_done B cfg fuel (job_id job) w1) as [[done|e|] w2];
    try discriminate.
  unfold download_video_mp4. unfold bind at 1. unfold perform.
  destruct (download_reply B _) as [msg|data]; [discriminate|].
  match goal with
  | |- context [save_bytes B cfg "mp4" data ?w1] =>
      destruct (save_bytes B cfg "mp4" data w1) as [[u|e|] w3] eqn:Es
  end; try discriminate.
  apply save_bytes_returns in Es as [-> _]. intros [= <- _]. eauto.
Qed.

Lemma dispatch_marker (fuel : nat) (sid : string) (l : nat)
    (decision : option RouteDecision) (w w' : World) (resp : ChatResponse) :
  dispatch B cfg fuel sid l decision w = (Return resp, w') ->
  (l < length (heap w))%nat ->
  r_content_type resp = r_intent resp /\
  match r_intent resp with
  | Text =>
      exists t,
        r_text resp = Some t /\ r_asset_url resp = None /\
        last (messages (heap w' !!! l)) = Some {| role := "assistant"; content := t |}
  | Image =>
      exists u,
        r_text resp = None /\
        r_asset_url resp = Some ("/outputs/" +:+ uuid_hex u +:+ ".png") /\
        last (messages (heap w' !!! l))
        = Some {| role := "assistant";
                  content := "[image generated] /outputs/" +:+ uuid_hex u +:+ ".png" |}
  | Video =>
      exists u,
        r_text resp = None /\
        r_asset_url resp = Some ("/outputs/" +:+ uuid_hex u +:+ ".mp4") /\
        last (messages (heap w' !!! l))
        = Some {| role := "assistant";
                  content := "[video generated] /outputs/" +:+ uuid_hex u +:+ ".mp4" |}
  end.
Proof.
  intros H Hl. destruct decision as [d|]; [|discriminate H].
  unfold dispatch in H. destruct (intent d); unfold bind at 1 in H.
  - rewrite generate_text_run in H. cbv zeta in H.
    destruct (create_reply B _) as [msg|answer]; [discriminate H|].
    cbv [bind modify ret] in H. injection H as <- <-. cbn.
    split; [reflexivity|]. eexists. split; [reflexivity|]. split; [reflexivity|].
    rewrite !list_lookup_total_alter_eq by (rewrite ?length_alter; lia).
    simpl. apply last_snoc.
  - destruct (generate_image B cfg l (prompt d) (style d) w) as [[url|e|] wg] eqn:Eg;
      try discriminate H.
    pose proof (post_generate_image_same_shape B cfg _ _ _ _ _ _ Eg) as [_ El].
    apply generate_image_returns in Eg as [u ->].
    cbv [bind modify ret] in H. injection H as <- <-. cbn.
    split; [reflexivity|]. exists u. split; [reflexivity|]. split; [reflexivity|].
    rewrite !list_lookup_total_alter_eq by (rewrite ?length_alter; lia).
    simpl. apply last_snoc.
  - destruct (generate_video B cfg fuel l (prompt d) _ _ w) as [[url|e|] wg] eqn:Eg;
      try discriminate H.
    pose proof (post_generate_video_same_shape B cfg _ _ _ _ _ _ _ _ Eg) as [_ El].
    apply generate_video_returns in Eg as [u ->].
    cbv [bind modify ret] in H. injection H as <- <-. cbn.
    split; [reflexivity|]. exists u. split; [reflexivity|]. split; [reflexivity|].
    rewrite !list_lookup_total_alter_eq by (rewrite ?length_alter; lia).
    simpl. apply last_snoc.
Qed.

(** X14. A response and the last message of its session agree.  A text
    response carries the reply, which is the last message; an image or
    video response carries no text but the URL of a [png] or [mp4] file
    under [/outputs/], and the last message is the marker that names
    that URL; all of them are assistant messages. *)
Theorem answered_request_marker (fuel : nat) (req : ChatRequest) (w w' : World)
    (resp : ChatResponse) :
  store_ok w ->
  handle_message B cfg fuel req w = (Return resp, w') ->
  r_content_type resp = r_intent resp /\
  match r_intent resp with
  | Text =>
      exists t,
        r_text resp = Some t /\ r_asset_url resp = None /\
        last (session_messages w' (r_session_id resp))
        = Some {| role := "assistant"; content := t |}
  | Image =>
      exists u,
        r_text resp = None /\
        r_asset_url resp = Some ("/outputs/" +:+ uuid_hex u +:+ ".png") /\
        last (session_messages w' (r_session_id resp))
        = Some {| role := "assistant";
                  content := "[image generated] /outputs/" +:+ uuid_hex u +:+ ".png" |}
  | Video =>
      exists u,
        r_text resp = None /\
        r_asset_url resp = Some ("/outputs/" +:+ uuid_hex u +:+ ".mp4") /\
        last (session_messages w' (r_session_id resp))
        = Some {| role := "assistant";
                  content := "[video generated] /outputs/" +:+ uuid_hex u +:+ ".mp4" |}
  end.
Proof.
  intros Hok H.
  destruct (handle_message_returns B cfg fuel req w w' resp Hok H) as (l & Hb & _).
  unfold session_messages. rewrite Hb.
  rewrite handle_message_unfold in H.
  destruct (get_or_create_session_resolves B (session_id req) w Hok)
    as (sid & l0 & w1 & Hg & Hb0 & Hl0 & _).
  rewrite Hg in H.
  destruct (negb (nonempty (strip (text req)))); [discriminate H|].
  destruct (route_intent B cfg (strip (text req)) l0 w1) as [[dec|e|] w2] eqn:Er;
    try discriminate H.
  apply post_route_intent_same_store in Er as [Es2 Eh2].
  apply try_except_returns in H.
  pose proof (post_dispatch_same_shape B cfg _ _ _ _ _ _ _ H) as [Es3 _].
  assert (l0 = l) as ->.
  { pose proof (dispatch_session_id B cfg _ _ _ _ _ _ _ H) as Hsid.
    rewrite Hsid, Es3 in Hb. cbn [SESSIONS] in Hb. rewrite Es2, Hb0 in Hb. congruence. }
  eapply dispatch_marker; [exact H|]. cbn [heap]. rewrite length_alter, Eh2. exact Hl0.
Qed.

(** X15. An error of class [Exception] that is no [HTTPException] comes
    from the router alone: the request then ended at the routing call,
    which raised it, with the objects as session resolution left them,
    so that no message was recorded and no generator was called.  (An
    error that is no [Exception] at all, a [KeyboardInterrupt] say, can
    also come out of a generator: see [interrupted_during_video_turn].) *)
Theorem raw_exception_is_routing_failure (fuel : nat) (req : ChatRequest)
    (w w' : World) (msg : string) :
  handle_message B cfg fuel req w = (Raise (Exception msg), w') ->
  exists sid l w1 model input,
    get_or_create_session B (session_id req) w = (Return (sid, l), w1) /\
    w' = record_call (ResponsesParse model input) w1 /\
    parse_reply B (trace w') = inl (Failure msg).
Proof.
  intros H. rewrite handle_message_unfold in H.
  destruct (get_or_create_session_returns B (session_id req) w) as (sid & l & w1 & Hg).
  rewrite Hg in H. exists sid, l, w1.
  destruct (negb (nonempty (strip (text req)))); [discriminate H|].
  destruct (route_intent B cfg (strip (text req)) l w1) as [[dec|e|] w2] eqn:Er;
    try discriminate H.
  - apply raises_try_dispatch in H.
    destruct H as [[d H] | [[v H] | (nm & H & _)]]; discriminate H.
  - injection H as -> ->.
    unfold route_intent, bind, read, perform in Er.
    destruct (parse_reply B _) as [[m|nm]|dec] eqn:Ep; try discriminate Er.
    injection Er as -> <-. eexists _, _. split; [exact Hg|].
    split; [reflexivity | exact Ep].
Qed.

(** X16. The text backend is shown the whole conversation.  In a text
    turn that is answered, the request to the backend holds the
    messages the session had, then the text as sent and the routed
    prompt; the reply is recorded right after them. *)
Theorem answered_text_turn_request (fuel : nat) (req : ChatRequest) (w w' : World)
    (resp : ChatResponse) :
  store_ok w ->
  handle_message B cfg fuel req w = (Return resp, w') ->
  r_intent resp = Text ->
  exists shown reply rest,
    shown = prior_messages w (session_id req)
            ++ [ {| role := "user"; content := strip (text req) |};
                 {| role := "user"; content := routed_prompt resp |} ] /\
    trace w' = ResponsesCreate (TEXT_MODEL cfg) (InputMessages shown) [] None :: rest /\
    r_text resp = Some reply /\
    session_messages w' (r_session_id resp)
    = shown ++ [ {| role := "assistant"; content := reply |} ].
Proof.
  intros Hok H Hint.
  destruct (get_or_create_session_messages B (session_id req) w Hok)
    as (sid & l & w1 & s & Hg & Hb & Hs & <-).
  assert (Hlt : (l < length (heap w1))%nat) by (eapply lookup_lt_Some, Hs).
  rewrite handle_message_unfold, Hg in H.
  destruct (negb (nonempty (strip (text req)))); [discriminate H|].
  destruct (route_intent B cfg (strip (text req)) l w1) as [[dec|e|] w2] eqn:Er;
    try discriminate H.
  apply post_route_intent_same_store in Er as [Es2 Eh2].
  apply try_except_returns in H.
  destruct dec as [d|]; [|discriminate H].
  unfold dispatch in H.
  destruct (intent d) eqn:Ei; unfold bind at 1 in H.
  - rewrite generate_text_run in H. cbv zeta in H. cbn [SESSIONS heap trace] in H.
    destruct (create_reply B _) as [m|answer]; [discriminate H|].
    cbv [bind modify ret] in H. injection H as <- <-.
    unfold session_messages, routed_prompt.
    cbn [SESSIONS heap trace r_session_id r_text r_debug].
    rewrite Es2, Hb, Eh2.
    rewrite !list_lookup_total_alter_eq by (rewrite ?length_alter; exact Hlt).
    rewrite (list_lookup_total_correct _ _ _ Hs).
    eexists _, _, _. split; [reflexivity|].
    split; [simpl; rewrite <- !app_assoc; reflexivity|].
    split; [reflexivity|].
    simpl. rewrite <- !app_assoc. reflexivity.
  - destruct (generate_image B cfg l (prompt d) (style d) _) as [[u|e|] wg];
      try discriminate H.
    cbv [bind modify ret] in H. injection H as <- <-. discriminate Hint.
  - destruct (generate_video B cfg fuel l (prompt d) _ _ _) as [[u|e|] wg];
      try discriminate H.
    cbv [bind modify ret] in H. injection H as <- <-. discriminate Hint.
Qed.

End Responses.

(** ** One routing call and one generation request *)

Lemma count_calls_app (p : Call -> bool) (a b : list Call) :
  count_calls p (a ++ b) = (count_calls p a + count_calls p b)%nat.
Proof. unfold count_calls. now rewrite filter_app, length_app. Qed.

Lemma count_calls_silent (later : list Call) :
  Forall silent later ->
  count_calls is_parse later = 0%nat /\ count_calls is_generation later = 0%nat.
Proof.
  induction 1 as [|c later [Hp Hg] _ [IH1 IH2]]; [split; reflexivity|].
  unfold count_calls in *. rewrite !filter_cons.
  rewrite Hp, Hg. repeat case_decide; try discriminate. auto.
Qed.

Section OneRequest.

Variable B : Backend.
Variable cfg : Config.

Lemma silent_call (c : Call) (w : World) :
  silent c -> extends_by silent w (record_call c w).
Proof. apply extends_by_call. Qed.

Lemma image_finish_silent (resp : Response) :
  post (if negb (truthy (find_image_b64 (output resp)))
        then raise (HTTPException 500 "No image generated in response output.")
        else
          let* img_bytes :=
            of_reply (b64decode B (or_else (find_image_b64 (output resp)) "")) in
          save_bytes B cfg "png" img_bytes)
       (extends_by silent).
Proof.
  pose proof (extends_by_refl silent) as Hr.
  pose proof (extends_by_trans silent) as Ht.
  pose proof (extends_by_call silent) as Hc.
  apply post_if; [now apply post_raise|].
  apply post_bind; auto; [now apply post_of_reply|]. intros data.
  eapply post_save_bytes; eauto; split; reflexivity.
Qed.

Lemma video_finish_silent (fuel session : nat) (job : VideoJob) :
  post (poll_video_until_done B cfg fuel (job_id job) ;;
        modify session (set_last_video_completed true) ;;
        download_video_mp4 B cfg (job_id job))
       (extends_by silent).
Proof.
  pose proof (extends_by_refl silent) as Hr.
  pose proof (extends_by_trans silent) as Ht.
  pose proof (extends_by_call silent) as Hc.
  apply post_bind; auto.
  { eapply post_poll_video_until_done; eauto; split; reflexivity. }
  intros _. apply post_bind; auto.
  { apply post_modify_extends. }
  intros _. eapply post_download_video_mp4; eauto; split; reflexivity.
Qed.

(** What a turn adds to the trace: at most one generation request, and
    after it only calls that ask for nothing. *)
Lemma dispatch_trace (fuel : nat) (sid : string) (l : nat)
    (decision : option RouteDecision) (w w' : World) (out : outcome ChatResponse) :
  dispatch B cfg fuel sid l decision w = (out, w') ->
  exists later asked,
    trace w' = later ++ asked ++ trace w /\
    Forall silent later /\
    (asked = [] \/ exists g, asked = [g] /\ is_parse g = false).
Proof.
  intros H. destruct decision as [d|].
  2: { injection H as _ <-. exists [], []. auto. }
  unfold dispatch in H. destruct (intent d); unfold bind at 1 in H.
  - rewrite generate_text_run in H. cbv zeta in H.
    destruct (create_reply B _) as [msg|answer].
    + injection H as _ <-. eexists [], [_]. cbn [trace]. eauto 6.
    + cbv [bind modify ret] in H. injection H as _ <-.
      eexists [], [_]. cbn [trace]. eauto 6.
  - rewrite generate_image_run in H. cbv zeta in H.
    destruct (create_reply B _) as [msg|answer].
    + injection H as _ <-. eexists [], [_]. cbn [trace]. eauto 6.
    + match type of H with
      | context [let (_, _) := ?m ?w1 in _] =>
          destruct (m w1) as [[url|e|] wg] eqn:Eg;
          apply image_finish_silent in Eg as (later & Et & F)
      end; cbn [trace] in Et.
      * cbv [bind modify ret] in H. injection H as _ <-. cbn [trace].
        eexists later, [_]. rewrite Et. eauto 6.
      * injection H as _ <-. eexists later, [_]. rewrite Et. eauto 6.
      * injection H as _ <-. eexists later, [_]. rewrite Et. eauto 6.
  - rewrite generate_video_unfold, submit_video_run in H. cbv zeta in H.
    destruct (video_reply B _) as [msg|job].
    + injection H as _ <-. eexists [], [_]. cbn [trace record_call]. split; [reflexivity|].
      split; [constructor|]. right. eexists. split; [reflexivity|].
      now destruct (remix_ready _).
    + match type of H with
      | context [let (_, _) := ?m ?w1 in _] =>
          destruct (m w1) as [[url|e|] wg] eqn:Eg;
          apply video_finish_silent in Eg as (later & Et & F)
      end; cbn [trace] in Et.
      * cbv [bind modify ret] in H. injection H as _ <-. cbn [trace].
        eexists later, [_]. rewrite Et. split; [reflexivity|]. split; [exact F|].
        right. eexists. split; [reflexivity|]. now destruct (remix_ready _).
      * injection H as _ <-. eexists later, [_]. rewrite Et.
        split; [reflexivity|]. split; [exact F|].
        right. eexists. split; [reflexivity|]. now destruct (remix_ready _).
      * injection H as _ <-. eexists later, [_]. rewrite Et.
        split; [reflexivity|]. split; [exact F|].
        right. eexists. split; [reflexivity|]. now destruct (remix_ready _).
Qed.

(** X17. No retry.  Whatever it ends with, a request issues at most one
    routing call and at most one generation request (to the text or
    image backend, or for a video job). *)
Theorem handle_message_asks_once (fuel : nat) (req : ChatRequest) (w w' : World)
    (out : outcome ChatResponse) :
  handle_message B cfg fuel req w = (out, w') ->
  exists new,
    trace w' = new ++ trace w /\
    (count_calls is_parse new <= 1)%nat /\
    (count_calls is_generation new <= 1)%nat.
Proof.
  intros H. rewrite handle_message_unfold in H.
  destruct (get_or_create_session B (session_id req) w) as [[[sid l]|e|] w1] eqn:Eg.
  2,3: destruct (get_or_create_session_returns B (session_id req) w)
         as (? & ? & ? & Hg); congruence.
  assert (Hu : exists u, trace w1 = u ++ trace w /\ count_calls is_parse u = 0%nat
                         /\ count_calls is_generation u = 0%nat).
  { destruct (known_session (session_id req) w) as [l0|] eqn:Hk.
    - rewrite (get_or_create_session_found B _ l0 w Hk) in Eg. injection Eg as _ _ <-.
      now exists [].
    - rewrite (get_or_create_session_created B _ w Hk) in Eg. injection Eg as _ _ <-.
      cbn [trace]. destruct (truthy (session_id req)); [now exists [] | now exists [Uuid4]]. }
  destruct Hu as (u & Eu & Hup & Hug).
  destruct (negb (nonempty (strip (text req)))).
  { injection H as _ <-. exists u. rewrite Hup, Hug. auto. }
  assert (Er : exists c, trace (snd (route_intent B cfg (strip (text req)) l w1))
                         = c :: trace w1 /\ is_parse c = true /\ is_generation c = false).
  { unfold route_intent, bind, read, perform. cbn.
    destruct (parse_reply B _); cbn; eauto. }
  destruct Er as (c & Ec & Hcp & Hcg).
  destruct (route_intent B cfg (strip (text req)) l w1) as [[dec|e|] w2];
    cbn [snd] in Ec.
  2,3: injection H as _ <-; exists (c :: u); rewrite Ec, Eu;
       split; [reflexivity|];
       change (c :: u) with ([c] ++ u); rewrite !count_calls_app, Hup, Hug;
       unfold count_calls; rewrite !filter_cons, Hcp, Hcg; simpl; lia.
  assert (Hd : exists out0, dispatch B cfg fuel sid l dec
                              {| SESSIONS := SESSIONS w2;
                                 heap := alter (append_message
                                                  {| role := "user";
                                                     content := strip (text req) |})
                                           l (heap w2);
                                 trace := trace w2 |} = (out0, w')).
  { unfold try_except in H.
    destruct (dispatch B cfg fuel sid l dec _) as [[a|[cd dt|m|nm]|] w3];
      injection H as _ <-; eauto. }
  destruct Hd as (out0 & Hd).
  apply dispatch_trace in Hd as (later & asked & Et & F & Hasked). cbn [trace] in Et.
  exists (later ++ asked ++ c :: u). rewrite Et, Ec, Eu.
  split; [now rewrite <- !app_assoc|].
  destruct (count_calls_silent later F) as [Hlp Hlg].
  change (c :: u) with ([c] ++ u). rewrite !count_calls_app, Hlp, Hlg, Hup, Hug.
  destruct Hasked as [-> | (g & -> & Hg)];
    unfold count_calls; rewrite ?filter_cons, ?Hcp, ?Hcg, ?Hg; simpl.
  - split; lia.
  - split; [lia|]. case_decide; simpl; lia.
Qed.

End OneRequest.

(** ** Each turn keeps to its own fields *)

Lemma dispatch_intent B cfg (fuel : nat) (sid : string) (l : nat) (d : RouteDecision)
    (w w' : World) (resp : ChatResponse) :
  dispatch B cfg fuel sid l (Some d) w = (Return resp, w') ->
  r_intent resp = intent d.
Proof.
  intros H. unfold dispatch in H. destruct (intent d); unfold bind at 1 in H.
  - destruct (generate_text B cfg l (prompt d) w) as [[t|e|] wg]; try discriminate H.
    cbv [bind modify ret] in H. now injection H as <- _.
  - destruct (generate_image B cfg l (prompt d) (style d) w) as [[t|e|] wg];
      try discriminate H.
    cbv [bind modify ret] in H. now injection H as <- _.
  - destruct (generate_video B cfg fuel l (prompt d) _ _ w) as [[t|e|] wg];
      try discriminate H.
    cbv [bind modify ret] in H. now injection H as <- _.
Qed.

Section IntentObjects.

Variable rel : SessionState -> SessionState -> Prop.
Hypothesis rel_refl : forall s, rel s s.
Hypothesis rel_trans : forall s1 s2 s3, rel s1 s2 -> rel s2 s3 -> rel s1 s3.
Hypothesis rel_append : forall m s, rel s (append_message m s).
Hypothesis rel_intent : forall i s, rel s (set_last_intent i s).

Variable B : Backend.
Variable cfg : Config.
Variable i : Intent.

Hypothesis rel_image : i = Image -> forall r s, rel s (set_last_image_response_id r s).
Hypothesis rel_video : i = Video -> forall v s, rel s (set_last_video_id v s).
Hypothesis rel_done : i = Video -> forall b s, rel s (set_last_video_completed b s).

(** A turn of intent [i] relates every session to itself by [rel] as
    soon as the writes of that intent's generator do. *)
Lemma dispatch_objects_of_intent (fuel : nat) (sid : string) (l : nat)
    (d : RouteDecision) (w w' : World) (out : outcome ChatResponse) :
  dispatch B cfg fuel sid l (Some d) w = (out, w') ->
  intent d = i ->
  objects_rel rel w w'.
Proof.
  intros H Hi.
  pose proof (fun l m => post_modify_objects rel rel_refl l (append_message m)
                           (rel_append m)) as Hm.
  pose proof (fun l j => post_modify_objects rel rel_refl l (set_last_intent j)
                           (rel_intent j)) as Hj.
  pose proof (objects_rel_refl rel rel_refl) as Hr.
  pose proof (objects_rel_trans rel rel_trans) as Htr.
  pose proof (objects_rel_call rel rel_refl) as Hc.
  assert (Hp : post (dispatch B cfg fuel sid l (Some d)) (objects_rel rel));
    [|exact (Hp _ _ _ H)].
  unfold dispatch. destruct (intent d) eqn:Ei.
  - pose proof (post_generate_text_objects rel rel_refl rel_trans B cfg rel_append) as Ht.
    post_auto Hr Htr Hc.
  - assert (E : i = Image) by congruence.
    pose proof (post_generate_image_objects rel rel_refl rel_trans B cfg
                  (rel_image E)) as Hg.
    post_auto Hr Htr Hc.
  - assert (E : i = Video) by congruence.
    pose proof (post_generate_video_objects rel rel_refl rel_trans B cfg
                  (rel_video E) (rel_done E)) as Hv.
    post_auto Hr Htr Hc.
Qed.

Lemma handle_message_objects_of_intent (fuel : nat) (req : ChatRequest) (w w' : World)
    (resp : ChatResponse) :
  handle_message B cfg fuel req w = (Return resp, w') ->
  r_intent resp = i ->
  objects_rel rel w w'.
Proof.
  intros H Hi. rewrite handle_message_unfold in H.
  destruct (get_or_create_session B (session_id req) w) as [[[sid l0]|e|] w1] eqn:Eg;
    try discriminate H.
  apply (post_get_or_create_session_objects rel rel_refl B) in Eg.
  eapply objects_rel_trans; [exact rel_trans | exact Eg |].
  destruct (negb (nonempty (strip (text req)))); [discriminate H|].
  destruct (route_intent B cfg (strip (text req)) l0 w1) as [[dec|e|] w2] eqn:Er;
    try discriminate H.
  apply post_route_intent_same_store in Er as [_ Eh].
  apply try_except_returns in H.
  eapply objects_rel_trans; [exact rel_trans | |].
  { intros l' s1 Hl'. rewrite <- Eh in Hl'.
    eapply (post_modify_objects rel rel_refl l0
              (append_message {| role := "user"; content := strip (text req) |})
              (rel_append _));
      [reflexivity | exact Hl']. }
  destruct dec as [d|]; [|discriminate H].
  eapply dispatch_objects_of_intent; [exact H|].
  rewrite <- Hi. symmetry. eapply dispatch_intent, H.
Qed.

End IntentObjects.

Section OwnFields.

Variable B : Backend.
Variable cfg : Config.

Lemma same_image_handle_refl (s : SessionState) : same_image_handle s s.
Proof. reflexivity. Qed.

Lemma same_image_handle_trans (s1 s2 s3 : SessionState) :
  same_image_handle s1 s2 -> same_image_handle s2 s3 -> same_image_handle s1 s3.
Proof. unfold same_image_handle. congruence. Qed.

Lemma same_video_job_refl (s : SessionState) : same_video_job s s.
Proof. split; reflexivity. Qed.

Lemma same_video_job_trans (s1 s2 s3 : SessionState) :
  same_video_job s1 s2 -> same_video_job s2 s3 -> same_video_job s1 s3.
Proof. unfold same_video_job. intros [A1 A2] [B1 B2]. split; congruence. Qed.

(** X18. Each kind of turn keeps to its own fields.  A request that is
    answered with text or video leaves the image handle of every
    session as it was, and a request that is answered with text or an
    image leaves the video job and its completed flag as they were. *)
Theorem answered_request_own_fields (fuel : nat) (req : ChatRequest) (w w' : World)
    (resp : ChatResponse) (l : nat) (s : SessionState) :
  handle_message B cfg fuel req w = (Return resp, w') ->
  heap w !! l = Some s ->
  exists s',
    heap w' !! l = Some s' /\
    (r_intent resp <> Image -> last_image_response_id s' = last_image_response_id s) /\
    (r_intent resp <> Video ->
     last_video_id s' = last_video_id s /\
     last_video_completed s' = last_video_completed s).
Proof.
  intros H Hl.
  assert (Himg : r_intent resp <> Image -> objects_rel same_image_handle w w').
  { intros Hne.
    eapply (handle_message_objects_of_intent same_image_handle
              same_image_handle_refl same_image_handle_trans
              (fun _ _ => eq_refl) (fun _ _ => eq_refl) B cfg (r_intent resp));
      [congruence | intros; reflexivity | intros; reflexivity | exact H | reflexivity]. }
  assert (Hvid : r_intent resp <> Video -> objects_rel same_video_job w w').
  { intros Hne.
    eapply (handle_message_objects_of_intent same_video_job
              same_video_job_refl same_video_job_trans
              (fun _ _ => conj eq_refl eq_refl) (fun _ _ => conj eq_refl eq_refl)
              B cfg (r_intent resp));
      [intros; split; reflexivity | congruence | congruence | exact H | reflexivity]. }
  destruct (post_handle_message_objects (fun _ _ => True) (fun _ => I)
              (fun _ _ _ _ _ => I) B cfg (fun _ _ => I) (fun _ _ => I) (fun _ _ => I)
              (fun _ _ => I) (fun _ _ => I) fuel req w _ w' H l s Hl) as (s' & Hl' & _).
  exists s'. split; [exact Hl'|]. split.
  - intros Hne. destruct (Himg Hne l s Hl) as (s2 & Hl2 & R).
    rewrite Hl' in Hl2. injection Hl2 as <-. exact R.
  - intros Hne. destruct (Hvid Hne l s Hl) as (s2 & Hl2 & R).
    rewrite Hl' in Hl2. injection Hl2 as <-. exact R.
Qed.

End OwnFields.

(** ** Scripted runs of the further properties *)

Lemma store_ok_one_session (s : SessionState) : store_ok (one_session s).
Proof.
  intros sid l H. unfold one_session in *. cbn [SESSIONS heap] in *.
  apply lookup_singleton_Some in H as [_ <-]. simpl. lia.
Qed.

Lemma video_run_result : video_run = (Return video_response, video_world).
Proof. vm_compute. reflexivity. Qed.

(** An image turn on a session: the object is still there. *)
Lemma handle_message_appends_only_witness :
  exists s' more,
    heap (snd image_run) !! 0%nat = Some s' /\
    messages s' = messages (a_session (Some Video) None (Some "video_0") true) ++ more.
Proof.
  exact (handle_message_appends_only image_backend default_config 0
           (request (Some "s1") "draw a fox")
           (one_session (a_session (Some Video) None (Some "video_0") true))
           (snd image_run) (fst image_run) 0%nat
           (a_session (Some Video) None (Some "video_0") true)
           (surjective_pairing image_run) eq_refl).
Defined.

(** An image turn that fails at the backend, after a text turn. *)
Lemma failed_request_keeps_last_intent_witness :
  exists s',
    heap (snd image_down_run) !! 0%nat = Some s' /\
    last_intent s' = last_intent (a_session (Some Text) None None false).
Proof.
  exact (failed_request_keeps_last_intent image_down_backend default_config 0
           (request (Some "s1") "draw a fox")
           (one_session (a_session (Some Text) None None false))
           (snd image_down_run) (HTTPException 500 "backend unavailable") 0%nat
           (a_session (Some Text) None None false) eq_refl eq_refl).
Defined.

(** A first request: the session is filed under the new id. *)
Lemma handle_message_touches_one_session_witness :
  exists l,
    SESSIONS (snd text_run) !! chosen_id haiku_backend None empty_world = Some l /\
    (forall sid', sid' <> chosen_id haiku_backend None empty_world ->
                  SESSIONS (snd text_run) !! sid' = SESSIONS empty_world !! sid') /\
    (forall l' s, l' <> l -> heap empty_world !! l' = Some s ->
                  heap (snd text_run) !! l' = Some s).
Proof.
  exact (handle_message_touches_one_session haiku_backend default_config 0
           (request None "  a haiku, please ") empty_world (snd text_run) (fst text_run)
           (surjective_pairing text_run)).
Defined.

(** The world a first request leaves is one the server reaches. *)
Lemma reachable_store_injective_witness :
  (forall a b l, SESSIONS (snd text_run) !! a = Some l ->
                 SESSIONS (snd text_run) !! b = Some l -> a = b) /\
  (forall sid l, SESSIONS (snd text_run) !! sid = Some l ->
                 is_Some (heap (snd text_run) !! l)).
Proof.
  exact (reachable_store_injective haiku_backend default_config (snd text_run)
           (reachable_request haiku_backend default_config empty_world 0
              (request None "  a haiku, please ") (fst text_run) (snd text_run)
              (reachable_start haiku_backend default_config)
              (surjective_pairing text_run))).
Defined.

(** The reply of a first request, in the world it leaves. *)
Lemma reachable_roles_witness :
  heap (snd text_run) !! 0%nat = Some text_session /\
  (role {| role := "assistant"; content := "Soft rain on the roof" |} = "user" \/
   role {| role := "assistant"; content := "Soft rain on the roof" |} = "assistant").
Proof.
  split; [reflexivity|].
  apply (reachable_roles haiku_backend default_config (snd text_run) 0%nat text_session).
  - exact (reachable_request haiku_backend default_config empty_world 0
             (request None "  a haiku, please ") (fst text_run) (snd text_run)
             (reachable_start haiku_backend default_config)
             (surjective_pairing text_run)).
  - reflexivity.
  - simpl. rewrite !elem_of_cons. auto.
Defined.

(** The poller on a job that completes at the second look. *)
Lemma poll_video_until_done_observes_witness :
  SESSIONS (snd (poll_video_until_done video_backend default_config 5 "video_1"
                   (one_session new_SessionState)))
  = SESSIONS (one_session new_SessionState) /\
  heap (snd (poll_video_until_done video_backend default_config 5 "video_1"
               (one_session new_SessionState)))
  = heap (one_session new_SessionState) /\
  exists later,
    trace (snd (poll_video_until_done video_backend default_config 5 "video_1"
                  (one_session new_SessionState)))
    = later ++ trace (one_session new_SessionState) /\
    Forall (fun c => c = TimeTime \/ c = VideosRetrieve "video_1"
                     \/ c = TimeSleep (VIDEO_POLL_SECONDS default_config)) later.
Proof.
  exact (poll_video_until_done_observes video_backend default_config 5 "video_1"
           (one_session new_SessionState) _ _ (surjective_pairing _)).
Defined.

(** A clock that is past the deadline from its second reading on. *)
Lemma poll_video_until_done_ends_witness :
  (exists job,
      fst (poll_video_until_done late_clock_backend default_config 5 "video_1"
             empty_world) = Return job) \/
  (exists e,
      fst (poll_video_until_done late_clock_backend default_config 5 "video_1"
             empty_world) = Raise e).
Proof.
  apply (poll_video_until_done_ends late_clock_backend default_config "video_1" 2 5
           empty_world).
  - intros tr Hn. unfold late_clock_backend, clock.
    destruct (Nat.leb_spec 2 (count_calls is_time tr)); [reflexivity | lia].
  - lia.
  - lia.
Defined.

(** The video turn that completes within 5 rounds, with 8. *)
Lemma handle_message_more_fuel_witness :
  handle_message video_backend default_config (5 + 3)
    (request (Some "s1") "a clip of a sunset") (one_session new_SessionState)
  = (Return video_response, video_world).
Proof.
  apply (handle_message_more_fuel video_backend default_config 5 3).
  - exact video_run_result.
  - discriminate.
Defined.

(** The id a first request returns. *)
Lemma returned_session_id_resolves_witness :
  r_session_id text_response <> "" /\
  exists l,
    SESSIONS (snd text_run) !! r_session_id text_response = Some l /\
    get_or_create_session haiku_backend (Some (r_session_id text_response)) (snd text_run)
    = (Return (r_session_id text_response, l), snd text_run).
Proof.
  exact (returned_session_id_resolves haiku_backend default_config 0
           (request None "  a haiku, please ") empty_world (snd text_run) text_response
           eq_refl).
Defined.

(** The video turn that completes. *)
Lemma answered_video_turn_then_remix_witness :
  exists l job c before later,
    SESSIONS video_world !! r_session_id video_response = Some l /\
    trace video_world = later ++ c :: before ++ trace (one_session new_SessionState) /\
    Forall quiet before /\ Forall quiet later /\
    is_submission c = true /\
    video_reply video_backend (c :: before ++ trace (one_session new_SessionState))
    = inr job /\
    last_intent (heap video_world !!! l) = Some Video /\
    last_video_id (heap video_world !!! l) = Some (job_id job) /\
    last_video_completed (heap video_world !!! l) = true /\
    (job_id job <> "" ->
     forall fuel' p secs sz,
       exists later',
         trace (snd (generate_video video_backend default_config fuel' l p secs sz
                       video_world))
         = later' ++ VideosRemix (job_id job) p :: trace video_world /\
         Forall quiet later').
Proof.
  exact (answered_video_turn_then_remix video_backend default_config 5
           (request (Some "s1") "a clip of a sunset") (one_session new_SessionState)
           video_world video_response (store_ok_one_session _) video_run_result eq_refl).
Defined.

(** A response without any output item. *)
Lemma generate_image_outcome_witness :
  fst (generate_image no_image_backend default_config 0 "A red fox" None
         (one_session new_SessionState))
  = Raise (HTTPException 500 "No image generated in response output.") /\
  trace (snd (generate_image no_image_backend default_config 0 "A red fox" None
                (one_session new_SessionState)))
  = [ResponsesCreate "gpt-5.2" (InputText "A red fox") ["image_generation"] None].
Proof.
  destruct (generate_image_outcome no_image_backend default_config 0 "A red fox" None
              (one_session new_SessionState)
              {| resp_id := "resp_01"; output_text := Some ""; output := [] |} eq_refl)
    as (H1 & H2 & _).
  split; [apply H1; reflexivity | apply H2; reflexivity].
Defined.

(** The image turn: the marker names the URL of the response. *)
Lemma answered_request_marker_witness :
  exists u,
    r_text image_response = None /\
    r_asset_url image_response = Some ("/outputs/" +:+ uuid_hex u +:+ ".png") /\
    last (session_messages (snd image_run) (r_session_id image_response))
    = Some {| role := "assistant";
              content := "[image generated] /outputs/" +:+ uuid_hex u +:+ ".png" |}.
Proof.
  exact (proj2 (answered_request_marker image_backend default_config 0
                  (request (Some "s1") "draw a fox")
                  (one_session (a_session (Some Video) None (Some "video_0") true))
                  (snd image_run) image_response (store_ok_one_session _) eq_refl)).
Defined.

(** The router is down. *)
Lemma raw_exception_is_routing_failure_witness :
  exists sid l w1 model input,
    get_or_create_session failing (Some "s1") (one_session new_SessionState)
    = (Return (sid, l), w1) /\
    snd router_down_run = record_call (ResponsesParse model input) w1 /\
    parse_reply failing (trace (snd router_down_run)) = inl (Failure "router unavailable").
Proof.
  exact (raw_exception_is_routing_failure failing default_config 0
           (request (Some "s1") "hello") (one_session new_SessionState)
           (snd router_down_run) "router unavailable" eq_refl).
Defined.

(** A first request that is answered with text. *)
Lemma answered_text_turn_request_witness :
  exists shown reply rest,
    shown = prior_messages empty_world None
            ++ [ {| role := "user"; content := strip "  a haiku, please " |};
                 {| role := "user"; content := routed_prompt text_response |} ] /\
    trace (snd text_run)
    = ResponsesCreate (TEXT_MODEL default_config) (InputMessages shown) [] None :: rest /\
    r_text text_response = Some reply /\
    session_messages (snd text_run) (r_session_id text_response)
    = shown ++ [ {| role := "assistant"; content := reply |} ].
Proof.
  exact (answered_text_turn_request haiku_backend default_config 0
           (request None "  a haiku, please ") empty_world (snd text_run) text_response
           store_ok_empty eq_refl eq_refl).
Defined.

(** The video turn: one routing call, one creation. *)
Lemma handle_message_asks_once_witness :
  exists new,
    trace (snd video_run) = new ++ trace (one_session new_SessionState) /\
    (count_calls is_parse new <= 1)%nat /\
    (count_calls is_generation new <= 1)%nat.
Proof.
  exact (handle_message_asks_once video_backend default_config 5
           (request (Some "s1") "a clip of a sunset") (one_session new_SessionState)
           (snd video_run) (fst video_run) (surjective_pairing video_run)).
Defined.

(** The image turn on a session whose last video had completed. *)
Lemma answered_request_own_fields_witness :
  exists s',
    heap (snd image_run) !! 0%nat = Some s' /\
    (r_intent image_response <> Image ->
     last_image_response_id s'
     = last_image_response_id (a_session (Some Video) None (Some "video_0") true)) /\
    (r_intent image_response <> Video ->
     last_video_id s' = last_video_id (a_session (Some Video) None (Some "video_0") true) /\
     last_video_completed s'
     = last_video_completed (a_session (Some Video) None (Some "video_0") true)).
Proof.
  exact (answered_request_own_fields image_backend default_config 0
           (request (Some "s1") "draw a fox")
           (one_session (a_session (Some Video) None (Some "video_0") true))
           (snd image_run) image_response 0%nat
           (a_session (Some Video) None (Some "video_0") true) eq_refl eq_refl).
Defined.

(** ** The image handle, session by session *)









Section HandleBySession.

Variable B : Backend.
Variable cfg : Config.







End HandleBySession.


